(** * Caching, pooling and resilient external calls of the peer-growth analyser

    A shallow embedding of the Python sources
    ([data/peer_pool_manager.py], [data/cache_manager.py],
    [data/twitter_client.py], [ai/grok_client.py], [ai/peer_matcher.py],
    [services/analysis_service.py], [db/connection.py], [db/models.py])
    and the properties of the caching / pooling / retry layer proved on it.

    Part I holds the definitions, one module per Python class; Part II the
    theorems. *)

From Stdlib Require Import ZArith List String Ascii Bool Lia Arith.
From Stdlib Require Import Floats DecimalString.
From Equations Require Import Equations.
Import ListNotations.

Set Warnings "-inexact-float,-register-all".

Open Scope string_scope.
Open Scope list_scope.
Open Scope Z_scope.

(* ===================================================================== *)
(** * Part I. Definitions                                                  *)
(* ===================================================================== *)

(** ** Python numbers

    Python's [int] is unbounded ([Z]); its [float] is an IEEE-754 binary64,
    here the kernel's primitive [float].  An exception is modelled by
    [None]. *)
Module Py.

(** [float(n)] for an [int]: the nearest binary64, ties to even;
    an [int] beyond the finite range raises [OverflowError], which shows
    up as an infinity that [int_of_float] below refuses. *)
Definition float_of_int (n : Z) : float :=
  SF2Prim (binary_normalize prec emax n 0 false).

(** [int(x)] for a [float]: truncation toward zero; [OverflowError] on an
    infinity and [ValueError] on a NaN. *)
Definition int_of_float (x : float) : option Z :=
  match Prim2SF x with
  | S754_zero _ => Some 0
  | S754_finite s m e =>
      let a := match e with
               | Zneg p => Z.shiftr (Zpos m) (Zpos p)
               | _ => Z.shiftl (Zpos m) e
               end in
      Some (if s then - a else a)
  | S754_infinity _ | S754_nan => None
  end.

(** [int(n * m)] with [n] an [int] and [m] a [float] literal. *)
Definition int_mul (n : Z) (m : float) : option Z :=
  int_of_float (float_of_int n * m)%float.

(** [int(a / b)] with [a], [b] of type [int] ([/] is true division;
    [ZeroDivisionError] when [b = 0]). *)
Definition int_truediv (a b : Z) : option Z :=
  if b =? 0 then None
  else int_of_float (float_of_int a / float_of_int b)%float.

(** [str(n)] / the [f"{n}"] rendering of an [int]. *)
Definition str_of_int (n : Z) : string :=
  NilZero.string_of_int (Z.to_int n).

End Py.

(** ** Exceptions and HTTP replies

    A Python call either returns a value or raises; the exception classes
    and messages are those the sources raise. *)
Module Exn.

(** The messages of [TwitterAPIError] raised by [TwitterAPIClient]. *)
Inductive twitter_failure : Type :=
| TwRateLimitExceeded            (* "API rate limit exceeded. ..." *)
| TwAccountNotFound              (* "Account not found or endpoint incorrect" *)
| TwInvalidApiKey                (* "Invalid API key. ..." *)
| TwApiError (status_code : Z)   (* "API error: {status_code}" *)
| TwRequestTimeout               (* "Request timeout" *)
| TwNetworkError                 (* "Network error: ..." *)
| TwFailed (what : string).      (* "Failed to fetch tweets: ..." and the like *)

(** The messages of [GrokAPIError] raised by [GrokClient]. *)
Inductive grok_failure : Type :=
| GkRateLimitExceeded            (* "Rate limit exceeded after retries" *)
| GkInvalidApiKey                (* "Invalid API key. ..." *)
| GkApiError (status_code : Z)   (* "API error: {status_code}" *)
| GkRequestTimeout               (* "Request timeout" *)
| GkNetworkError                 (* "Network error: ..." *)
| GkInvalidJson.                 (* "Invalid JSON response: ..." *)

Inductive exn : Type :=
| TwitterAPIError (why : twitter_failure)
| GrokAPIError (why : grok_failure)
| ValueError (message : string)
| AttributeError (message : string)
| OverflowError
| PlainException (message : string)
| StorageError.                  (* an exception of the database layer *)

Inductive result (A : Type) : Type :=
| Ok (value : A)
| Raise (e : exn).
Arguments Ok {A} value.
Arguments Raise {A} e.

(** What [requests] gives back for one HTTP request: a response with its
    status code and decoded body, or one of its exceptions. *)
Inductive reply (B : Type) : Type :=
| Response (status_code : Z) (body : B)
| Timeout                        (* requests.exceptions.Timeout *)
| RequestException.              (* any other requests exception *)
Arguments Response {B} status_code body.
Arguments Timeout {B}.
Arguments RequestException {B}.

(** [response.raise_for_status()] raises [HTTPError] on 4xx and 5xx. *)
Definition is_http_error (status_code : Z) : bool :=
  (400 <=? status_code) && (status_code <? 600).

(** What a call does besides returning: the HTTP requests it issues and
    the pauses it takes ([time.sleep], in seconds). *)
Inductive event : Type :=
| Request
| Sleep (seconds : Z).

(** The server as the call sees it: the reply to its [k]-th request. *)
Definition server (B : Type) : Type := nat -> reply B.

(** The server once the first reply has been consumed. *)
Definition later {B : Type} (srv : server B) : server B := fun k => srv (S k).

Definition count_requests (trace : list event) : nat :=
  List.length (filter (fun ev => match ev with Request => true | _ => false end) trace).

Definition sleeps (trace : list event) : list Z :=
  flat_map (fun ev => match ev with Sleep n => [n] | _ => [] end) trace.

End Exn.

(** ** Python [str]

    A text is a [string]; its characters are the code points 0..255, which
    covers every character the cleaning of a model response looks at
    (whitespace, back-quotes, ASCII digits, commas, double quotes). *)
Module Str.

Definition code (c : ascii) : nat := nat_of_ascii c.

(** [c.isspace()] for a code point below 256: TAB..CR, FS..US, SPACE,
    NEL and NBSP. *)
Definition isspace (c : ascii) : bool :=
  let n := code c in
  ((9 <=? n) && (n <=? 13) || (28 <=? n) && (n <=? 32)
   || (n =? 133) || (n =? 160))%nat.

(** The class [\d] of [re] for a code point below 256: the digits 0-9. *)
Definition isdigit (c : ascii) : bool :=
  let n := code c in ((48 <=? n) && (n <=? 57))%nat.

(** [s.lstrip()] *)
Fixpoint lstrip (s : string) : string :=
  match s with
  | String c rest => if isspace c then lstrip rest else s
  | EmptyString => EmptyString
  end.

(** [s.rstrip()] *)
Fixpoint rstrip (s : string) : string :=
  match s with
  | String c rest =>
      match rstrip rest with
      | EmptyString => if isspace c then EmptyString else String c EmptyString
      | kept => String c kept
      end
  | EmptyString => EmptyString
  end.

(** [s.strip()] *)
Definition strip (s : string) : string := rstrip (lstrip s).

(** [s.startswith(p)] *)
Definition startswith (p s : string) : bool := String.prefix p s.

(** [s[n:]] for [n >= 0] *)
Fixpoint drop (n : nat) (s : string) : string :=
  match n, s with
  | S k, String _ rest => drop k rest
  | _, _ => s
  end.

(** [s[:-n]] for [n > 0]: all but the last [n] characters. *)
Definition drop_last (n : nat) (s : string) : string :=
  substring 0 (String.length s - n) s.

(** [s.endswith(p)] *)
Definition endswith (p s : string) : bool :=
  (String.length p <=? String.length s)%nat
  && String.eqb (drop (String.length s - String.length p) s) p.

(** [s.lstrip('@')] *)
Fixpoint lstrip_at (s : string) : string :=
  match s with
  | String c rest => if Ascii.eqb c "@" then lstrip_at rest else s
  | EmptyString => EmptyString
  end.

(** [c.lower()] for a code point below 256: A-Z, and the Latin-1
    capitals 192..222 except the multiplication sign 215. *)
Definition lower_char (c : ascii) : ascii :=
  let n := code c in
  if ((65 <=? n) && (n <=? 90)
      || (192 <=? n) && (n <=? 222) && negb (n =? 215))%nat
  then ascii_of_nat (n + 32) else c.

(** [s.lower()] *)
Fixpoint lower (s : string) : string :=
  match s with
  | String c rest => String (lower_char c) (lower rest)
  | EmptyString => EmptyString
  end.

(** The double quote, and a text written with ['] standing for it:
    [quoted "{'v': 1}"] is the text [{"v": 1}]. *)
Definition dquote : ascii := ascii_of_nat 34.

Fixpoint quoted (s : string) : string :=
  match s with
  | String c rest => String (if Ascii.eqb c "'" then dquote else c) (quoted rest)
  | EmptyString => EmptyString
  end.

End Str.

(** ** Python values

    The values that the clients read from a decoded JSON body and the
    dicts they build.  A dict is the list of its items in insertion order;
    its keys are strings, as in every dict of these programs, and the first
    item of a key is the one that counts.  The operations are the
    built-in ones, with the exception each raises on an operand of another
    type. *)
Module PyVal.

Inductive value : Type :=
| VNone
| VBool (b : bool)
| VInt (n : Z)
| VFloat (x : float)
| VStr (s : string)
| VList (items : list value)
| VDict (members : list (string * value)).

(** The built-in exceptions that these operations raise. *)
Inductive error : Type :=
| TypeError
| AttributeError
| KeyError
| OverflowError.

Inductive outcome (A : Type) : Type :=
| Value (a : A)
| Error (e : error).
Arguments Value {A} a.
Arguments Error {A} e.

Definition and_then {A B : Type} (m : outcome A) (k : A -> outcome B) : outcome B :=
  match m with
  | Value a => k a
  | Error e => Error e
  end.

Notation "x <~ m ;; k" := (and_then m (fun x => k))
  (at level 61, m at next level, right associativity).

(** [bool(v)] *)
Definition truthy (v : value) : bool :=
  match v with
  | VNone => false
  | VBool b => b
  | VInt n => negb (n =? 0)
  | VFloat x => negb (PrimFloat.eqb x PrimFloat.zero)
  | VStr s => negb (String.eqb s "")
  | VList items => match items with [] => false | _ => true end
  | VDict members => match members with [] => false | _ => true end
  end.

(** [a or b] *)
Definition or_else (a b : value) : value := if truthy a then a else b.

(** [sub in s] for two strings. *)
Fixpoint contains (sub s : string) : bool :=
  match s with
  | EmptyString => String.prefix sub s
  | String _ rest => String.prefix sub s || contains sub rest
  end.

Fixpoint lookup (key : string) (members : list (string * value)) : option value :=
  match members with
  | [] => None
  | (k, v) :: rest => if String.eqb k key then Some v else lookup key rest
  end.

(** The keys of a dict, each once, in insertion order. *)
Fixpoint keys (members : list (string * value)) : list string :=
  match members with
  | [] => []
  | (k, _) :: rest => k :: filter (fun k' => negb (String.eqb k' k)) (keys rest)
  end.

(** [v == s] for a string [s]. *)
Definition is_str (s : string) (v : value) : bool :=
  match v with
  | VStr s' => String.eqb s' s
  | _ => false
  end.

(** [key in v]: a key of a dict, an element of a list, a part of a
    string; [TypeError] on a value that is not a container. *)
Definition contains_key (key : string) (v : value) : outcome bool :=
  match v with
  | VDict members => Value (match lookup key members with Some _ => true | None => false end)
  | VList items => Value (existsb (is_str key) items)
  | VStr s => Value (contains key s)
  | _ => Error TypeError
  end.

(** [v[key]] for a string [key]: [KeyError] on a dict without the key,
    [TypeError] on anything else (a list and a string want an integer, the
    rest cannot be subscripted). *)
Definition getitem (v : value) (key : string) : outcome value :=
  match v with
  | VDict members =>
      match lookup key members with
      | Some x => Value x
      | None => Error KeyError
      end
  | _ => Error TypeError
  end.

(** [v.get(key, default)]: only a dict has the method. *)
Definition get (v : value) (key : string) (default : value) : outcome value :=
  match v with
  | VDict members =>
      match lookup key members with
      | Some x => Value x
      | None => Value default
      end
  | _ => Error AttributeError
  end.

(** [v.keys()]: only a dict has the method. *)
Definition dict_keys (v : value) : outcome (list string) :=
  match v with
  | VDict members => Value (keys members)
  | _ => Error AttributeError
  end.

Fixpoint chars (s : string) : list value :=
  match s with
  | EmptyString => []
  | String c rest => VStr (String c EmptyString) :: chars rest
  end.

(** What [for x in v] goes through: the items of a list, the characters
    of a string, the keys of a dict. *)
Definition iterate (v : value) : outcome (list value) :=
  match v with
  | VList items => Value items
  | VStr s => Value (chars s)
  | VDict members => Value (map VStr (keys members))
  | _ => Error TypeError
  end.

(** [len(v)] *)
Definition len (v : value) : outcome Z :=
  match v with
  | VList items => Value (Z.of_nat (List.length items))
  | VStr s => Value (Z.of_nat (String.length s))
  | VDict members => Value (Z.of_nat (List.length (keys members)))
  | _ => Error TypeError
  end.

(** [l[:n]] on a list: the first [n] items, or all but the last [-n]
    when [n] is negative. *)
Definition list_slice_to {A : Type} (l : list A) (n : Z) : list A :=
  if n <? 0 then firstn (List.length l - Z.to_nat (- n)) l
  else firstn (Z.to_nat n) l.

(** [v[:n]]: a list or a string can be sliced; a dict raises (a slice is
    no key of it), the rest cannot be subscripted. *)
Definition slice_to (v : value) (n : Z) : outcome value :=
  match v with
  | VList items => Value (VList (list_slice_to items n))
  | VStr s =>
      Value (VStr (if n <? 0 then substring 0 (String.length s - Z.to_nat (- n)) s
                   else substring 0 (Z.to_nat n) s))
  | _ => Error TypeError
  end.

End PyVal.

(** ** [utils/cost_tracker.py]: [CostTracker]

    The counters of the tracker; the dict [api_calls] has the four keys
    that [__init__] gives it.  The conversions to dollars are left out. *)
Module CostTracker.

Record tracker : Type := {
  twitter_credits : Z;
  grok_input_tokens : Z;
  grok_output_tokens : Z;
  user_info_calls : Z;
  tweets_calls : Z;
  search_calls : Z;
  grok_calls : Z
}.

Definition TWITTER_USER_INFO : Z := 18.
Definition TWITTER_SEARCH : Z := 20.

(** [__init__] *)
Definition init : tracker :=
  {| twitter_credits := 0; grok_input_tokens := 0; grok_output_tokens := 0;
     user_info_calls := 0; tweets_calls := 0; search_calls := 0; grok_calls := 0 |}.

(** [add_user_info_call] *)
Definition add_user_info_call (self : tracker) : tracker :=
  {| twitter_credits := twitter_credits self + TWITTER_USER_INFO;
     grok_input_tokens := grok_input_tokens self;
     grok_output_tokens := grok_output_tokens self;
     user_info_calls := user_info_calls self + 1;
     tweets_calls := tweets_calls self;
     search_calls := search_calls self;
     grok_calls := grok_calls self |}.

(** The credits of [add_tweets_call]:
    [int((tweet_count / 1000) * 15000)], at least 15.  The division is the
    true division of two [int]s, which for a count below [2 ** 53] (as
    every length is) is the division of the two floats.  [None] is the
    [OverflowError] of [int] on an infinity. *)
Definition tweet_credits (tweet_count : Z) : option Z :=
  match Py.int_of_float
          (Py.float_of_int tweet_count / Py.float_of_int 1000 * Py.float_of_int 15000)%float
  with
  | Some credits => Some (if credits <? 15 then 15 else credits)
  | None => None
  end.

(** [add_tweets_call] *)
Definition add_tweets_call (self : tracker) (tweet_count : Z) : option tracker :=
  match tweet_credits tweet_count with
  | Some credits =>
      Some {| twitter_credits := twitter_credits self + credits;
              grok_input_tokens := grok_input_tokens self;
              grok_output_tokens := grok_output_tokens self;
              user_info_calls := user_info_calls self;
              tweets_calls := tweets_calls self + 1;
              search_calls := search_calls self;
              grok_calls := grok_calls self |}
  | None => None
  end.

(** [add_search_call] *)
Definition add_search_call (self : tracker) : tracker :=
  {| twitter_credits := twitter_credits self + TWITTER_SEARCH;
     grok_input_tokens := grok_input_tokens self;
     grok_output_tokens := grok_output_tokens self;
     user_info_calls := user_info_calls self;
     tweets_calls := tweets_calls self;
     search_calls := search_calls self + 1;
     grok_calls := grok_calls self |}.

(** [add_grok_call] *)
Definition add_grok_call (self : tracker) (input_tokens output_tokens : Z) : tracker :=
  {| twitter_credits := twitter_credits self;
     grok_input_tokens := grok_input_tokens self + input_tokens;
     grok_output_tokens := grok_output_tokens self + output_tokens;
     user_info_calls := user_info_calls self;
     tweets_calls := tweets_calls self;
     search_calls := search_calls self;
     grok_calls := grok_calls self + 1 |}.

End CostTracker.

(** ** [json.loads]

    The decoder of Python's standard library, as far as the repair of a
    model response depends on it: the grammar it accepts and the shape of
    the value.  A string value is kept as written between its quotes
    (escape sequences are checked, not decoded); a number with a fraction
    or an exponent is kept as its lexeme. *)
Module Json.
Import Str.

Inductive json : Type :=
| JNull
| JBool (b : bool)
| JInt (n : Z)
| JFloat (lexeme : string)
| JString (s : string)
| JArray (items : list json)
| JObject (members : list (string * json)).

Definition is_ws (c : ascii) : bool :=
  let n := code c in ((n =? 32) || (n =? 9) || (n =? 10) || (n =? 13))%nat.

Fixpoint skip_ws (s : string) : string :=
  match s with
  | String c rest => if is_ws c then skip_ws rest else s
  | EmptyString => EmptyString
  end.

Definition is_hex (c : ascii) : bool :=
  let n := code c in
  (isdigit c || (65 <=? n) && (n <=? 70) || (97 <=? n) && (n <=? 102))%nat.

Definition is_simple_escape (c : ascii) : bool :=
  existsb (Ascii.eqb c) [dquote; "\"; "/"; "b"; "f"; "n"; "r"; "t"]%char.

(** The body of a string, after its opening quote: the characters up to
    the closing quote, and the rest of the text. *)
Fixpoint scan_string (s : string) : option (string * string) :=
  match s with
  | EmptyString => None
  | String c rest =>
      if Ascii.eqb c dquote then Some (EmptyString, rest)
      else if Ascii.eqb c "\" then
        match rest with
        | String e rest1 =>
            if is_simple_escape e then
              match scan_string rest1 with
              | Some (body, tl) => Some (String c (String e body), tl)
              | None => None
              end
            else if Ascii.eqb e "u" then
              match rest1 with
              | String h1 (String h2 (String h3 (String h4 rest2))) =>
                  if is_hex h1 && is_hex h2 && is_hex h3 && is_hex h4 then
                    match scan_string rest2 with
                    | Some (body, tl) =>
                        Some (String c (String e (String h1 (String h2
                                (String h3 (String h4 body))))), tl)
                    | None => None
                    end
                  else None
              | _ => None
              end
            else None
        | EmptyString => None
        end
      else if (code c <? 32)%nat then None
      else
        match scan_string rest with
        | Some (body, tl) => Some (String c body, tl)
        | None => None
        end
  end.

(** The longest run of digits at the head of a text, and the rest. *)
Fixpoint span_digits (s : string) : string * string :=
  match s with
  | String c rest =>
      if isdigit c then let (ds, tl) := span_digits rest in (String c ds, tl)
      else (EmptyString, s)
  | EmptyString => (EmptyString, EmptyString)
  end.

Fixpoint digits_value (acc : Z) (ds : string) : Z :=
  match ds with
  | String c rest => digits_value (10 * acc + Z.of_nat (code c - 48)) rest
  | EmptyString => acc
  end.

(** The integer part: a single [0], or a non-zero digit and the digits
    after it. *)
Definition scan_intpart (s : string) : option (string * string) :=
  match s with
  | String c rest =>
      if Ascii.eqb c "0" then Some ("0", rest)
      else if isdigit c then Some (span_digits s)
      else None
  | EmptyString => None
  end.

(** The fraction (a dot and at least one digit), empty when absent. *)
Definition scan_frac (s : string) : string * string :=
  match s with
  | String "." rest =>
      match span_digits rest with
      | (EmptyString, _) => (EmptyString, s)
      | (ds, tl) => (String "." ds, tl)
      end
  | _ => (EmptyString, s)
  end.

(** The exponent ([e] or [E], a sign if any, at least one digit), empty
    when absent. *)
Definition scan_exp (s : string) : string * string :=
  match s with
  | String e rest =>
      if Ascii.eqb e "e" || Ascii.eqb e "E" then
        let (sign, rest1) :=
          match rest with
          | String g rest1 =>
              if Ascii.eqb g "-" || Ascii.eqb g "+"
              then (String g EmptyString, rest1) else (EmptyString, rest)
          | EmptyString => (EmptyString, rest)
          end in
        match span_digits rest1 with
        | (EmptyString, _) => (EmptyString, s)
        | (ds, tl) => (String e (sign ++ ds), tl)%string
        end
      else (EmptyString, s)
  | EmptyString => (EmptyString, s)
  end.

(** A number: an [int] when it has neither fraction nor exponent. *)
Definition scan_number (s : string) : option (json * string) :=
  let (neg, s1) :=
    match s with
    | String "-" rest => (true, rest)
    | _ => (false, s)
    end in
  match scan_intpart s1 with
  | Some (ip, s2) =>
      let (fr, s3) := scan_frac s2 in
      let (ex, s4) := scan_exp s3 in
      match fr, ex with
      | EmptyString, EmptyString =>
          let v := digits_value 0 ip in
          Some (JInt (if neg then - v else v), s4)
      | _, _ =>
          Some (JFloat ((if neg then "-" else "") ++ ip ++ fr ++ ex)%string, s4)
      end
  | None => None
  end.

(** A literal word at the head of the text. *)
Definition scan_word (w : string) (v : json) (s : string) : option (json * string) :=
  if startswith w s then Some (v, drop (String.length w) s) else None.

(** One value at the head of the text (which starts at a non-blank),
    the elements of an array after a first one, and the members of an
    object after a first one.  [fuel] bounds the nesting and the number
    of elements; the length of the text is enough. *)
Fixpoint scan_value (fuel : nat) (s : string) : option (json * string) :=
  match fuel with
  | O => None
  | S fuel' =>
      match s with
      | EmptyString => None
      | String c rest =>
          if Ascii.eqb c dquote then
            match scan_string rest with
            | Some (body, tl) => Some (JString body, tl)
            | None => None
            end
          else if Ascii.eqb c "{" then
            match skip_ws rest with
            | String "}" tl => Some (JObject [], tl)
            | inner =>
                match scan_members fuel' inner with
                | Some (ms, tl) => Some (JObject ms, tl)
                | None => None
                end
            end
          else if Ascii.eqb c "[" then
            match skip_ws rest with
            | String "]" tl => Some (JArray [], tl)
            | inner =>
                match scan_items fuel' inner with
                | Some (vs, tl) => Some (JArray vs, tl)
                | None => None
                end
            end
          else if Ascii.eqb c "n" then scan_word "null" JNull s
          else if Ascii.eqb c "t" then scan_word "true" (JBool true) s
          else if Ascii.eqb c "f" then scan_word "false" (JBool false) s
          else if Ascii.eqb c "N" then scan_word "NaN" (JFloat "NaN") s
          else if Ascii.eqb c "I" then scan_word "Infinity" (JFloat "Infinity") s
          else if startswith "-Infinity" s
               then scan_word "-Infinity" (JFloat "-Infinity") s
          else scan_number s
      end
  end

with scan_items (fuel : nat) (s : string) : option (list json * string) :=
  match fuel with
  | O => None
  | S fuel' =>
      match scan_value fuel' s with
      | Some (v, tl) =>
          match skip_ws tl with
          | String "]" tl' => Some ([v], tl')
          | String "," tl' =>
              match scan_items fuel' (skip_ws tl') with
              | Some (vs, tl'') => Some (v :: vs, tl'')
              | None => None
              end
          | _ => None
          end
      | None => None
      end
  end

with scan_members (fuel : nat) (s : string) : option (list (string * json) * string) :=
  match fuel with
  | O => None
  | S fuel' =>
      match s with
      | String q rest =>
          if Ascii.eqb q dquote then
            match scan_string rest with
            | Some (key, tl) =>
                match skip_ws tl with
                | String ":" tl1 =>
                    match scan_value fuel' (skip_ws tl1) with
                    | Some (v, tl2) =>
                        match skip_ws tl2 with
                        | String "}" tl3 => Some ([(key, v)], tl3)
                        | String "," tl3 =>
                            match scan_members fuel' (skip_ws tl3) with
                            | Some (ms, tl4) => Some ((key, v) :: ms, tl4)
                            | None => None
                            end
                        | _ => None
                        end
                    | None => None
                    end
                | _ => None
                end
            | None => None
            end
          else None
      | EmptyString => None
      end
  end.

(** [json.loads(s)]: one value, blanks around it, nothing else;
    [None] stands for [json.JSONDecodeError]. *)
Definition loads (s : string) : option json :=
  match scan_value (2 * String.length s + 2) (skip_ws s) with
  | Some (v, tl) =>
      match skip_ws tl with
      | EmptyString => Some v
      | _ => None
      end
  | None => None
  end.


End Json.

(** ** [ai/grok_client.py]: [GrokClient] *)
Module GrokClient.
Import Str Exn.

Record client : Type := {
  timeout : Z;
  max_retries : nat
}.

(** [__init__]: timeout 60, three retries. *)
Definition init : client := {| timeout := 60; max_retries := 3 |}.

(** [_make_request]: one request; on HTTP 429 the method sleeps
    [2 ** retry_count] seconds and on a timeout 2 seconds, then calls
    itself with [retry_count + 1], while [retry_count < max_retries].  The
    body of a reply is the text of the completion. *)
Equations? _make_request (self : client) (srv : server string) (retry_count : nat)
  : list event * result string by wf (max_retries self - retry_count)%nat lt :=
_make_request self srv retry_count with srv 0%nat := {
  | Response status_code text with is_http_error status_code := {
      | false := ([Request], Ok text)
      | true with status_code =? 429 := {
          | true with lt_dec retry_count (max_retries self) := {
              | left _ :=
                  let r := _make_request self (later srv) (S retry_count) in
                  (Request :: Sleep (2 ^ Z.of_nat retry_count) :: fst r, snd r)
              | right _ := ([Request], Raise (GrokAPIError GkRateLimitExceeded)) }
          | false with (status_code =? 401) || (status_code =? 403) := {
              | true := ([Request], Raise (GrokAPIError GkInvalidApiKey))
              | false := ([Request], Raise (GrokAPIError (GkApiError status_code))) } } }
  | Timeout with lt_dec retry_count (max_retries self) := {
      | left _ :=
          let r := _make_request self (later srv) (S retry_count) in
          (Request :: Sleep 2 :: fst r, snd r)
      | right _ := ([Request], Raise (GrokAPIError GkRequestTimeout)) }
  | RequestException := ([Request], Raise (GrokAPIError GkNetworkError)) }.
Proof. all: lia. Qed.

(** [complete]: the messages are built and [_make_request] is called with
    [retry_count = 0]. *)
Definition complete (self : client) (srv : server string) : list event * result string :=
  _make_request self srv 0%nat.

(** The substitution [re.sub(r'(\d),(\d)', r'\1\2', s)]: the text is
    scanned from the left; where a digit, a comma and a digit stand, the
    two digits are kept and the scan goes on after the second digit;
    elsewhere one character is copied. *)
Fixpoint sub_digit_comma_digit (s : string) : string :=
  match s with
  | String a tl =>
      match tl with
      | String c (String b rest) =>
          if isdigit a && Ascii.eqb c "," && isdigit b
          then String a (String b (sub_digit_comma_digit rest))
          else String a (sub_digit_comma_digit tl)
      | _ => String a (sub_digit_comma_digit tl)
      end
  | EmptyString => EmptyString
  end.

(** The markdown fences of [complete_json]: [strip], the three [if]s on
    the back-quote fences, [strip]. *)
Definition strip_fences (response : string) : string :=
  let response_clean := strip response in
  let response_clean :=
    if startswith "```json" response_clean then drop 7 response_clean
    else response_clean in
  let response_clean :=
    if startswith "```" response_clean then drop 3 response_clean
    else response_clean in
  let response_clean :=
    if endswith "```" response_clean then drop_last 3 response_clean
    else response_clean in
  strip response_clean.

(** The cleaned text that [complete_json] hands to [json.loads]. *)
Definition clean_response (response : string) : string :=
  sub_digit_comma_digit (strip_fences response).

(** [complete_json]: the completion is cleaned and given to [json.loads];
    a text that does not parse raises [GrokAPIError("Invalid JSON
    response")]. *)
Definition parse_response (response : string) : result Json.json :=
  match Json.loads (clean_response response) with
  | Some value => Ok value
  | None => Raise (GrokAPIError GkInvalidJson)
  end.

Definition complete_json (self : client) (srv : server string)
  : list event * result Json.json :=
  match complete self srv with
  | (trace, Ok response) => (trace, parse_response response)
  | (trace, Raise e) => (trace, Raise e)
  end.

End GrokClient.

(** ** [data/twitter_client.py]: [TwitterAPIClient] *)
Module TwitterAPIClient.
Import Exn PyVal.

Record client : Type := {
  timeout : Z;
  max_retries : nat;
  rate_limit_delay : Z
}.

(** [__init__]: timeout 30, three retries, five seconds between calls. *)
Definition init : client :=
  {| timeout := 30; max_retries := 3; rate_limit_delay := 5 |}.

(** [_make_request]: one request; on HTTP 429 and on a timeout the method
    calls itself with [retry_count + 1] while [retry_count < max_retries];
    the result is the trace of requests and pauses with the returned body
    or the raised [TwitterAPIError]. *)
Equations? _make_request {B : Type} (self : client) (srv : server B) (retry_count : nat)
  : list event * result B by wf (max_retries self - retry_count)%nat lt :=
_make_request self srv retry_count with srv 0%nat := {
  | Response status_code body with is_http_error status_code := {
      | false := ([Request; Sleep (rate_limit_delay self)], Ok body)
      | true with status_code =? 429 := {
          | true with lt_dec retry_count (max_retries self) := {
              | left _ :=
                  let r := _make_request self (later srv) (S retry_count) in
                  (Request :: Sleep 10 :: fst r, snd r)
              | right _ := ([Request], Raise (TwitterAPIError TwRateLimitExceeded)) }
          | false with status_code =? 404 := {
              | true := ([Request], Raise (TwitterAPIError TwAccountNotFound))
              | false with (status_code =? 401) || (status_code =? 403) := {
                  | true := ([Request], Raise (TwitterAPIError TwInvalidApiKey))
                  | false := ([Request], Raise (TwitterAPIError (TwApiError status_code))) } } } }
  | Timeout with lt_dec retry_count (max_retries self) := {
      | left _ :=
          let r := _make_request self (later srv) (S retry_count) in
          (Request :: Sleep 2 :: fst r, snd r)
      | right _ := ([Request], Raise (TwitterAPIError TwRequestTimeout)) }
  | RequestException := ([Request], Raise (TwitterAPIError TwNetworkError)) }.
Proof. all: lia. Qed.

(** The data read from a decoded body are Python values; the client may
    have a cost tracker ([self.cost_tracker], tested with [if]).  A method
    gives back the requests and pauses it made, its result, and the
    tracker as it leaves it.  The server is given per request: by the
    [userName] or the query asked for. *)
Definition call (A : Type) : Type :=
  (list event * result A * option CostTracker.tracker)%type.

(** The dict that [get_user_by_handle] returns for the user object of the
    reply. *)
Definition user_of_info (user_data : value) : outcome value :=
  id <~ get user_data "id" VNone ;;
  userName <~ get user_data "userName" VNone ;;
  name <~ get user_data "name" VNone ;;
  description <~ get user_data "description" (VStr "") ;;
  profilePicture <~ get user_data "profilePicture" (VStr "") ;;
  followers <~ get user_data "followers" (VInt 0) ;;
  following <~ get user_data "following" (VInt 0) ;;
  statusesCount <~ get user_data "statusesCount" (VInt 0) ;;
  Value (VDict [("id", id);
                ("username", userName);
                ("name", name);
                ("description", description);
                ("profile_image_url", profilePicture);
                ("public_metrics",
                 VDict [("followers_count", followers);
                        ("following_count", following);
                        ("tweet_count", statusesCount);
                        ("listed_count", VInt 0)])]).

(** The body of the [try] of [get_user_by_handle] once the reply is there:
    [None] when the reply has no ['data'], or data without ['id'] or
    ['userName']. *)
Definition read_user_info (response : value) : outcome (option value) :=
  has_data <~ contains_key "data" response ;;
  if has_data then
    data <~ getitem response "data" ;;
    if truthy data then
      id <~ get data "id" VNone ;;
      if negb (truthy id) then Value None
      else
        userName <~ get data "userName" VNone ;;
        if negb (truthy userName) then Value None
        else
          user <~ user_of_info data ;;
          Value (Some user)
    else Value None
  else Value None.

(** [get_user_by_handle]: a [TwitterAPIError] of the request is raised
    again; any other exception gives [None]. *)
Definition get_user_by_handle (self : client) (srv : string -> server value)
    (cost_tracker : option CostTracker.tracker) (handle : string)
  : call (option value) :=
  let handle := Str.lstrip_at handle in
  match _make_request self (srv handle) 0 with
  | (trace, Raise e) => (trace, Raise e, cost_tracker)
  | (trace, Ok response) =>
      let cost_tracker := option_map CostTracker.add_user_info_call cost_tracker in
      match read_user_info response with
      | Value found => (trace, Ok found, cost_tracker)
      | Error _ => (trace, Ok None, cost_tracker)
      end
  end.

(** The loop of [search_users] over the users of the reply. *)
Fixpoint search_results (users : list value) : outcome (list value) :=
  match users with
  | [] => Value []
  | user :: rest =>
      protected <~ get user "protected" VNone ;;
      id <~ get user "id" VNone ;;
      if truthy protected || negb (truthy id) then search_results rest
      else
        username <~ get user "username" VNone ;;
        screen_name <~ get user "screen_name" VNone ;;
        name <~ get user "name" VNone ;;
        description <~ get user "description" (VStr "") ;;
        profile_image_url_https <~ get user "profile_image_url_https" (VStr "") ;;
        followers_count <~ get user "followers_count" (VInt 0) ;;
        following_count <~ get user "following_count" (VInt 0) ;;
        statuses_count <~ get user "statuses_count" (VInt 0) ;;
        results <~ search_results rest ;;
        Value (VDict [("id", id);
                      ("username", or_else username screen_name);
                      ("name", name);
                      ("description", description);
                      ("profile_image_url", profile_image_url_https);
                      ("public_metrics",
                       VDict [("followers_count", followers_count);
                              ("following_count", following_count);
                              ("tweet_count", statuses_count);
                              ("listed_count", VInt 0)])]
               :: results)
  end.

(** The body of the [try] of [search_users] once the reply is there. *)
Definition read_search (response : value) (max_results : Z) : outcome (list value) :=
  has_users <~ contains_key "users" response ;;
  if has_users then
    users <~ getitem response "users" ;;
    first <~ slice_to users max_results ;;
    items <~ iterate first ;;
    search_results items
  else Value [].

(** [search_users]: a [TwitterAPIError] of the request is raised again;
    any other exception becomes
    [TwitterAPIError("Failed to search users: ...")]. *)
Definition search_users (self : client) (srv : string -> server value)
    (cost_tracker : option CostTracker.tracker) (query : string) (max_results : Z)
  : call (list value) :=
  match _make_request self (srv query) 0 with
  | (trace, Raise e) => (trace, Raise e, cost_tracker)
  | (trace, Ok response) =>
      let cost_tracker := option_map CostTracker.add_search_call cost_tracker in
      match read_search response max_results with
      | Value results => (trace, Ok results, cost_tracker)
      | Error _ =>
          (trace, Raise (TwitterAPIError (TwFailed "Failed to search users")), cost_tracker)
      end
  end.

(** The two tests of [get_user_tweets] that skip a tweet: a retweet, a
    reply. *)
Definition is_retweet (tweet : value) : outcome bool :=
  type <~ get tweet "type" VNone ;;
  retweeted_tweet <~ get tweet "retweeted_tweet" VNone ;;
  Value (is_str "retweet" type || truthy retweeted_tweet).

Definition is_reply (tweet : value) : outcome bool :=
  isReply <~ get tweet "isReply" VNone ;;
  Value (truthy isReply).

(** The loop of [get_user_tweets] over the tweets of the reply. *)
Fixpoint original_tweets (tweets_raw : list value) : outcome (list value) :=
  match tweets_raw with
  | [] => Value []
  | tweet :: rest =>
      retweet <~ is_retweet tweet ;;
      if retweet then original_tweets rest
      else
        reply <~ is_reply tweet ;;
        if reply then original_tweets rest
        else
          id <~ get tweet "id" VNone ;;
          text <~ get tweet "text" (VStr "") ;;
          createdAt <~ get tweet "createdAt" VNone ;;
          likeCount <~ get tweet "likeCount" (VInt 0) ;;
          retweetCount <~ get tweet "retweetCount" (VInt 0) ;;
          replyCount <~ get tweet "replyCount" (VInt 0) ;;
          quoteCount <~ get tweet "quoteCount" (VInt 0) ;;
          entities <~ get tweet "entities" (VDict []) ;;
          tweets <~ original_tweets rest ;;
          Value (VDict [("id", id);
                        ("text", text);
                        ("created_at", createdAt);
                        ("public_metrics",
                         VDict [("like_count", likeCount);
                                ("retweet_count", retweetCount);
                                ("reply_count", replyCount);
                                ("quote_count", quoteCount)]);
                        ("entities", entities)]
                 :: tweets)
  end.

(** The test [if 'data' in response and 'tweets' in response['data']]. *)
Definition has_tweets (response : value) : outcome bool :=
  has_data <~ contains_key "data" response ;;
  if has_data then
    data <~ getitem response "data" ;;
    contains_key "tweets" data
  else Value false.

(** The body of the [try] of [get_user_tweets] once the reply is there:
    the tracker is charged for the tweets of the reply before they are
    gone through, so it keeps the charge when the loop raises. *)
Definition read_tweets (response : value) (cost_tracker : option CostTracker.tracker)
  : outcome (list value) * option CostTracker.tracker :=
  match has_tweets response with
  | Error e => (Error e, cost_tracker)
  | Value false =>
      (_ <~ dict_keys response ;; Value [], cost_tracker)
  | Value true =>
      match (data <~ getitem response "data" ;; getitem data "tweets") with
      | Error e => (Error e, cost_tracker)
      | Value tweets_raw =>
          let charged :=
            match cost_tracker with
            | Some tracker =>
                n <~ len tweets_raw ;;
                match CostTracker.add_tweets_call tracker n with
                | Some tracker' => Value (Some tracker')
                | None => Error OverflowError
                end
            | None => Value None
            end in
          match charged with
          | Error e => (Error e, cost_tracker)
          | Value cost_tracker' =>
              (items <~ iterate tweets_raw ;; original_tweets items, cost_tracker')
          end
      end
  end.

(** [get_user_tweets]: the request asks for [min(max_results, 100)]
    tweets; a [TwitterAPIError] of the request is raised again; any other
    exception becomes [TwitterAPIError("Failed to fetch tweets: ...")]. *)
Definition get_user_tweets (self : client) (srv : string -> Z -> server value)
    (cost_tracker : option CostTracker.tracker) (handle : string) (max_results : Z)
  : call (list value) :=
  let handle := Str.lstrip_at handle in
  match _make_request self (srv handle (Z.min max_results 100)) 0 with
  | (trace, Raise e) => (trace, Raise e, cost_tracker)
  | (trace, Ok response) =>
      match read_tweets response cost_tracker with
      | (Value tweets, cost_tracker') => (trace, Ok tweets, cost_tracker')
      | (Error _, cost_tracker') =>
          (trace, Raise (TwitterAPIError (TwFailed "Failed to fetch tweets")), cost_tracker')
      end
  end.

(** [validate_account]: [True] unless [get_user_by_handle] raises a
    [TwitterAPIError]; any other exception would go through. *)
Definition validate_account (self : client) (srv : string -> server value)
    (cost_tracker : option CostTracker.tracker) (handle : string) : call bool :=
  match get_user_by_handle self srv cost_tracker handle with
  | (trace, Ok _, cost_tracker') => (trace, Ok true, cost_tracker')
  | (trace, Raise (TwitterAPIError _), cost_tracker') => (trace, Ok false, cost_tracker')
  | (trace, Raise e, cost_tracker') => (trace, Raise e, cost_tracker')
  end.

End TwitterAPIClient.

(** ** [db/models.py], [db/connection.py]: tables and sessions

    A table is the list of its rows in insertion order.  A timestamp is a
    number of microseconds ([datetime] resolution).  A session is created
    with [autoflush=False]: a query reads the rows of the database, never
    the objects added to the session and not yet committed. *)
Module Db.

Definition hours (h : Z) : Z := h * 3600000000.
Definition days (d : Z) : Z := d * 86400000000.

(** Whether the [k]-th round trip to the database of a call (a query, a
    bulk delete or a commit) succeeds; [false] is an exception raised by
    the storage layer.  Building the session itself does not touch the
    database. *)
Definition storage : Type := nat -> bool.
Definition healthy : storage := fun _ => true.

(** [TweetsCache] *)
Record TweetsCache : Type := {
  x_handle : string;
  tweet_data : string;
  fetched_at : Z
}.

(** [PeerPool] *)
Record PeerPool : Type := {
  handle : string;
  pool_key : string;
  niche : string;
  follower_count : Z;
  growth_rate : Z;
  is_valid : bool;
  last_validated : Z;
  times_used : Z
}.

End Db.

(** ** [data/peer_pool_manager.py]: [PeerPoolManager] *)
Module PeerPoolManager.
Import Exn Db.

Record manager : Type := {
  min_pool_size : Z;
  validation_days : Z
}.

(** [__init__(min_pool_size=10, validation_days=7)] *)
Definition init : manager := {| min_pool_size := 10; validation_days := 7 |}.

(** A peer profile as [add_peers_to_pool] reads it: [peer['handle']],
    [peer['basic_metrics']['followers_count']] and
    [peer['growth_velocity']['estimated_30d_growth']]. *)
Record peer : Type := {
  peer_handle : string;
  followers_count : Z;
  estimated_30d_growth : Z
}.

(** The follower range of [generate_pool_key] before rounding: the
    five-way [if]/[elif] on the follower count, each branch
    [int(followers * lo)], [int(followers * hi)]. *)
Definition follower_range (followers : Z) : option (Z * Z) :=
  let scaled (lo hi : float) :=
    match Py.int_mul followers lo, Py.int_mul followers hi with
    | Some min_range, Some max_range => Some (min_range, max_range)
    | _, _ => None
    end in
  if followers <? 500 then scaled 0.3%float 5.0%float
  else if followers <? 1000 then scaled 0.3%float 5.0%float
  else if followers <? 5000 then scaled 0.4%float 3.0%float
  else if followers <? 10000 then scaled 0.5%float 2.5%float
  else scaled 0.5%float 2.0%float.

(** "Round to nice numbers": [(x // 100) * 100] on both bounds. *)
Definition pool_bounds (followers : Z) : option (Z * Z) :=
  match follower_range followers with
  | Some (min_range, max_range) =>
      Some ((min_range / 100) * 100, (max_range / 100) * 100)
  | None => None
  end.

(** [generate_pool_key]: [f"{niche}_{min_range}-{max_range}"]. *)
Definition generate_pool_key (niche : string) (followers : Z) : option string :=
  match pool_bounds followers with
  | Some (min_range, max_range) =>
      Some (niche ++ "_" ++ Py.str_of_int min_range ++ "-" ++ Py.str_of_int max_range)%string
  | None => None
  end.

(** [PeerPool.pool_key == pool_key, PeerPool.handle == handle] *)
Definition same_entry (key name : string) (row : PeerPool) : bool :=
  String.eqb (pool_key row) key && String.eqb (handle row) name.

(** [order_by(times_used.desc(), last_validated.desc())]: [a] comes
    strictly before [b]. *)
Definition ranks_before (a b : PeerPool) : bool :=
  (times_used b <? times_used a)
  || ((times_used a =? times_used b) && (last_validated b <? last_validated a)).

Fixpoint insert_ranked (row : PeerPool) (sorted : list PeerPool) : list PeerPool :=
  match sorted with
  | [] => [row]
  | x :: rest => if ranks_before x row then x :: insert_ranked row rest else row :: sorted
  end.

(** The rows in ranking order; rows that rank equal keep their order in
    the table (the database may return them in any order). *)
Definition ranked (rows : list PeerPool) : list PeerPool :=
  fold_right insert_ranked [] rows.

(** [get_peers_from_pool]: the handles of the best [count] rows of the
    user's pool; the empty list is the pool MISS, and also what the
    [except] branch returns. *)
Definition get_peers_from_pool (self : manager) (st : storage)
    (table : list PeerPool) (now : Z)
    (niche : string) (followers : Z) (count : nat) (require_valid : bool)
  : result (list string) :=
  match generate_pool_key niche followers with
  | None => Raise OverflowError
  | Some key =>
      if st 0%nat then
        let in_pool := filter (fun row => String.eqb (pool_key row) key) table in
        let selected :=
          if require_valid then
            let validation_threshold := now - days (validation_days self) in
            filter (fun row => is_valid row && (validation_threshold <? last_validated row))
                   in_pool
          else in_pool in
        let peers := firstn (count * 2) (ranked selected) in
        Ok (map handle (firstn count peers))
      else Ok []
  end.

(** The update path of [add_peers_to_pool] on the first row that the
    query finds. *)
Fixpoint refresh_first (key name : string) (followers growth now : Z)
    (rows : list PeerPool) : list PeerPool :=
  match rows with
  | [] => []
  | row :: rest =>
      if same_entry key name row then
        {| handle := handle row; pool_key := pool_key row; niche := niche row;
           follower_count := followers; growth_rate := growth;
           is_valid := true; last_validated := now;
           times_used := times_used row |} :: rest
      else row :: refresh_first key name followers growth now rest
  end.

(** The loop of [add_peers_to_pool] from its [i]-th peer on: [rows] are
    the rows of the database as the session sees them (updated in place),
    [pending] the new rows added to the session, [added_count] their
    number.  [None] is an exception raised by a query. *)
Fixpoint upsert_loop (st : storage) (i : nat) (key niche_ : string) (now : Z)
    (peers : list peer) (rows pending : list PeerPool) (added_count : nat)
  : option (list PeerPool * list PeerPool * nat) :=
  match peers with
  | [] => Some (rows, pending, added_count)
  | p :: rest =>
      if st i then
        if existsb (same_entry key (peer_handle p)) rows then
          upsert_loop st (S i) key niche_ now rest
            (refresh_first key (peer_handle p) (followers_count p)
                           (estimated_30d_growth p) now rows)
            pending added_count
        else
          let new_peer :=
            {| handle := peer_handle p; pool_key := key; niche := niche_;
               follower_count := followers_count p;
               growth_rate := estimated_30d_growth p;
               is_valid := true; last_validated := now; times_used := 0 |} in
          upsert_loop st (S i) key niche_ now rest rows (pending ++ [new_peer])
                      (S added_count)
      else None
  end.

(** The pool key of [add_peers_to_pool]: the one given unless it is [None]
    or empty, else the key of the peers' mean follower count. *)
Definition pool_key_for (peers : list peer) (niche_ : string) (key : option string)
  : option string :=
  match key with
  | Some (String c k) => Some (String c k)
  | _ =>
      match Py.int_truediv (fold_right Z.add 0 (map followers_count peers))
                           (Z.of_nat (List.length peers)) with
      | Some avg_followers => generate_pool_key niche_ avg_followers
      | None => None
      end
  end.

(** [add_peers_to_pool]: the number of rows inserted and the table after
    the commit; after an exception the session is rolled back and the
    result is 0. *)
Definition add_peers_to_pool (self : manager) (st : storage)
    (table : list PeerPool) (now : Z)
    (peers : list peer) (niche_ : string) (key : option string)
  : result (nat * list PeerPool) :=
  match peers with
  | [] => Ok (0%nat, table)
  | _ =>
      match pool_key_for peers niche_ key with
      | None => Raise OverflowError
      | Some key =>
          match upsert_loop st 0 key niche_ now peers table [] 0 with
          | Some (rows, pending, added_count) =>
              if st (List.length peers)
              then Ok (added_count, rows ++ pending)
              else Ok (0%nat, table)
          | None => Ok (0%nat, table)
          end
      end
  end.

(** [peer.times_used += 1] on the first row that the query finds. *)
Fixpoint bump_first (key name : string) (rows : list PeerPool) : list PeerPool :=
  match rows with
  | [] => []
  | row :: rest =>
      if same_entry key name row then
        {| handle := handle row; pool_key := pool_key row; niche := niche row;
           follower_count := follower_count row; growth_rate := growth_rate row;
           is_valid := is_valid row; last_validated := last_validated row;
           times_used := times_used row + 1 |} :: rest
      else row :: bump_first key name rest
  end.

Fixpoint usage_loop (st : storage) (i : nat) (key : string)
    (handles : list string) (rows : list PeerPool) : option (list PeerPool) :=
  match handles with
  | [] => Some rows
  | name :: rest =>
      if st i then usage_loop st (S i) key rest (bump_first key name rows) else None
  end.

(** [increment_usage] *)
Definition increment_usage (self : manager) (st : storage)
    (table : list PeerPool) (handles : list string) (key : string)
  : list PeerPool :=
  match handles with
  | [] => table
  | _ =>
      match usage_loop st 0 key handles table with
      | Some rows => if st (List.length handles) then rows else table
      | None => table
      end
  end.

(** [peer.is_valid = False] on the first row that the query finds. *)
Fixpoint invalidate_first (key name : string) (rows : list PeerPool) : list PeerPool :=
  match rows with
  | [] => []
  | row :: rest =>
      if same_entry key name row then
        {| handle := handle row; pool_key := pool_key row; niche := niche row;
           follower_count := follower_count row; growth_rate := growth_rate row;
           is_valid := false; last_validated := last_validated row;
           times_used := times_used row |} :: rest
      else row :: invalidate_first key name rest
  end.

(** [mark_invalid] *)
Definition mark_invalid (self : manager) (st : storage)
    (table : list PeerPool) (name key : string) : list PeerPool :=
  if st 0%nat then
    if existsb (same_entry key name) table then
      if st 1%nat then invalidate_first key name table else table
    else table
  else table.

(** [cleanup_stale_peers]: the rows last validated more than [days_old]
    days ago are deleted. *)
Definition cleanup_stale_peers (self : manager) (st : storage)
    (table : list PeerPool) (now : Z) (days_old : Z) : nat * list PeerPool :=
  let threshold := now - days days_old in
  if st 0%nat && st 1%nat
  then (List.length (filter (fun row => last_validated row <? threshold) table),
        filter (fun row => negb (last_validated row <? threshold)) table)
  else (0%nat, table).

(** [cleanup_invalid_peers]: the rows marked invalid are deleted. *)
Definition cleanup_invalid_peers (self : manager) (st : storage)
    (table : list PeerPool) : nat * list PeerPool :=
  if st 0%nat && st 1%nat
  then (List.length (filter (fun row => negb (is_valid row)) table),
        filter is_valid table)
  else (0%nat, table).

(** [validate_peer]: whether [get_user_by_handle] of the client returned
    a user; [False] on any exception. *)
Definition validate_peer (self : manager) (twitter_client : TwitterAPIClient.client)
    (srv : string -> server PyVal.value) (cost_tracker : option CostTracker.tracker)
    (name : string) : list event * bool * option CostTracker.tracker :=
  match TwitterAPIClient.get_user_by_handle twitter_client srv cost_tracker name with
  | (trace, Ok (Some _), cost_tracker') => (trace, true, cost_tracker')
  | (trace, Ok None, cost_tracker') => (trace, false, cost_tracker')
  | (trace, Raise _, cost_tracker') => (trace, false, cost_tracker')
  end.

Fixpoint insert_by_usage (row : PeerPool) (sorted : list PeerPool) : list PeerPool :=
  match sorted with
  | [] => [row]
  | x :: rest =>
      if times_used x <? times_used row then row :: sorted
      else x :: insert_by_usage row rest
  end.

(** [order_by(PeerPool.times_used.desc())]; rows used equally often keep
    their order in the table (the database may return them in any
    order). *)
Definition by_usage (rows : list PeerPool) : list PeerPool :=
  fold_right insert_by_usage [] rows.

(** An entry of ['top_peers'] in the dict of [get_pool_stats]. *)
Record top_peer : Type := {
  tp_handle : string;
  tp_times_used : Z;
  tp_pool_key : string
}.

(** The dict of [get_pool_stats]; ['niche_breakdown'] is a key of the dict
    only when the grouping query returned rows. *)
Record pool_stats : Type := {
  total_peers : Z;
  valid_peers : Z;
  stale_peers : Z;
  invalid_peers : Z;
  stats_pool_key : string;
  stats_validation_days : Z;
  top_peers : list top_peer;
  niche_breakdown : option (list (string * Z))
}.

(** [session.query(PeerPool.niche, func.count(PeerPool.id)).group_by(PeerPool.niche)]:
    each niche of the table with the number of its rows. *)
Definition count_by_niche (table : list PeerPool) : list (string * Z) :=
  map (fun n => (n, Z.of_nat (List.length
                                (filter (fun row => String.eqb (niche row) n) table))))
      (nodup string_dec (map niche table)).

(** [get_pool_stats]: the counts of one pool, or of all pools when
    [pool_key] is [None] or empty; six queries (five for one pool);
    [None] is the empty dict that the [except] branch returns. *)
Definition get_pool_stats (self : manager) (st : storage)
    (table : list PeerPool) (now : Z) (key : option string) : option pool_stats :=
  let given := match key with
               | Some (String _ _) => true
               | _ => false
               end in
  let query :=
    match key with
    | Some (String c k) => filter (fun row => String.eqb (pool_key row) (String c k)) table
    | _ => table
    end in
  let count (rows : list PeerPool) := Z.of_nat (List.length rows) in
  let validation_threshold := now - days (validation_days self) in
  if st 0%nat && st 1%nat && st 2%nat && st 3%nat && st 4%nat
     && (given || st 5%nat)
  then
    let pool_breakdown := if given then [] else count_by_niche table in
    Some {| total_peers := count query;
            valid_peers :=
              count (filter (fun row => is_valid row
                                        && (validation_threshold <? last_validated row))
                            query);
            stale_peers :=
              count (filter (fun row => last_validated row <? validation_threshold) query);
            invalid_peers := count (filter (fun row => negb (is_valid row)) query);
            stats_pool_key := match key with
                              | Some (String c k) => String c k
                              | _ => "ALL"
                              end;
            stats_validation_days := validation_days self;
            top_peers :=
              map (fun p => {| tp_handle := handle p; tp_times_used := times_used p;
                               tp_pool_key := pool_key p |})
                  (firstn 5 (by_usage (filter is_valid query)));
            niche_breakdown := match pool_breakdown with
                               | [] => None
                               | _ => Some pool_breakdown
                               end |}
  else None.

End PeerPoolManager.

(** ** [data/cache_manager.py]: [CacheManager]

    Every method takes the storage behaviour, the table [tweets_cache] and
    the clock reading of its [datetime.utcnow()], and returns its result
    with the table it leaves. *)
Module CacheManager.
Import Db.

Record manager : Type := { ttl_hours : Z }.

(** [__init__(ttl_hours=6)] *)
Definition init : manager := {| ttl_hours := 6 |}.

(** [handle.lstrip('@').lower()] *)
Definition normalize (handle : string) : string := Str.lower (Str.lstrip_at handle).

(** The rows a query [filter(x_handle == handle, fetched_at > threshold)]
    selects. *)
Definition fresh_rows (table : list TweetsCache) (handle : string) (threshold : Z)
  : list TweetsCache :=
  filter (fun row => String.eqb (x_handle row) handle && (threshold <? fetched_at row))
         table.

(** [order_by(fetched_at.desc()).first()]: a row with the greatest
    [fetched_at]; among equal timestamps the database may return any, here
    the one inserted first. *)
Fixpoint newest (rows : list TweetsCache) : option TweetsCache :=
  match rows with
  | [] => None
  | row :: rest =>
      match newest rest with
      | Some other => if fetched_at row <? fetched_at other then Some other else Some row
      | None => Some row
      end
  end.

(** [json.loads(cache_entry.tweet_data)] as the caller of
    [get_cached_tweets] receives it: [None] when the text does not parse
    (the exception is caught), and also when it is the JSON [null], which
    Python reads as [None]. *)
Definition decoded (tweet_data : string) : option Json.json :=
  match Json.loads tweet_data with
  | Some Json.JNull => None
  | other => other
  end.

(** [get_cached_tweets]: [None] is the MISS.  An exception of the query or
    of [json.loads] is caught and [None] returned. *)
Definition get_cached_tweets (self : manager) (st : storage)
    (table : list TweetsCache) (now : Z) (handle : string)
  : option Json.json * list TweetsCache :=
  let handle := normalize handle in
  let expiration_time := now - hours (ttl_hours self) in
  if st 0%nat then
    match newest (fresh_rows table handle expiration_time) with
    | Some cache_entry => (decoded (tweet_data cache_entry), table)
    | None => (None, table)
    end
  else (None, table).


(** [invalidate_cache]: the rows of the handle are deleted. *)
Definition invalidate_cache (self : manager) (st : storage)
    (table : list TweetsCache) (handle : string)
  : bool * list TweetsCache :=
  let handle := normalize handle in
  if st 0%nat && st 1%nat
  then (true, filter (fun row => negb (String.eqb (x_handle row) handle)) table)
  else (false, table).

(** [cleanup_old_cache]: the rows older than [days_old] days are deleted;
    the result is their number. *)
Definition cleanup_old_cache (self : manager) (st : storage)
    (table : list TweetsCache) (now : Z) (days_old : Z)
  : nat * list TweetsCache :=
  let threshold := now - days days_old in
  if st 0%nat && st 1%nat
  then (List.length (filter (fun row => fetched_at row <? threshold) table),
        filter (fun row => negb (fetched_at row <? threshold)) table)
  else (0%nat, table).

(** The dict of [get_cache_stats]. *)
Record cache_stats : Type := {
  total_entries : Z;
  fresh_entries : Z;
  stale_entries : Z;
  stats_ttl_hours : Z
}.

(** [get_cache_stats]: two counting queries; [None] is the empty dict
    that the [except] branch returns. *)
Definition get_cache_stats (self : manager) (st : storage)
    (table : list TweetsCache) (now : Z) : option cache_stats :=
  if st 0%nat then
    let total_entries := Z.of_nat (List.length table) in
    let expiration_time := now - hours (ttl_hours self) in
    if st 1%nat then
      let fresh_entries :=
        Z.of_nat (List.length
                    (filter (fun row => expiration_time <? fetched_at row) table)) in
      Some {| total_entries := total_entries;
              fresh_entries := fresh_entries;
              stale_entries := total_entries - fresh_entries;
              stats_ttl_hours := ttl_hours self |}
    else None
  else None.

End CacheManager.

(** ** [ai/peer_matcher.py]: [PeerMatcher] *)
Module PeerMatcher.
Import Exn.

(** A peer profile as [_format_peers] builds it, with the fields that the
    callers read. *)
Record peer : Type := {
  handle : string;
  followers_count : Z;
  grok_profile : Json.json;
  match_score : Z;
  match_reason : string;
  growth_edge : string
}.

Fixpoint insert_by_score (p : peer) (sorted : list peer) : list peer :=
  match sorted with
  | [] => [p]
  | x :: rest =>
      if match_score x <=? match_score p then p :: sorted
      else x :: insert_by_score p rest
  end.

(** [formatted.sort(key=match_score, reverse=True)]: descending, and
    stable as Python's sort is. *)
Definition sort_by_score (peers : list peer) : list peer :=
  fold_right insert_by_score [] peers.

(** [find_peers(user_profile, count, save_to_db=False)]: a single call of
    the language model ([_get_fully_profiled_peers], given here with its
    answer already read into peer profiles), an exception when it names no
    peer, then the [count] best by match score.  Nothing is read from or
    written to the database. *)
Definition find_peers {profile : Type}
    (_get_fully_profiled_peers : profile -> nat -> result (list peer))
    (user_profile : profile) (count : nat) : result (list peer) :=
  match _get_fully_profiled_peers user_profile count with
  | Raise e => Raise e
  | Ok [] => Raise (PlainException "Grok returned no peer suggestions")
  | Ok peers => Ok (firstn count (sort_by_score peers))
  end.

Import PyVal.

(** The keyword table of [_extract_niche], in the order of its dict. *)
Definition niche_keywords : list (string * list string) :=
  [("tech", ["technology"; "software"; "developer"; "programming"]);
   ("business", ["business"; "entrepreneur"; "startup"; "founder"]);
   ("marketing", ["marketing"; "content"; "seo"]);
   ("finance", ["finance"; "investing"; "trading"; "stocks"; "crypto"])].

(** The loop over a keyword table: the first niche one of whose keywords
    occurs in the text, ['other'] when there is none. *)
Definition first_niche (table : list (string * list string)) (text : string) : string :=
  match find (fun entry => existsb (fun kw => contains kw text) (snd entry)) table with
  | Some (niche, _) => niche
  | None => "other"
  end.

(** [_extract_niche]; [lower] is a method of [str]. *)
Definition _extract_niche (primary_niche : value) : outcome string :=
  match primary_niche with
  | VStr s => Value (first_niche niche_keywords (Str.lower s))
  | _ => Error AttributeError
  end.

(** [v.lstrip('@')], a method of [str]. *)
Definition lstrip_at (v : value) : outcome value :=
  match v with
  | VStr s => Value (VStr (Str.lstrip_at s))
  | _ => Error AttributeError
  end.

(** The profile that the loop of [_format_peers] builds for one peer of
    the model's answer; [str] is Python's [str()], which renders the
    growth figure inside ['growth_advantage']. *)
Definition format_peer (str : value -> string) (peer : value) : outcome value :=
  handle <~ get peer "handle" (VStr "") ;;
  stripped <~ lstrip_at handle ;;
  followers <~ get peer "followers" (VInt 0) ;;
  primary_niche <~ get peer "primary_niche" (VStr "") ;;
  secondary_topics <~ get peer "secondary_topics" (VList []) ;;
  content_style <~ get peer "content_style" (VStr "") ;;
  average_likes_per_post <~ get peer "average_likes_per_post" (VInt 0) ;;
  average_views_per_post <~ get peer "average_views_per_post" (VInt 0) ;;
  growth_trend <~ get peer "growth_trend_last_30_days" (VStr "unknown") ;;
  monthly_growth <~ get peer "estimated_monthly_growth_percent" (VInt 0) ;;
  posting_frequency <~ get peer "posting_frequency_per_week" (VInt 0) ;;
  visual_content_ratio <~ get peer "visual_content_ratio" (VStr "medium") ;;
  language_mix <~ get peer "language_mix" (VStr "English 100%") ;;
  strengths <~ get peer "strengths" (VList []) ;;
  weaknesses <~ get peer "weaknesses_for_growth" (VList []) ;;
  niche <~ _extract_niche primary_niche ;;
  match_score <~ get peer "match_score" (VInt 0) ;;
  match_reason <~ get peer "match_reason" (VStr "") ;;
  growth_edge <~ get peer "growth_edge" (VStr "") ;;
  Value (VDict
    [("handle", stripped);
     ("user_id", VNone);
     ("name", handle);
     ("bio", VStr "");
     ("profile_image", VStr "");
     ("basic_metrics",
      VDict [("followers_count", followers);
             ("following_count", VInt 0);
             ("tweet_count", VInt 0);
             ("listed_count", VInt 0);
             ("follower_following_ratio", VInt 0)]);
     ("grok_profile",
      VDict [("handle", handle);
             ("followers", followers);
             ("primary_niche", primary_niche);
             ("secondary_topics", secondary_topics);
             ("content_style", content_style);
             ("average_likes_per_post", average_likes_per_post);
             ("average_views_per_post", average_views_per_post);
             ("growth_trend_last_30_days", growth_trend);
             ("estimated_monthly_follower_growth_percent", monthly_growth);
             ("posting_frequency_per_week", posting_frequency);
             ("visual_content_ratio", visual_content_ratio);
             ("language_mix", language_mix);
             ("strengths", strengths);
             ("weaknesses_for_growth", weaknesses)]);
     ("niche", VStr niche);
     ("content_style", VDict []);
     ("posting_rhythm", VDict [("posts_per_week", posting_frequency)]);
     ("engagement_baseline", VDict [("avg_likes", average_likes_per_post)]);
     ("growth_velocity", VDict [("estimated_30d_growth", VInt 0)]);
     ("match_score", match_score);
     ("match_reason", match_reason);
     ("growth_edge", growth_edge);
     ("growth_advantage", VStr ("+" ++ str monthly_growth ++ "% growth/month")%string)]).

End PeerMatcher.

(** ** [services/analysis_service.py]: [AnalysisService] *)
Module AnalysisService.
Import Exn Db.

(** [User] *)
Record User : Type := {
  id : nat;
  x_handle : string;
  x_user_id : string
}.

(** [UserProfile] *)
Record UserProfile : Type := {
  up_id : nat;
  up_user_id : nat;
  up_followers_count : Z;
  up_following_count : Z;
  up_tweet_count : Z;
  up_grok_profile : Json.json;
  up_niche : string;
  up_content_style : Json.json;
  up_avg_engagement_rate : Json.json;
  up_growth_30d : Z;
  analyzed_at : Z;
  up_expires_at : Z
}.

(** [PeerMatch] *)
Record PeerMatch : Type := {
  pm_user_id : nat;
  peer_handle : string;
  peer_followers : Z;
  peer_profile : Json.json;
  pm_match_score : Z;
  pm_match_reason : string;
  pm_growth_edge : string;
  pm_created_at : Z;
  pm_expires_at : Z
}.

(** [Analysis] *)
Record Analysis : Type := {
  a_id : nat;
  a_user_id : nat;
  user_profile_id : option nat;
  growth_score : Json.json;
  insights : Json.json;
  comparison_data : Json.json;
  a_created_at : Z
}.

(** The database: its tables, and the next fresh primary key. *)
Record database : Type := {
  users : list User;
  user_profiles : list UserProfile;
  peer_matches : list PeerMatch;
  analyses : list Analysis;
  peer_pools : list PeerPool;
  next_id : nat
}.

(** What [twitter.get_user_by_handle] returns. *)
Record user_data : Type := {
  ud_username : string;
  ud_followers_count : Z;
  ud_following_count : Z;
  ud_tweet_count : Z
}.

(** The profile dict handed from step to step. *)
Record profile : Type := {
  handle : string;
  followers_count : Z;
  following_count : Z;
  tweet_count : Z;
  grok_profile : Json.json;
  niche : string;
  content_style : Json.json;
  engagement_rate : Json.json;
  estimated_30d_growth : Z;
  db_id : option nat
}.

(** An element of the peer list handed to the insight generator: the full
    peer profile on the fresh path, the stored [peer_profile] JSON on the
    cached path. *)
Inductive peer_view : Type :=
| FreshPeer (p : PeerMatcher.peer)
| CachedPeer (peer_profile : Json.json).

(** The calls that leave the process. *)
Inductive call : Type :=
| CallUserInfo (handle : string)           (* twitter.get_user_by_handle *)
| CallUserTweets (handle : string) (max_results : Z)
| CallAnalyzeUser (handle : string)        (* profiler.analyze_user *)
| CallFindPeers (handle : string) (count : nat)   (* matcher.find_peers *)
| CallGenerateInsights (handle : string).  (* insights.generate_insights *)

(** The collaborators of the service, each answering with a value or an
    exception. *)
Record services : Type := {
  get_user_by_handle : string -> result (option user_data);
  get_user_tweets : string -> Z -> result (list Json.json);
  analyze_user : user_data -> option (list Json.json) -> result profile;
  _get_fully_profiled_peers : profile -> nat -> result (list PeerMatcher.peer);
  generate_insights : profile -> list peer_view -> Z -> result Json.json
}.

(** The state a run works on: the database and the log of external calls. *)
Record state : Type := {
  db : database;
  calls : list call
}.

(** A step of the run: a value or an exception, and the state it leaves. *)
Definition step (A : Type) : Type := state -> result A * state.

Definition ret {A : Type} (a : A) : step A := fun st => (Ok a, st).

Definition raise {A : Type} (e : exn) : step A := fun st => (Raise e, st).

Definition bind {A B : Type} (m : step A) (k : A -> step B) : step B :=
  fun st =>
    match m st with
    | (Ok a, st') => k a st'
    | (Raise e, st') => (Raise e, st')
    end.

Notation "x <- m ;; k" := (bind m (fun x => k))
  (at level 61, m at next level, right associativity).

(** An external call: it is logged, then answers. *)
Definition external {A : Type} (c : call) (answer : result A) : step A :=
  fun st => (answer, {| db := db st; calls := calls st ++ [c] |}).

(** A committed change of the database.  The database is taken to
    answer here; what a failing storage does to the cache and the pool is
    modelled in [CacheManager] and [PeerPoolManager]. *)
Definition commit (change : database -> database) : step unit :=
  fun st => (Ok tt, {| db := change (db st); calls := calls st |}).

Definition read {A : Type} (query : database -> A) : step A :=
  fun st => (Ok (query (db st)), st).

(** [UserProfiler._should_fetch_tweets] *)
Definition _should_fetch_tweets (followers_count : Z) : bool :=
  followers_count <? 100000.

(** [order_by(UserProfile.analyzed_at.desc()).first()] *)
Fixpoint latest_profile (rows : list UserProfile) : option UserProfile :=
  match rows with
  | [] => None
  | row :: rest =>
      match latest_profile rest with
      | Some other => if analyzed_at row <? analyzed_at other then Some other else Some row
      | None => Some row
      end
  end.

(** [cached.grok_profile or {}] *)
Definition or_empty_dict (v : Json.json) : Json.json :=
  match v with
  | Json.JNull | Json.JObject [] => Json.JObject []
  | _ => v
  end.

(** [cached.avg_engagement_rate or 0] *)
Definition or_zero (v : Json.json) : Json.json :=
  match v with
  | Json.JNull => Json.JInt 0
  | _ => v
  end.

(** The cached profile that [_get_or_create_user_profile] may use: none
    under [force_refresh], else the latest one that has not expired. *)
Definition cached_profile (d : database) (user : User) (force_refresh : bool) (now : Z)
  : option UserProfile :=
  if force_refresh then None
  else latest_profile
         (filter (fun row => (up_user_id row =? id user)%nat && (now <? up_expires_at row))
                 (user_profiles d)).

(** [_get_or_create_user_profile] *)
Definition _get_or_create_user_profile (svc : services) (user : User)
    (force_refresh : bool) (now : Z) : step profile :=
  cached <- read (fun d => cached_profile d user force_refresh now) ;;
  match cached with
  | Some cached =>
      ret {| handle := x_handle user;
             followers_count := up_followers_count cached;
             following_count := up_following_count cached;
             tweet_count := up_tweet_count cached;
             grok_profile := or_empty_dict (up_grok_profile cached);
             niche := match up_niche cached with
                      | EmptyString => "other"
                      | n => n
                      end;
             content_style := or_empty_dict (up_content_style cached);
             engagement_rate := or_zero (up_avg_engagement_rate cached);
             estimated_30d_growth := up_growth_30d cached;
             db_id := Some (up_id cached) |}
  | None =>
      found <- external (CallUserInfo (x_handle user))
                        (get_user_by_handle svc (x_handle user)) ;;
      match found with
      | None => raise (AttributeError "'NoneType' object has no attribute 'get'")
      | Some data =>
          tweets <- (if _should_fetch_tweets (ud_followers_count data)
                     then fetched <- external (CallUserTweets (x_handle user) 40)
                                              (get_user_tweets svc (x_handle user) 40) ;;
                          ret (Some fetched)
                     else ret None) ;;
          profile_data <- external (CallAnalyzeUser (x_handle user))
                                   (analyze_user svc data tweets) ;;
          new_id <- read next_id ;;
          _ <- commit (fun d =>
                 {| users := users d;
                    user_profiles := user_profiles d ++
                      [{| up_id := new_id; up_user_id := id user;
                          up_followers_count := followers_count profile_data;
                          up_following_count := following_count profile_data;
                          up_tweet_count := tweet_count profile_data;
                          up_grok_profile := grok_profile profile_data;
                          up_niche := niche profile_data;
                          up_content_style := content_style profile_data;
                          up_avg_engagement_rate := engagement_rate profile_data;
                          up_growth_30d := estimated_30d_growth profile_data;
                          analyzed_at := now;
                          up_expires_at := now + hours 6 |}];
                    peer_matches := peer_matches d;
                    analyses := analyses d;
                    peer_pools := peer_pools d;
                    next_id := S new_id |}) ;;
          ret {| handle := handle profile_data;
                 followers_count := followers_count profile_data;
                 following_count := following_count profile_data;
                 tweet_count := tweet_count profile_data;
                 grok_profile := grok_profile profile_data;
                 niche := niche profile_data;
                 content_style := content_style profile_data;
                 engagement_rate := engagement_rate profile_data;
                 estimated_30d_growth := estimated_30d_growth profile_data;
                 db_id := Some new_id |}
      end
  end.

Fixpoint insert_by_created (row : PeerMatch) (sorted : list PeerMatch) : list PeerMatch :=
  match sorted with
  | [] => [row]
  | x :: rest =>
      if pm_created_at x <=? pm_created_at row then row :: sorted
      else x :: insert_by_created row rest
  end.

(** The cached peer assignments of a user that have not expired:
    [order_by(PeerMatch.created_at.desc()).limit(5).all()]; rows created
    at the same instant keep their order in the table. *)
Definition cached_peers (d : database) (user : User) (now : Z) : list PeerMatch :=
  firstn 5 (fold_right insert_by_created []
              (filter (fun row => (pm_user_id row =? id user)%nat && (now <? pm_expires_at row))
                      (peer_matches d))).

(** The test of [_get_or_create_peers] for using the cache:
    [not force_refresh] and [cached and len(cached) >= 5]. *)
Definition peer_cache_hit (d : database) (user : User) (force_refresh : bool) (now : Z)
  : bool :=
  negb force_refresh && (5 <=? List.length (cached_peers d user now))%nat.

(** The row saved for a peer, with its 24 hour expiry. *)
Definition peer_match_row (user : User) (now : Z) (p : PeerMatcher.peer) : PeerMatch :=
  {| pm_user_id := id user;
     peer_handle := PeerMatcher.handle p;
     peer_followers := PeerMatcher.followers_count p;
     peer_profile := PeerMatcher.grok_profile p;
     pm_match_score := PeerMatcher.match_score p;
     pm_match_reason := PeerMatcher.match_reason p;
     pm_growth_edge := PeerMatcher.growth_edge p;
     pm_created_at := now;
     pm_expires_at := now + hours 24 |}.

(** [_get_or_create_peers] *)
Definition _get_or_create_peers (svc : services) (user : User)
    (user_profile_data : profile) (force_refresh : bool) (now : Z)
  : step (list peer_view) :=
  hit <- read (fun d => peer_cache_hit d user force_refresh now) ;;
  if hit then
    cached <- read (fun d => cached_peers d user now) ;;
    ret (map (fun row => CachedPeer (peer_profile row)) cached)
  else
    peer_profiles <- external (CallFindPeers (handle user_profile_data) 5)
                       (PeerMatcher.find_peers (_get_fully_profiled_peers svc)
                                               user_profile_data 5) ;;
    _ <- commit (fun d =>
           {| users := users d;
              user_profiles := user_profiles d;
              peer_matches :=
                filter (fun row => negb (pm_user_id row =? id user)%nat) (peer_matches d)
                ++ map (peer_match_row user now) peer_profiles;
              analyses := analyses d;
              peer_pools := peer_pools d;
              next_id := next_id d |}) ;;
    ret (map FreshPeer peer_profiles).

(** [d.get(key, default)] on a JSON object. *)
Definition dict_get (key : string) (default : Json.json) (d : Json.json) : Json.json :=
  match d with
  | Json.JObject members =>
      match find (fun kv => String.eqb (fst kv) key) (rev members) with
      | Some (_, v) => v
      | None => default
      end
  | _ => default
  end.

(** What [run_full_analysis] returns. *)
Record report : Type := {
  r_user_profile : profile;
  r_peers : list peer_view;
  r_analysis : Json.json;
  r_analysis_id : nat;
  r_created_at : Z
}.

(** [run_full_analysis]: the user, the profile, the peers, the insights,
    then the [Analysis] row; the [try]/[finally] has no [except], so an
    exception of any step ends the run. *)
Definition run_full_analysis (svc : services) (user_id : nat)
    (force_refresh_profile force_refresh_peers : bool) (now : Z) : step report :=
  found <- read (fun d => find (fun u => (id u =? user_id)%nat) (users d)) ;;
  match found with
  | None => raise (ValueError "User not found")
  | Some user =>
      user_profile_data <- _get_or_create_user_profile svc user force_refresh_profile now ;;
      peer_profiles <- _get_or_create_peers svc user user_profile_data
                                            force_refresh_peers now ;;
      analysis_data <- external (CallGenerateInsights (handle user_profile_data))
                         (generate_insights svc user_profile_data peer_profiles 3) ;;
      new_id <- read next_id ;;
      _ <- commit (fun d =>
             {| users := users d;
                user_profiles := user_profiles d;
                peer_matches := peer_matches d;
                analyses := analyses d ++
                  [{| a_id := new_id; a_user_id := user_id;
                      user_profile_id := db_id user_profile_data;
                      growth_score := dict_get "growth_score" (Json.JInt 0) analysis_data;
                      insights := dict_get "insights" (Json.JArray []) analysis_data;
                      comparison_data :=
                        dict_get "comparison_data" (Json.JObject []) analysis_data;
                      a_created_at := now |}];
                peer_pools := peer_pools d;
                next_id := S new_id |}) ;;
      ret {| r_user_profile := user_profile_data;
             r_peers := peer_profiles;
             r_analysis := analysis_data;
             r_analysis_id := new_id;
             r_created_at := now |}
  end.

End AnalysisService.

(** ** [data/user_profiler.py]: [UserProfiler] *)
Module UserProfiler.
Import PyVal.

(** The keyword table of [_extract_primary_niche], in the order of its
    dict. *)
Definition niche_keywords : list (string * list string) :=
  [("tech", ["technology"; "software"; "developer"; "programming"; "ai";
             "machine learning"]);
   ("business", ["business"; "entrepreneur"; "startup"; "founder"; "saas"]);
   ("marketing", ["marketing"; "content"; "seo"; "branding"]);
   ("finance", ["finance"; "investing"; "trading"; "stocks"; "crypto"]);
   ("health", ["health"; "fitness"; "wellness"; "nutrition"])].


End UserProfiler.

(** ** [ai/insights_generator.py]: [InsightsGenerator] *)
Module InsightsGenerator.
Import PyVal.

(** The summary that the loop of [_generate_deep_analysis] builds for one
    element of [peer_profiles]. *)
Definition peer_summary (peer : value) : outcome value :=
  peer_grok <~ get peer "grok_profile" (VDict []) ;;
  handle <~ get peer "handle" (VStr "") ;;
  basic_metrics <~ get peer "basic_metrics" (VDict []) ;;
  followers <~ get basic_metrics "followers_count" (VInt 0) ;;
  niche <~ get peer_grok "primary_niche" (VStr "") ;;
  topics <~ get peer_grok "secondary_topics" (VList []) ;;
  style <~ get peer_grok "content_style" (VStr "") ;;
  posts_per_week <~ get peer_grok "posting_frequency_per_week" (VInt 0) ;;
  likes_per_post <~ get peer_grok "average_likes_per_post" (VInt 0) ;;
  views_per_post <~ get peer_grok "average_views_per_post" (VInt 0) ;;
  growth_rate <~ get peer_grok "estimated_monthly_follower_growth_percent" (VInt 0) ;;
  visual_ratio <~ get peer_grok "visual_content_ratio" (VStr "medium") ;;
  hashtags <~ get peer_grok "key_hashtags" (VList []) ;;
  strengths <~ get peer_grok "strengths" (VList []) ;;
  weaknesses <~ get peer_grok "weaknesses_for_growth" (VList []) ;;
  Value (VDict [("handle", handle);
                ("followers", followers);
                ("niche", niche);
                ("topics", topics);
                ("style", style);
                ("posts_per_week", posts_per_week);
                ("likes_per_post", likes_per_post);
                ("views_per_post", views_per_post);
                ("growth_rate", growth_rate);
                ("visual_ratio", visual_ratio);
                ("hashtags", hashtags);
                ("strengths", strengths);
                ("weaknesses", weaknesses)]).

(** [for peer in peer_profiles[:5]]: the summaries of the first five. *)
Fixpoint summaries (peers : list value) : outcome (list value) :=
  match peers with
  | [] => Value []
  | peer :: rest =>
      summary <~ peer_summary peer ;;
      others <~ summaries rest ;;
      Value (summary :: others)
  end.

Definition peer_summaries (peer_profiles : list value) : outcome (list value) :=
  summaries (firstn 5 peer_profiles).

Definition required_keys : list string :=
  ["growth_score"; "posting_analysis"; "content_analysis"; "topic_analysis";
   "structure_analysis"; "insights"].

(** The loop [for key in required_keys: if key not in response: return False]. *)
Fixpoint has_keys (keys : list string) (response : value) : outcome bool :=
  match keys with
  | [] => Value true
  | key :: rest =>
      present <~ contains_key key response ;;
      if present then has_keys rest response else Value false
  end.

(** [_validate_response] *)
Definition _validate_response (response : value) : outcome bool :=
  complete <~ has_keys required_keys response ;;
  if complete then
    insights <~ get response "insights" (VList []) ;;
    match insights with
    | VList (_ :: _) => Value true
    | _ => Value false
    end
  else Value false.

End InsightsGenerator.

(** ** Notions used in the statements of Part II *)

Module RepairNotions.
Import Str Json GrokClient.

(** A digit, a comma and a digit occur somewhere in the text. *)
Fixpoint has_digit_comma_digit (s : string) : bool :=
  match s with
  | String a tl =>
      match tl with
      | String c (String b _) =>
          (isdigit a && Ascii.eqb c "," && isdigit b) || has_digit_comma_digit tl
      | _ => false
      end
  | EmptyString => false
  end.

(** The text without its commas. *)
Fixpoint without_commas (s : string) : string :=
  match s with
  | String c rest =>
      if Ascii.eqb c "," then without_commas rest else String c (without_commas rest)
  | EmptyString => EmptyString
  end.

End RepairNotions.

Module RetryNotions.
Import Exn.

(** The reply is an HTTP 429. *)
Definition rate_limited {B : Type} (r : reply B) : bool :=
  match r with
  | Response status_code _ => status_code =? 429
  | _ => false
  end.

(** The reply is one that [_make_request] retries: a 429 or a timeout. *)
Definition retryable {B : Type} (r : reply B) : bool :=
  match r with
  | Response status_code _ => status_code =? 429
  | Timeout => true
  | RequestException => false
  end.

(** The error raised when the retries are used up, by the last reply. *)
Definition tw_exhausted {B : Type} (last : reply B) : exn :=
  match last with
  | Timeout => TwitterAPIError TwRequestTimeout
  | _ => TwitterAPIError TwRateLimitExceeded
  end.

(** The error raised when the retries are used up, by the last reply. *)
Definition gk_exhausted (last : reply string) : exn :=
  match last with
  | Timeout => GrokAPIError GkRequestTimeout
  | _ => GrokAPIError GkRateLimitExceeded
  end.

End RetryNotions.

Module TweetCacheNotions.
Import Db CacheManager.


End TweetCacheNotions.

Module AnalysisNotions.
Import Exn Db AnalysisService.

(** The state with another content of the shared peer pool. *)
Definition with_pool (st : state) (pool : list PeerPool) : state :=
  {| db := {| users := users (db st); user_profiles := user_profiles (db st);
              peer_matches := peer_matches (db st); analyses := analyses (db st);
              peer_pools := pool; next_id := next_id (db st) |};
     calls := calls st |}.

(** A scenario: the user "alice" (5000 followers, niche "finance") has no
    cached peer assignment; the shared pool holds five valid, recently
    validated peers under her pool key; the language model names "bob". *)
Definition alice : User := {| id := 1; x_handle := "alice"; x_user_id := "42" |}.

Definition alice_profile : profile :=
  {| handle := "alice"; followers_count := 5000; following_count := 100;
     tweet_count := 10; grok_profile := Json.JObject []; niche := "finance";
     content_style := Json.JObject []; engagement_rate := Json.JInt 0;
     estimated_30d_growth := 0; db_id := Some 7%nat |}.

Definition pooled (name : string) : PeerPool :=
  {| Db.handle := name; pool_key := "finance_2500-12500"; Db.niche := "finance";
     follower_count := 6000; growth_rate := 10; is_valid := true;
     last_validated := 1000; times_used := 3 |}.

Definition bob : PeerMatcher.peer :=
  {| PeerMatcher.handle := "bob"; PeerMatcher.followers_count := 7000;
     PeerMatcher.grok_profile := Json.JObject []; PeerMatcher.match_score := 85;
     PeerMatcher.match_reason := "same niche"; PeerMatcher.growth_edge := "charts" |}.

Definition scenario_services : services :=
  {| get_user_by_handle := fun _ => Raise (TwitterAPIError TwAccountNotFound);
     get_user_tweets := fun _ _ => Raise (TwitterAPIError TwRequestTimeout);
     analyze_user := fun _ _ => Raise (GrokAPIError GkRateLimitExceeded);
     _get_fully_profiled_peers := fun _ _ => Ok [bob];
     generate_insights := fun _ _ _ => Raise (GrokAPIError GkInvalidJson) |}.

Definition scenario_state : state :=
  {| db := {| users := [alice]; user_profiles := []; peer_matches := [];
              analyses := [];
              peer_pools := [pooled "p1"; pooled "p2"; pooled "p3"; pooled "p4";
                             pooled "p5"];
              next_id := 10 |};
     calls := [] |}.

(** The [Analysis] row that a run writes. *)
Definition analysis_row (user_id : nat) (p : profile) (analysis_data : Json.json)
    (new_id : nat) (now : Z) : Analysis :=
  {| a_id := new_id; a_user_id := user_id; user_profile_id := db_id p;
     growth_score := dict_get "growth_score" (Json.JInt 0) analysis_data;
     insights := dict_get "insights" (Json.JArray []) analysis_data;
     comparison_data := dict_get "comparison_data" (Json.JObject []) analysis_data;
     a_created_at := now |}.


End AnalysisNotions.

Module PoolKeyNotions.
Import Py PeerPoolManager.

(** The follower range written with exact integer arithmetic, tier by
    tier; [follower_range_exact] shows that the binary64 computation of the
    source yields exactly these numbers. *)
Definition tier_range (followers : Z) : Z * Z :=
  if followers <? 1000 then (3 * followers / 10, 5 * followers)
  else if followers <? 5000 then (2 * followers / 5, 3 * followers)
  else if followers <? 10000 then (followers / 2, 5 * followers / 2)
  else (followers / 2, 2 * followers).

Definition range_agrees (followers : Z) : bool :=
  match follower_range followers with
  | Some (a, b) => (a =? fst (tier_range followers)) && (b =? snd (tier_range followers))
  | None => false
  end.

(** What is known of the follower range [(a, b)] of any count: the exact
    integers below 10000, and from there on [a >= 5000] with [b] four
    times [a], up to the odd unit lost when halving. *)
Definition in_range (followers a b : Z) : Prop :=
  if followers <? 10000 then (a, b) = tier_range followers
  else 5000 <= a /\ 4 * a <= b <= 4 * a + 2.

(** The tier of a follower count: how many of the thresholds 1000, 5000,
    10000 it has reached. *)
Definition tier (followers : Z) : Z :=
  if followers <? 1000 then 0
  else if followers <? 5000 then 1
  else if followers <? 10000 then 2
  else 3.

End PoolKeyNotions.

Module PeerPoolNotions.
Import Exn Db PeerPoolManager.

(** The pair that is meant to identify a row of the pool. *)
Definition entry_key (row : PeerPool) : string * string := (pool_key row, handle row).

(** No two rows of the table share their (pool key, handle). *)
Definition unique_entries (table : list PeerPool) : Prop :=
  NoDup (map entry_key table).

End PeerPoolNotions.

Module AnalysisCacheNotions.
Import Exn Db AnalysisService.


(** The rows of a table that belong to a user. *)
Definition profiles_of (user_id : nat) (d : database) : list UserProfile :=
  filter (fun row => (up_user_id row =? user_id)%nat) (user_profiles d).

Definition peer_matches_of (user_id : nat) (d : database) : list PeerMatch :=
  filter (fun row => (pm_user_id row =? user_id)%nat) (peer_matches d).

(** A scenario in which every collaborator answers: the account of
    "carol" has 5000 followers and the language model names five peers. *)
Definition carol : User := {| id := 3; x_handle := "carol"; x_user_id := "77" |}.

Definition carol_data : user_data :=
  {| ud_username := "carol"; ud_followers_count := 5000;
     ud_following_count := 100; ud_tweet_count := 10 |}.

Definition carol_profile : profile :=
  {| handle := "carol"; followers_count := 5000; following_count := 100;
     tweet_count := 10; grok_profile := Json.JObject [("handle", Json.JString "carol")];
     niche := "finance"; content_style := Json.JObject [];
     engagement_rate := Json.JInt 2; estimated_30d_growth := 40; db_id := None |}.

Definition named (name : string) (score : Z) : PeerMatcher.peer :=
  {| PeerMatcher.handle := name; PeerMatcher.followers_count := 7000;
     PeerMatcher.grok_profile := Json.JObject [("handle", Json.JString name)];
     PeerMatcher.match_score := score;
     PeerMatcher.match_reason := "same niche"; PeerMatcher.growth_edge := "charts" |}.

Definition five_peers : list PeerMatcher.peer :=
  [named "p1" 90; named "p2" 85; named "p3" 80; named "p4" 75; named "p5" 70].

Definition answering (peers : list PeerMatcher.peer) : services :=
  {| get_user_by_handle := fun _ => Ok (Some carol_data);
     get_user_tweets := fun _ _ => Ok [Json.JObject [("text", Json.JString "hello")]];
     analyze_user := fun _ _ => Ok carol_profile;
     _get_fully_profiled_peers := fun _ _ => Ok peers;
     generate_insights := fun _ _ _ =>
       Ok (Json.JObject [("growth_score", Json.JInt 6);
                         ("insights", Json.JArray [Json.JString "post more"])]) |}.

Definition carol_state : state :=
  {| db := {| users := [carol]; user_profiles := []; peer_matches := [];
              analyses := []; peer_pools := []; next_id := 1 |};
     calls := [] |}.

End AnalysisCacheNotions.

Module PoolOpsNotions.
Import Db PeerPoolManager.

(** The rows that [get_peers_from_pool] may return for a pool key: those
    of the pool and, when only validated peers are wanted, marked valid
    and validated less than [validation_days] ago. *)
Definition eligible (self : manager) (now : Z) (key : string) (require_valid : bool)
    (row : PeerPool) : Prop :=
  pool_key row = key
  /\ (require_valid = true ->
      is_valid row = true /\ now - days (validation_days self) < last_validated row).

(** A row used [n] more times. *)
Definition used_more (row : PeerPool) (n : Z) : PeerPool :=
  {| handle := handle row; pool_key := pool_key row; niche := niche row;
     follower_count := follower_count row; growth_rate := growth_rate row;
     is_valid := is_valid row; last_validated := last_validated row;
     times_used := times_used row + n |}.

(** From the most used to the least used. *)
Fixpoint most_used_first (rows : list PeerPool) : Prop :=
  match rows with
  | [] => True
  | a :: rest => (forall b, In b rest -> times_used b <= times_used a)
                 /\ most_used_first rest
  end.

(** A list of numbers that never increases. *)
Fixpoint descending (l : list Z) : Prop :=
  match l with
  | [] => True
  | a :: rest => (forall b, In b rest -> b <= a) /\ descending rest
  end.

(** The sum of the counts of a niche breakdown. *)
Definition breakdown_total (breakdown : list (string * Z)) : Z :=
  fold_right Z.add 0 (map snd breakdown).

End PoolOpsNotions.

Module RetryTimingNotions.
Import Exn.

(** What [TwitterAPIClient._make_request] makes of a reply that ends the
    call: the requests and pauses, and the result. *)
Definition tw_final {B : Type} (self : TwitterAPIClient.client) (r : reply B)
  : list event * result B :=
  match r with
  | Response status_code body =>
      if is_http_error status_code then
        ([Request],
         Raise (TwitterAPIError
                  (if status_code =? 429 then TwRateLimitExceeded
                   else if status_code =? 404 then TwAccountNotFound
                   else if (status_code =? 401) || (status_code =? 403) then TwInvalidApiKey
                   else TwApiError status_code)))
      else ([Request; Sleep (TwitterAPIClient.rate_limit_delay self)], Ok body)
  | Timeout => ([Request], Raise (TwitterAPIError TwRequestTimeout))
  | RequestException => ([Request], Raise (TwitterAPIError TwNetworkError))
  end.

(** The same for [GrokClient._make_request]. *)
Definition gk_final (r : reply string) : list event * result string :=
  match r with
  | Response status_code text =>
      if is_http_error status_code then
        ([Request],
         Raise (GrokAPIError
                  (if status_code =? 429 then GkRateLimitExceeded
                   else if (status_code =? 401) || (status_code =? 403) then GkInvalidApiKey
                   else GkApiError status_code)))
      else ([Request], Ok text)
  | Timeout => ([Request], Raise (GrokAPIError GkRequestTimeout))
  | RequestException => ([Request], Raise (GrokAPIError GkNetworkError))
  end.

(** The time spent in pauses, in seconds. *)
Definition time_slept (trace : list event) : Z := fold_right Z.add 0 (sleeps trace).

End RetryTimingNotions.

Module CostTrackerNotions.
Import CostTracker.

(** A call of one of the four methods that count. *)
Inductive operation : Type :=
| UserInfoCall
| TweetsCall (tweet_count : Z)
| SearchCall
| GrokCall (input_tokens output_tokens : Z).

Definition apply (op : operation) (self : tracker) : option tracker :=
  match op with
  | UserInfoCall => Some (add_user_info_call self)
  | TweetsCall tweet_count => add_tweets_call self tweet_count
  | SearchCall => Some (add_search_call self)
  | GrokCall input_tokens output_tokens =>
      Some (add_grok_call self input_tokens output_tokens)
  end.

(** The calls one after the other; [None] when one of them raises. *)
Fixpoint run (ops : list operation) (self : tracker) : option tracker :=
  match ops with
  | [] => Some self
  | op :: rest =>
      match apply op self with
      | Some self' => run rest self'
      | None => None
      end
  end.

(** The credits of a tweets call are 15 per tweet, or one less, and at
    least 15; exactly 15 per tweet up to 1000 tweets. *)
Definition credits_checked (n : Z) : bool :=
  match tweet_credits n with
  | Some credits =>
      (15 * n - 1 <=? credits) && (credits <=? Z.max 15 (15 * n))
      && ((1000 <? n) || (credits =? Z.max 15 (15 * n)))
  | None => false
  end.

End CostTrackerNotions.

Module TwitterClientNotions.
Import PyVal.

(** The value of a key of a dict, or a default. *)
Definition field (key : string) (default : value) (members : list (string * value))
  : value :=
  match lookup key members with
  | Some x => x
  | None => default
  end.

Definition is_dict (v : value) : bool :=
  match v with
  | VDict _ => true
  | _ => false
  end.

Definition members_of (v : value) : list (string * value) :=
  match v with
  | VDict members => members
  | _ => []
  end.

(** The user dict that [get_user_by_handle] builds from the user object
    of a reply. *)
Definition user_dict (data : list (string * value)) : value :=
  VDict [("id", field "id" VNone data);
         ("username", field "userName" VNone data);
         ("name", field "name" VNone data);
         ("description", field "description" (VStr "") data);
         ("profile_image_url", field "profilePicture" (VStr "") data);
         ("public_metrics",
          VDict [("followers_count", field "followers" (VInt 0) data);
                 ("following_count", field "following" (VInt 0) data);
                 ("tweet_count", field "statusesCount" (VInt 0) data);
                 ("listed_count", VInt 0)])].

(** A reply from which [get_user_by_handle] returns a user: a dict whose
    ['data'] is a dict with an ['id'] and a ['userName'] that are true. *)
Definition user_info_of (response : value) : option (list (string * value)) :=
  match response with
  | VDict members =>
      match lookup "data" members with
      | Some (VDict data) =>
          if truthy (field "id" VNone data) && truthy (field "userName" VNone data)
          then Some data else None
      | _ => None
      end
  | _ => None
  end.

(** A tweet of a reply that [get_user_tweets] keeps: neither a retweet
    nor a reply. *)
Definition original (tweet : value) : bool :=
  let m := members_of tweet in
  negb (is_str "retweet" (field "type" VNone m)
        || truthy (field "retweeted_tweet" VNone m))
  && negb (truthy (field "isReply" VNone m)).

(** The tweet dict that [get_user_tweets] builds. *)
Definition tweet_dict (tweet : value) : value :=
  let m := members_of tweet in
  VDict [("id", field "id" VNone m);
         ("text", field "text" (VStr "") m);
         ("created_at", field "createdAt" VNone m);
         ("public_metrics",
          VDict [("like_count", field "likeCount" (VInt 0) m);
                 ("retweet_count", field "retweetCount" (VInt 0) m);
                 ("reply_count", field "replyCount" (VInt 0) m);
                 ("quote_count", field "quoteCount" (VInt 0) m)]);
         ("entities", field "entities" (VDict []) m)].

(** A user of a search reply that [search_users] lists: not protected,
    with an ['id']. *)
Definition listed (user : value) : bool :=
  let m := members_of user in
  negb (truthy (field "protected" VNone m)) && truthy (field "id" VNone m).

(** The user dict that [search_users] builds. *)
Definition found_dict (user : value) : value :=
  let m := members_of user in
  VDict [("id", field "id" VNone m);
         ("username", or_else (field "username" VNone m) (field "screen_name" VNone m));
         ("name", field "name" VNone m);
         ("description", field "description" (VStr "") m);
         ("profile_image_url", field "profile_image_url_https" (VStr "") m);
         ("public_metrics",
          VDict [("followers_count", field "followers_count" (VInt 0) m);
                 ("following_count", field "following_count" (VInt 0) m);
                 ("tweet_count", field "statuses_count" (VInt 0) m);
                 ("listed_count", VInt 0)])].

End TwitterClientNotions.

Module ProfileNotions.
Import PyVal TwitterClientNotions.



(** The summary of a peer of which only the handle is known. *)
Definition bare_summary (handle : value) : value :=
  VDict [("handle", handle);
         ("followers", VInt 0);
         ("niche", VStr "");
         ("topics", VList []);
         ("style", VStr "");
         ("posts_per_week", VInt 0);
         ("likes_per_post", VInt 0);
         ("views_per_post", VInt 0);
         ("growth_rate", VInt 0);
         ("visual_ratio", VStr "medium");
         ("hashtags", VList []);
         ("strengths", VList []);
         ("weaknesses", VList [])].

(** The summary of a peer with the figures of the model's answer [peer]. *)
Definition full_summary (peer : list (string * value)) : value :=
  VDict [("handle", match field "handle" (VStr "") peer with
                    | VStr s => VStr (Str.lstrip_at s)
                    | other => other
                    end);
         ("followers", field "followers" (VInt 0) peer);
         ("niche", field "primary_niche" (VStr "") peer);
         ("topics", field "secondary_topics" (VList []) peer);
         ("style", field "content_style" (VStr "") peer);
         ("posts_per_week", field "posting_frequency_per_week" (VInt 0) peer);
         ("likes_per_post", field "average_likes_per_post" (VInt 0) peer);
         ("views_per_post", field "average_views_per_post" (VInt 0) peer);
         ("growth_rate", field "estimated_monthly_growth_percent" (VInt 0) peer);
         ("visual_ratio", field "visual_content_ratio" (VStr "medium") peer);
         ("hashtags", VList []);
         ("strengths", field "strengths" (VList []) peer);
         ("weaknesses", field "weaknesses_for_growth" (VList []) peer)].

End ProfileNotions.

(* ===================================================================== *)
(** * Part II. Theorems                                                    *)
(* ===================================================================== *)

(** ** Binary64 arithmetic used by the pool-key derivation

    The kernel's floats are specified by [SpecFloat]; the lemmas below
    show that an [int] below [2^53] converts exactly, that a larger one
    converts to a mantissa of 53 bits or overflows, and that multiplying
    by [0.5] or [2.0] only shifts the exponent: [int(n * 0.5)] and
    [int(n * 2.0)] are [n / 2] and [2 * n] below [2^53], and the second is
    four times the first beyond. *)
Module PyFacts.
Import Py.

Lemma iter_pos_nat {A} (f : A -> A) (p : positive) (x : A) :
  iter_pos f p x = Nat.iter (Pos.to_nat p) f x.
Proof.
  revert x. induction p as [p IH | p IH |]; intro x; simpl iter_pos.
  - rewrite !IH, Pos2Nat.inj_xI. 
    replace (S (2 * Pos.to_nat p))%nat with (Pos.to_nat p + (Pos.to_nat p + 1))%nat by lia.
    rewrite !Nat.iter_add. reflexivity.
  - rewrite !IH, Pos2Nat.inj_xO.
    replace (2 * Pos.to_nat p)%nat with (Pos.to_nat p + Pos.to_nat p)%nat by lia.
    rewrite Nat.iter_add. reflexivity.
  - reflexivity.
Qed.

Lemma shr_1_double (z : Z) :
  0 <= z -> shr_1 (Build_shr_record (2 * z) false false) = Build_shr_record z false false.
Proof. destruct z as [| p | p]; intro H; try reflexivity; lia. Qed.

Lemma iter_shr_1_exact (n : nat) (z : Z) :
  0 <= z ->
  Nat.iter n shr_1 (Build_shr_record (z * 2 ^ Z.of_nat n) false false)
  = Build_shr_record z false false.
Proof.
  revert z. induction n as [| n IH]; intros z Hz.
  - simpl. now rewrite Z.mul_1_r.
  - rewrite Nat.iter_succ_r.
    replace (z * 2 ^ Z.of_nat (S n)) with (2 * (z * 2 ^ Z.of_nat n)).
    + rewrite shr_1_double by (apply Z.mul_nonneg_nonneg; [lia | apply Z.pow_nonneg; lia]).
      now apply IH.
    + rewrite Nat2Z.inj_succ, Z.pow_succ_r by lia. ring.
Qed.

Lemma digits2_pos_bounds (p : positive) :
  2 ^ (Zpos (digits2_pos p) - 1) <= Zpos p < 2 ^ Zpos (digits2_pos p).
Proof.
  induction p as [p IH | p IH |]; simpl digits2_pos.
  - rewrite Pos2Z.inj_succ.
    replace (Z.succ (Zpos (digits2_pos p)) - 1) with (Z.succ (Zpos (digits2_pos p) - 1)) by lia.
    rewrite !Z.pow_succ_r by lia. lia.
  - rewrite Pos2Z.inj_succ.
    replace (Z.succ (Zpos (digits2_pos p)) - 1) with (Z.succ (Zpos (digits2_pos p) - 1)) by lia.
    rewrite !Z.pow_succ_r by lia. lia.
  - simpl. lia.
Qed.

Lemma digits2_pos_unique (p : positive) (d : Z) :
  2 ^ (d - 1) <= Zpos p < 2 ^ d -> Zpos (digits2_pos p) = d.
Proof.
  intros [Hlo Hhi]. pose proof (digits2_pos_bounds p) as [Blo Bhi].
  assert (Hd : 0 < d).
  { destruct (Z_lt_le_dec 0 d) as [|Hle]; [assumption|].
    exfalso. assert (2 ^ d <= 1).
    { destruct (Z.eq_dec d 0) as [->|]; [simpl; lia|]. rewrite Z.pow_neg_r by lia. lia. }
    lia. }
  destruct (Z.lt_trichotomy (Zpos (digits2_pos p)) d) as [Hlt | [Heq | Hgt]]; [| assumption |].
  - exfalso. assert (2 ^ Zpos (digits2_pos p) <= 2 ^ (d - 1)) by (apply Z.pow_le_mono_r; lia). lia.
  - exfalso. assert (2 ^ d <= 2 ^ (Zpos (digits2_pos p) - 1)) by (apply Z.pow_le_mono_r; lia). lia.
Qed.


(** Rounding a product that only needs an exact right shift: the mantissa
    [m] has 53 bits and [k] trailing zero bits were appended to it; the
    result overflows when the exponent exceeds 971. *)
Lemma binary_round_aux_shift (s : bool) (m q : positive) (k e : Z) :
  Zpos (digits2_pos m) = 53 ->
  0 <= k ->
  Zpos q = Zpos m * 2 ^ k ->
  -1074 <= e ->
  binary_round_aux prec emax s (Zpos q) (e - k) loc_Exact
  = if e <=? 971 then S754_finite s m e else S754_infinity s.
Proof.
  intros Hm Hk Hq He.
  assert (Hdq : Zpos (digits2_pos q) = 53 + k).
  { apply digits2_pos_unique. pose proof (digits2_pos_bounds m) as B. rewrite Hm in B.
    rewrite Hq. replace (53 + k - 1) with (52 + k) by lia.
    rewrite !Z.pow_add_r by lia.
    assert (0 < 2 ^ k) by (apply Z.pow_pos_nonneg; lia). nia. }
  unfold binary_round_aux, shr_fexp. cbn [Zdigits2 shr_record_of_loc].
  rewrite Hdq.
  assert (Hf1 : fexp prec emax (53 + k + (e - k)) - (e - k) = k).
  { unfold fexp, emin, prec, emax. lia. }
  rewrite Hf1.
  assert (Hshr : shr (Build_shr_record (Zpos q) false false) (e - k) k
                 = (Build_shr_record (Zpos m) false false, e)).
  { destruct k as [| pk | pk]; [ | | lia].
    - simpl. rewrite Z.sub_0_r. f_equal. f_equal. rewrite Hq. simpl. lia.
    - unfold shr. rewrite iter_pos_nat, Hq.
      rewrite <- (positive_nat_Z pk) at 1.
      rewrite iter_shr_1_exact by lia. f_equal. lia. }
  rewrite Hshr. cbn [shr_m loc_of_shr_record round_nearest_even Zdigits2 shr_record_of_loc].
  rewrite Hm.
  assert (Hf2 : fexp prec emax (53 + e) - e = 0).
  { unfold fexp, emin, prec, emax. lia. }
  rewrite Hf2. cbn [shr shr_m]. reflexivity.
Qed.

Lemma binary_round_aux_exact (s : bool) (m q : positive) (k e : Z) :
  Zpos (digits2_pos m) = 53 ->
  0 <= k ->
  Zpos q = Zpos m * 2 ^ k ->
  -1074 <= e <= 971 ->
  binary_round_aux prec emax s (Zpos q) (e - k) loc_Exact = S754_finite s m e.
Proof.
  intros Hm Hk Hq He. rewrite (binary_round_aux_shift s m q k e) by (assumption || lia).
  assert (Hle : (e <=? 971) = true) by (apply Z.leb_le; lia). now rewrite Hle.
Qed.

Lemma pos_iter_xO (n p : positive) : Zpos (Pos.iter xO p n) = Zpos p * 2 ^ Zpos n.
Proof.
  induction n as [| n IH] using Pos.peano_ind.
  - simpl. lia.
  - rewrite Pos.iter_succ, Pos2Z.inj_xO, IH, Pos2Z.inj_succ, Z.pow_succ_r by lia. ring.
Qed.

(** An [int] below [2^53] converts to a [float] without rounding. *)
Lemma float_of_int_exact (p : positive) :
  Zpos p < 2 ^ 53 ->
  exists (m : positive) (e : Z),
    Prim2SF (float_of_int (Zpos p)) = S754_finite false m e /\
    Zpos (digits2_pos m) = 53 /\
    Zpos m = Zpos p * 2 ^ (- e) /\
    -52 <= e <= 0.
Proof.
  intro Hp.
  pose proof (digits2_pos_bounds p) as [Blo Bhi].
  set (d := Zpos (digits2_pos p)) in *.
  assert (Hd : 1 <= d <= 53).
  { split; [unfold d; lia |].
    destruct (Z_le_gt_dec d 53) as [|Hgt]; [assumption | exfalso].
    assert (2 ^ 53 <= 2 ^ (d - 1)) by (apply Z.pow_le_mono_r; lia). lia. }
  assert (Hal : exists m, shl_align p 0 (fexp prec emax (d + 0)) = (m, d - 53)
                          /\ Zpos m = Zpos p * 2 ^ (53 - d)).
  { unfold shl_align. replace (fexp prec emax (d + 0) - 0) with (d - 53)
      by (unfold fexp, emin, prec, emax; lia).
    destruct (d - 53) as [| q | q] eqn:E; [ | lia | ].
    - exists p. split; [f_equal; lia |]. replace (53 - d) with 0 by lia. simpl. lia.
    - exists (Pos.iter xO p q). split.
      + f_equal. unfold fexp, emin, prec, emax. lia.
      + rewrite pos_iter_xO. f_equal. f_equal. lia. }
  destruct Hal as (m & Hal & Hm).
  assert (Hdm : Zpos (digits2_pos m) = 53).
  { apply digits2_pos_unique. rewrite Hm.
    assert (E1 : 2 ^ (53 - 1) = 2 ^ (d - 1) * 2 ^ (53 - d))
      by (rewrite <- Z.pow_add_r by lia; f_equal; lia).
    assert (E2 : 2 ^ 53 = 2 ^ d * 2 ^ (53 - d))
      by (rewrite <- Z.pow_add_r by lia; f_equal; lia).
    rewrite E1, E2.
    assert (0 < 2 ^ (53 - d)) by (apply Z.pow_pos_nonneg; lia).
    split; [apply Z.mul_le_mono_nonneg_r | apply Z.mul_lt_mono_pos_r]; lia. }
  assert (Hsf : binary_normalize prec emax (Zpos p) 0 false = S754_finite false m (d - 53)).
  { unfold binary_normalize, binary_round. fold d. rewrite Hal.
    replace (d - 53) with ((d - 53) - 0) at 1 by lia.
    apply binary_round_aux_exact; [assumption | lia | simpl; lia | lia]. }
  exists m, (d - 53). split; [| split; [exact Hdm | split; [| lia]]].
  - unfold float_of_int. rewrite Hsf. apply Prim2SF_SF2Prim.
    unfold valid_binary, bounded, canonical_mantissa. rewrite Hdm.
    apply andb_true_iff. split; [apply Z.eqb_eq | apply Z.leb_le];
      unfold fexp, emin, prec, emax; lia.
  - rewrite Hm. f_equal. f_equal. lia.
Qed.

(** Multiplying by a power of two [2^(52+ey)] only moves the exponent. *)
Lemma SFmul_pow2 (m : positive) (e ey : Z) :
  Zpos (digits2_pos m) = 53 ->
  -1074 <= e + ey + 52 <= 971 ->
  SFmul prec emax (S754_finite false m e) (S754_finite false 4503599627370496 ey)
  = S754_finite false m (e + ey + 52).
Proof.
  intros Hm He. unfold SFmul. cbn [xorb].
  remember (e + ey + 52) as e' eqn:E.
  replace (e + ey) with (e' - 52) by lia.
  apply binary_round_aux_exact;
    [assumption | lia | rewrite Pos2Z.inj_mul; reflexivity | lia].
Qed.

Lemma int_mul_half (f : Z) : 0 <= f < 2 ^ 53 -> int_mul f 0.5%float = Some (f / 2).
Proof.
  intros [H0 H53]. destruct f as [| p | p]; [vm_compute; reflexivity | | lia].
  destruct (float_of_int_exact p H53) as (m & e & Hx & Hdm & Hm & He).
  unfold int_mul, int_of_float. rewrite mul_spec, Hx.
  change (Prim2SF 0.5%float) with (S754_finite false 4503599627370496 (-53)).
  unfold SF64mul. rewrite SFmul_pow2 by (try assumption; lia).
  replace (e + (-53) + 52) with (e - 1) by lia.
  destruct (e - 1) as [| q | q] eqn:E; try lia.
  f_equal. rewrite Z.shiftr_div_pow2 by lia. rewrite Hm.
  replace (Zpos q) with (- e + 1) by lia.
  rewrite Z.pow_add_r by lia. rewrite Z.pow_1_r.
  rewrite (Z.mul_comm (2 ^ (- e)) 2).
  apply Z.div_mul_cancel_r; [lia | apply Z.pow_nonzero; lia].
Qed.

Lemma int_mul_two (f : Z) : 0 <= f < 2 ^ 53 -> int_mul f 2%float = Some (2 * f).
Proof.
  intros [H0 H53]. destruct f as [| p | p]; [vm_compute; reflexivity | | lia].
  destruct (float_of_int_exact p H53) as (m & e & Hx & Hdm & Hm & He).
  unfold int_mul, int_of_float. rewrite mul_spec, Hx.
  change (Prim2SF 2%float) with (S754_finite false 4503599627370496 (-51)).
  unfold SF64mul. rewrite SFmul_pow2 by (try assumption; lia).
  replace (e + (-51) + 52) with (e + 1) by lia.
  destruct (e + 1) as [| q | q] eqn:E.
  - f_equal. rewrite Z.shiftl_0_r, Hm. replace (- e) with 1 by lia. lia.
  - f_equal. assert (e = 0) by lia. subst e. rewrite Z.shiftl_mul_pow2 by lia.
    rewrite Hm. replace (Zpos q) with 1 by lia. simpl. lia.
  - f_equal. rewrite Z.shiftr_div_pow2 by lia. rewrite Hm.
    replace (- e) with (1 + Zpos q) by lia.
    rewrite Z.pow_add_r by lia. rewrite Z.pow_1_r.
    rewrite Z.mul_assoc, Z.div_mul by (apply Z.pow_nonzero; lia). lia.
Qed.


Lemma shr_1_m (r : shr_record) : 0 <= shr_m r -> shr_m (shr_1 r) = shr_m r / 2.
Proof.
  destruct r as [m rb sb]. cbn [shr_m]. intro H.
  destruct m as [| [p | p |] | p]; cbn [shr_1 shr_m].
  - reflexivity.
  - apply Z.div_unique with (r := 1); lia.
  - apply Z.div_unique with (r := 0); lia.
  - reflexivity.
  - lia.
Qed.

Lemma iter_shr_1_m (n : nat) (r : shr_record) :
  0 <= shr_m r -> shr_m (Nat.iter n shr_1 r) = shr_m r / 2 ^ Z.of_nat n.
Proof.
  intro H. induction n as [| n IH].
  - simpl. now rewrite Z.div_1_r.
  - rewrite Nat.iter_succ, shr_1_m.
    + rewrite IH, Nat2Z.inj_succ, Z.pow_succ_r, Z.div_div by lia + (apply Z.pow_pos_nonneg; lia).
      f_equal. lia.
    + rewrite IH. apply Z.div_pos; [exact H | apply Z.pow_pos_nonneg; lia].
Qed.

Lemma round_nearest_even_bounds (m : Z) (l : location) :
  m <= round_nearest_even m l <= m + 1.
Proof.
  destruct l as [| [| |]]; cbn [round_nearest_even]; try lia.
  destruct (Z.even m); lia.
Qed.

(** The last step of a rounding: a mantissa of 53 bits, or [2^53] after a
    carry, at exponent [e1]. *)
Lemma round_tail (s : bool) (m1 e1 : Z) :
  2 ^ 52 <= m1 <= 2 ^ 53 -> -1074 <= e1 ->
  (let '(mrs, e) := shr_fexp prec emax m1 e1 loc_Exact in
   match shr_m mrs with
   | Z0 => S754_zero s
   | Zpos m => if e <=? emax - prec then S754_finite s m e else S754_infinity s
   | Zneg _ => S754_nan
   end)
  = S754_infinity s /\ 971 <= e1
  \/ exists m e,
       (let '(mrs, e) := shr_fexp prec emax m1 e1 loc_Exact in
        match shr_m mrs with
        | Z0 => S754_zero s
        | Zpos m => if e <=? emax - prec then S754_finite s m e else S754_infinity s
        | Zneg _ => S754_nan
        end) = S754_finite s m e
       /\ Zpos (digits2_pos m) = 53 /\ e1 <= e <= e1 + 1 /\ e <= 971.
Proof.
  intros Hm He. destruct m1 as [| p | p]; try lia.
  destruct (Z.eq_dec (Zpos p) (2 ^ 53)) as [Hcarry | Hno].
  - (* carry: one more shift *)
    assert (Hd : Zpos (digits2_pos p) = 54) by (apply digits2_pos_unique; lia).
    unfold shr_fexp. cbn [Zdigits2 shr_record_of_loc]. rewrite Hd.
    replace (fexp prec emax (54 + e1) - e1) with 1
      by (unfold fexp, emin, prec, emax; lia).
    cbn [shr iter_pos]. rewrite Hcarry. cbn [shr_1 shr_m Z.pow Z.pow_pos Pos.iter Z.mul Pos.mul].
    destruct (Z.leb_spec (e1 + 1) (emax - prec)) as [Hle | Hgt];
      [right | left; split; [reflexivity | unfold emax, prec in Hgt; lia]].
    eexists _, _. split; [reflexivity |]. unfold emax, prec in Hle.
    split; [reflexivity | lia].
  - assert (Hd : Zpos (digits2_pos p) = 53) by (apply digits2_pos_unique; lia).
    unfold shr_fexp. cbn [Zdigits2 shr_record_of_loc]. rewrite Hd.
    replace (fexp prec emax (53 + e1) - e1) with 0
      by (unfold fexp, emin, prec, emax; lia).
    cbn [shr shr_m].
    destruct (Z.leb_spec e1 (emax - prec)) as [Hle | Hgt];
      [right | left; split; [reflexivity | unfold emax, prec in Hgt; lia]].
    exists p, e1. split; [reflexivity |]. unfold emax, prec in Hle.
    split; [exact Hd | lia].
Qed.


(** An [int] of more than 53 bits converts to a [float] with a mantissa of
    53 bits, or overflows. *)
Lemma float_of_int_large (p : positive) :
  2 ^ 53 <= Zpos p ->
  (Prim2SF (float_of_int (Zpos p)) = S754_infinity false
   /\ 1024 <= Zpos (digits2_pos p))
  \/ exists (m : positive) (e : Z),
       Prim2SF (float_of_int (Zpos p)) = S754_finite false m e /\
       Zpos (digits2_pos m) = 53 /\
       Zpos (digits2_pos p) - 53 <= e <= Zpos (digits2_pos p) - 52 /\
       e <= 971.
Proof.
  intro Hp.
  pose proof (digits2_pos_bounds p) as [Blo Bhi].
  set (d := Zpos (digits2_pos p)) in *.
  assert (Hd : 54 <= d).
  { destruct (Z_le_gt_dec 54 d) as [|Hgt]; [assumption | exfalso].
    assert (2 ^ d <= 2 ^ 53) by (apply Z.pow_le_mono_r; lia). lia. }
  assert (Hn : exists np, fexp prec emax (d + 0) - 0 = Zpos np /\ Zpos np = d - 53).
  { destruct (fexp prec emax (d + 0) - 0) as [| np | np] eqn:E;
      unfold fexp, emin, prec, emax in E; try lia.
    exists np. split; [reflexivity | lia]. }
  destruct Hn as (np & Hn & Hnp).
  assert (Hsf : binary_normalize prec emax (Zpos p) 0 false
                = S754_infinity false /\ 1024 <= d
                \/ exists m e,
                     binary_normalize prec emax (Zpos p) 0 false = S754_finite false m e
                     /\ Zpos (digits2_pos m) = 53 /\ d - 53 <= e <= d - 52 /\ e <= 971).
  { set (mrs := Nat.iter (Pos.to_nat np) shr_1 (Build_shr_record (Zpos p) false false)).
    assert (Heq : binary_normalize prec emax (Zpos p) 0 false
                  = (let '(mrs2, e2) :=
                       shr_fexp prec emax
                         (round_nearest_even (shr_m mrs) (loc_of_shr_record mrs))
                         (0 + Zpos np) loc_Exact in
                     match shr_m mrs2 with
                     | Z0 => S754_zero false
                     | Zpos m => if e2 <=? emax - prec
                                 then S754_finite false m e2 else S754_infinity false
                     | Zneg _ => S754_nan
                     end)).
    { unfold binary_normalize, binary_round, shl_align. fold d. rewrite Hn.
      unfold binary_round_aux.
      unfold shr_fexp at 1. cbn [Zdigits2 shr_record_of_loc]. fold d. rewrite Hn.
      cbn [shr]. rewrite iter_pos_nat. reflexivity. }
    rewrite Heq.
    assert (Hq : shr_m mrs = Zpos p / 2 ^ (d - 53)).
    { unfold mrs. rewrite iter_shr_1_m by (cbn [shr_m]; lia). cbn [shr_m].
      rewrite positive_nat_Z, Hnp. reflexivity. }
    assert (Hpow : 2 ^ (d - 1) = 2 ^ (d - 53) * 2 ^ 52)
      by (rewrite <- Z.pow_add_r by lia; f_equal; lia).
    assert (Hpow' : 2 ^ d = 2 ^ (d - 53) * 2 ^ 53)
      by (rewrite <- Z.pow_add_r by lia; f_equal; lia).
    assert (Hpos : 0 < 2 ^ (d - 53)) by (apply Z.pow_pos_nonneg; lia).
    assert (Hqb : 2 ^ 52 <= shr_m mrs < 2 ^ 53).
    { rewrite Hq. split.
      - apply Z.div_le_lower_bound; [exact Hpos | lia].
      - apply Z.div_lt_upper_bound; [exact Hpos | lia]. }
    pose proof (round_nearest_even_bounds (shr_m mrs) (loc_of_shr_record mrs)) as Hr.
    destruct (round_tail false (round_nearest_even (shr_m mrs) (loc_of_shr_record mrs))
                (0 + Zpos np)) as [[Hinf Hbig] | (m & e & Hfin & Hdm & He & He')];
      try lia.
    - left. split; [exact Hinf | lia].
    - right. exists m, e. split; [exact Hfin |]. split; [exact Hdm | lia]. }
  unfold float_of_int.
  destruct Hsf as [[Hinf Hbig] | (m & e & Hfin & Hdm & He & He')].
  - left. split; [| exact Hbig]. rewrite Hinf. apply Prim2SF_SF2Prim. reflexivity.
  - right. exists m, e. split; [| split; [exact Hdm | split; assumption]].
    rewrite Hfin. apply Prim2SF_SF2Prim.
    unfold valid_binary, bounded, canonical_mantissa. rewrite Hdm.
    apply andb_true_iff. split; [apply Z.eqb_eq | apply Z.leb_le];
      unfold fexp, emin, prec, emax; lia.
Qed.


Lemma SFmul_pow2_shift (m : positive) (e ey : Z) :
  Zpos (digits2_pos m) = 53 ->
  -1074 <= e + ey + 52 ->
  SFmul prec emax (S754_finite false m e) (S754_finite false 4503599627370496 ey)
  = if e + ey + 52 <=? 971
    then S754_finite false m (e + ey + 52) else S754_infinity false.
Proof.
  intros Hm He. unfold SFmul. cbn [xorb].
  remember (e + ey + 52) as e' eqn:E.
  replace (e + ey) with (e' - 52) by lia.
  apply binary_round_aux_shift;
    [assumption | lia | rewrite Pos2Z.inj_mul; reflexivity | lia].
Qed.

(** Beyond [2^53]: [int(n * 2.0)] is four times [int(n * 0.5)], unless the
    product overflows, which takes [n >= 2^1022]. *)
Lemma int_mul_large (f : Z) :
  2 ^ 53 <= f ->
  (exists a, int_mul f 0.5%float = Some a /\ int_mul f 2%float = Some (4 * a)
             /\ 2 ^ 52 <= a)
  \/ (int_mul f 2%float = None /\ 2 ^ 1022 <= f).
Proof.
  intro Hf. destruct f as [| p | p]; try lia.
  pose proof (digits2_pos_bounds p) as [Blo _].
  unfold int_mul, int_of_float. rewrite !mul_spec.
  change (Prim2SF 0.5%float) with (S754_finite false 4503599627370496 (-53)).
  change (Prim2SF 2%float) with (S754_finite false 4503599627370496 (-51)).
  unfold SF64mul.
  destruct (float_of_int_large p Hf) as [[Hinf Hbig] | (m & e & Hx & Hdm & He & He')].
  - right. rewrite Hinf. split; [reflexivity |].
    assert (2 ^ 1022 <= 2 ^ (Zpos (digits2_pos p) - 1)) by (apply Z.pow_le_mono_r; lia).
    lia.
  - assert (Hd : 54 <= Zpos (digits2_pos p)).
    { destruct (Z_le_gt_dec 54 (Zpos (digits2_pos p))) as [|Hgt]; [assumption | exfalso].
      pose proof (digits2_pos_bounds p) as [_ Bhi].
      assert (2 ^ Zpos (digits2_pos p) <= 2 ^ 53) by (apply Z.pow_le_mono_r; lia). lia. }
    rewrite Hx, !SFmul_pow2_shift by (assumption || lia).
    replace (e + (-53) + 52) with (e - 1) by lia.
    replace (e + (-51) + 52) with (e + 1) by lia.
    assert (Hh : (e - 1 <=? 971) = true) by (apply Z.leb_le; lia). rewrite Hh.
    assert (Ha : match e - 1 with
                 | Zneg q => Z.shiftr (Zpos m) (Zpos q)
                 | _ => Z.shiftl (Zpos m) (e - 1)
                 end = Zpos m * 2 ^ (e - 1)).
    { destruct (e - 1) as [| q | q] eqn:E; try lia.
      - simpl. lia.
      - apply Z.shiftl_mul_pow2. lia. }
    pose proof (digits2_pos_bounds m) as [Mlo _]. rewrite Hdm in Mlo.
    assert (Hp2 : 0 < 2 ^ (e - 1)) by (apply Z.pow_pos_nonneg; lia).
    destruct (Z.leb_spec (e + 1) 971) as [Hle | Hgt].
    + left. exists (Zpos m * 2 ^ (e - 1)). split; [now rewrite Ha |]. split; [| nia].
      f_equal.
      destruct (e + 1) as [| q | q] eqn:E; try lia.
      rewrite Z.shiftl_mul_pow2 by lia.
      replace (Zpos q) with ((e - 1) + 2) by lia.
      rewrite Z.pow_add_r by lia. change (2 ^ 2) with 4. ring.
    + right. split; [reflexivity |].
      assert (2 ^ 1022 <= 2 ^ (Zpos (digits2_pos p) - 1)) by (apply Z.pow_le_mono_r; lia).
      lia.
Qed.

End PyFacts.

(** ** Repair of a model response ([GrokClient.complete_json]) *)
Module JsonRepairFacts.
  Import Str Json GrokClient.

Import RepairNotions.

(** Induction on texts that may look two characters ahead. *)
Lemma string_length_ind (P : string -> Prop) :
  (forall s, (forall t, (String.length t < String.length s)%nat -> P t) -> P s) ->
  forall s, P s.
Proof.
  intros step s.
  assert (H : forall n t, (String.length t < n)%nat -> P t).
  { induction n as [| n IH]; intros t Ht; [lia |].
    apply step. intros u Hu. apply IH. lia. }
  apply (H (S (String.length s))). lia.
Qed.

Lemma sub_unfold (a : ascii) (tl : string) :
  sub_digit_comma_digit (String a tl) =
  match tl with
  | String c (String b rest) =>
      if isdigit a && Ascii.eqb c "," && isdigit b
      then String a (String b (sub_digit_comma_digit rest))
      else String a (sub_digit_comma_digit tl)
  | _ => String a (sub_digit_comma_digit tl)
  end.
Proof. destruct tl as [| c [| b rest]]; reflexivity. Qed.

(** A character that is neither a digit nor a comma cuts the text in two
    parts that the substitution treats separately. *)
Lemma sub_split (c : ascii) (pre post : string) :
  isdigit c = false -> Ascii.eqb c "," = false ->
  sub_digit_comma_digit (pre ++ String c post)
  = (sub_digit_comma_digit pre ++ String c (sub_digit_comma_digit post))%string.
Proof.
  intros Hd Hc. revert pre.
  assert (Hhead : sub_digit_comma_digit (String c post)
                  = String c (sub_digit_comma_digit post)).
  { rewrite sub_unfold. destruct post as [| x [| y rest]]; try reflexivity.
    rewrite Hd. reflexivity. }
  induction pre as [pre IH] using string_length_ind.
  destruct pre as [| a [| x [| b rest]]].
  - exact Hhead.
  - cbn [append]. rewrite sub_unfold. destruct post as [| y post'].
    + rewrite Hhead. reflexivity.
    + rewrite Hc, andb_false_r. cbn [andb]. rewrite Hhead. reflexivity.
  - change ((String a (String x "") ++ String c post)%string)
      with (String a (String x (String c post))).
    rewrite sub_unfold, Hd, andb_false_r.
    change (String x (String c post)) with ((String x "" ++ String c post)%string).
    rewrite (IH (String x "")) by (simpl; lia). reflexivity.
  - change ((String a (String x (String b rest)) ++ String c post)%string)
      with (String a (String x (String b (rest ++ String c post)%string))).
    rewrite sub_unfold, (sub_unfold a (String x (String b rest))).
    destruct (isdigit a && Ascii.eqb x "," && isdigit b).
    + rewrite (IH rest) by (simpl; lia). reflexivity.
    + change (String x (String b (rest ++ String c post)%string))
        with ((String x (String b rest) ++ String c post)%string).
      rewrite (IH (String x (String b rest))) by (simpl; lia). reflexivity.
Qed.

(** A text without the pattern is left as it is. *)
Lemma sub_fixed (s : string) :
  has_digit_comma_digit s = false -> sub_digit_comma_digit s = s.
Proof.
  induction s as [| a tl IH]; intro H; [reflexivity |].
  rewrite sub_unfold. destruct tl as [| c [| b rest]].
  - reflexivity.
  - reflexivity.
  - cbn [has_digit_comma_digit] in H. apply orb_false_iff in H. destruct H as [H1 H2].
    rewrite H1. f_equal. now apply IH.
Qed.

(** The substitution removes commas and nothing else. *)
Lemma sub_only_commas (s : string) :
  without_commas (sub_digit_comma_digit s) = without_commas s.
Proof.
  induction s as [s IH] using string_length_ind.
  destruct s as [| a [| c [| b rest]]]; try reflexivity.
  rewrite sub_unfold.
  destruct (isdigit a && Ascii.eqb c "," && isdigit b) eqn:E.
  - apply andb_true_iff in E. destruct E as [E Eb].
    apply andb_true_iff in E. destruct E as [Ea Ec].
    cbn [without_commas]. rewrite Ec, (IH rest) by (simpl; lia). reflexivity.
  - cbn [without_commas]. rewrite (IH (String c (String b rest))) by (simpl; lia).
    reflexivity.
Qed.

(** C3 (the code at the failing input).  The compact array in
    [{"a":[1,2,3]}] is valid JSON; one pass of the cleaning turns it into
    [{"a":[12,3]}], which parses, and a second pass into [{"a":[123]}]:
    cleaning the cleaned text does change it. *)
Theorem clean_response_twice_compact_array :
  loads (quoted "{'a':[1,2,3]}") = Some (JObject [("a", JArray [JInt 1; JInt 2; JInt 3])])
  /\ clean_response (quoted "{'a':[1,2,3]}") = quoted "{'a':[12,3]}"
  /\ loads (clean_response (quoted "{'a':[1,2,3]}"))
     = Some (JObject [("a", JArray [JInt 12; JInt 3])])
  /\ clean_response (clean_response (quoted "{'a':[1,2,3]}")) = quoted "{'a':[123]}"
  /\ clean_response (clean_response (quoted "{'a':[1,2,3]}"))
     <> clean_response (quoted "{'a':[1,2,3]}").
Proof. repeat split; vm_compute; try reflexivity; discriminate. Qed.

(** C4 (as stated, refuted).  The characters of a quoted string value are
    not always left unchanged: the value ["1,2"] loses its comma. *)
Lemma clean_response_alters_quoted_digits :
  ~ (forall response key value,
        loads response = Some (JObject [(key, JString value)]) ->
        loads (clean_response response) = Some (JObject [(key, JString value)])).
Proof.
  intro H. specialize (H (quoted "{'s': '1,2'}") "s" "1,2").
  assert (E : loads (quoted "{'s': '1,2'}") = Some (JObject [("s", JString "1,2")]))
    by (vm_compute; reflexivity).
  specialize (H E). vm_compute in H. discriminate.
Qed.

(** C4 (amended).  The substitution looks at digits and commas only, not
    at quotes: it removes commas and nothing else; a text in which no
    comma stands between two digits is left as it is; and a quoted string
    in which no comma stands between two digits comes out unchanged,
    whatever surrounds it.  So [{"v": 1,250,000}] is repaired and parses
    to [{"v": 1250000}], and the value ["a,b"] survives. *)
Theorem clean_response_commas (response before value after : string) :
  strip_fences response
    = (before ++ String dquote (value ++ String dquote after))%string ->
  has_digit_comma_digit value = false ->
  clean_response response
    = (sub_digit_comma_digit before
       ++ String dquote (value ++ String dquote (sub_digit_comma_digit after)))%string
  /\ without_commas (clean_response response) = without_commas (strip_fences response)
  /\ (has_digit_comma_digit (strip_fences response) = false ->
      clean_response response = strip_fences response)
  /\ loads (clean_response (quoted "{'v': 1,250,000}"))
     = Some (JObject [("v", JInt 1250000)])
  /\ clean_response (quoted "{'s': 'a,b'}") = quoted "{'s': 'a,b'}"
  /\ loads (clean_response (quoted "{'s': 'a,b'}"))
     = Some (JObject [("s", JString "a,b")]).
Proof.
  intros Hsplit Hvalue.
  assert (Hq : isdigit dquote = false /\ Ascii.eqb dquote "," = false)
    by (split; reflexivity).
  destruct Hq as [Hqd Hqc].
  split; [| split; [| split; [| repeat split; vm_compute; reflexivity]]].
  - unfold clean_response. rewrite Hsplit.
    rewrite sub_split by assumption. f_equal. f_equal.
    rewrite sub_split by assumption. f_equal.
    now apply sub_fixed.
  - apply sub_only_commas.
  - apply sub_fixed.
Qed.

(** The amended statement on the fenced response
    [{"s": "a,b", "n": 1,250}]. *)
Lemma clean_response_commas_fenced :
  let response := ("```json " ++ quoted "{'s': 'a,b', 'n': 1,250}" ++ " ```")%string in
  strip_fences response
    = (quoted "{'s': " ++ String dquote ("a,b" ++ String dquote (quoted ", 'n': 1,250}")))%string
  /\ has_digit_comma_digit "a,b" = false
  /\ clean_response response
     = (sub_digit_comma_digit (quoted "{'s': ")
        ++ String dquote
             ("a,b" ++ String dquote (sub_digit_comma_digit (quoted ", 'n': 1,250}"))))%string
  /\ clean_response response = quoted "{'s': 'a,b', 'n': 1250}".
Proof.
  cbv zeta.
  assert (H1 : strip_fences ("```json " ++ quoted "{'s': 'a,b', 'n': 1,250}" ++ " ```")%string
    = (quoted "{'s': " ++ String dquote ("a,b" ++ String dquote (quoted ", 'n': 1,250}")))%string)
    by (vm_compute; reflexivity).
  assert (H2 : has_digit_comma_digit "a,b" = false) by reflexivity.
  split; [exact H1 |]. split; [exact H2 |]. split.
  - exact (proj1 (clean_response_commas _ _ _ _ H1 H2)).
  - vm_compute. reflexivity.
Defined.

End JsonRepairFacts.

(** ** Retry bound of the external-call layer ([_make_request]) *)
Module RetryFacts.
Import Exn.

Import RetryNotions.

Lemma rate_limited_retryable {B : Type} (r : reply B) :
  rate_limited r = true -> retryable r = true.
Proof. destruct r; simpl; congruence. Qed.

Lemma is_http_error_429 (c : Z) : (c =? 429) = true -> is_http_error c = true.
Proof. intro H. apply Z.eqb_eq in H. subst. reflexivity. Qed.

Lemma count_requests_cons2 (s : Z) (trace : list event) :
  count_requests (Request :: Sleep s :: trace) = S (count_requests trace).
Proof. reflexivity. Qed.

Lemma sleeps_cons2 (s : Z) (trace : list event) :
  sleeps (Request :: Sleep s :: trace) = s :: sleeps trace.
Proof. reflexivity. Qed.

Module Twitter.
Import TwitterAPIClient.

(** [_make_request] on a reply that it retries. *)
Lemma tw_make_request_retry {B : Type} (self : client) (srv : server B) (rc : nat) :
  retryable (srv 0%nat) = true ->
  _make_request self srv rc =
  if lt_dec rc (max_retries self)
  then (Request :: Sleep (if rate_limited (srv 0%nat) then 10 else 2)
          :: fst (_make_request self (later srv) (S rc)),
        snd (_make_request self (later srv) (S rc)))
  else ([Request], Raise (tw_exhausted (srv 0%nat))).
Proof.
  intro H. rewrite _make_request_equation_1.
  destruct (srv 0%nat) as [c body | |]; simpl in H; [ | | discriminate].
  - simp _make_request. rewrite (is_http_error_429 c H). simp _make_request.
    rewrite H. simp _make_request. simpl rate_limited. rewrite H.
    destruct (lt_dec rc (max_retries self)); simp _make_request; reflexivity.
  - simp _make_request.
    destruct (lt_dec rc (max_retries self)); simp _make_request; reflexivity.
Qed.

(** Replies that are retried until the retries are used up: exactly
    [max_retries - retry_count] further requests follow the first one. *)
Lemma tw_make_request_exhausted {B : Type} (self : client) (n : nat) :
  forall (srv : server B) (rc : nat),
  (max_retries self - rc = n)%nat -> (rc <= max_retries self)%nat ->
  (forall k, (k <= n)%nat -> retryable (srv k) = true) ->
  count_requests (fst (_make_request self srv rc)) = S n
  /\ snd (_make_request self srv rc) = Raise (tw_exhausted (srv n)).
Proof.
  induction n as [| n IH]; intros srv rc Hn Hrc Hsrv.
  - rewrite tw_make_request_retry by (apply Hsrv; lia).
    destruct (lt_dec rc (max_retries self)); [lia |]. split; reflexivity.
  - rewrite tw_make_request_retry by (apply Hsrv; lia).
    destruct (lt_dec rc (max_retries self)); [| lia].
    cbn [fst snd]. rewrite count_requests_cons2.
    destruct (IH (later srv) (S rc)) as [Hc Hr]; try lia.
    { intros k Hk. apply Hsrv. lia. }
    split; [now rewrite Hc | exact Hr].
Qed.

(** Under rate limiting every pause is the fixed 10 seconds. *)
Lemma tw_make_request_rate_limited_sleeps {B : Type} (self : client) (n : nat) :
  forall (srv : server B) (rc : nat),
  (max_retries self - rc = n)%nat -> (rc <= max_retries self)%nat ->
  (forall k, (k <= n)%nat -> rate_limited (srv k) = true) ->
  sleeps (fst (_make_request self srv rc)) = repeat 10 n.
Proof.
  induction n as [| n IH]; intros srv rc Hn Hrc Hsrv.
  - rewrite tw_make_request_retry by (apply rate_limited_retryable, Hsrv; lia).
    destruct (lt_dec rc (max_retries self)); [lia |]. reflexivity.
  - rewrite tw_make_request_retry by (apply rate_limited_retryable, Hsrv; lia).
    destruct (lt_dec rc (max_retries self)); [| lia].
    rewrite (Hsrv 0%nat) by lia. cbn [fst]. rewrite sleeps_cons2.
    cbn [repeat]. f_equal.
    apply IH; try lia. intros k Hk. apply Hsrv. lia.
Qed.

(** Whatever the server replies, the number of requests is bounded. *)
Lemma tw_make_request_bounded {B : Type} (self : client) (srv : server B) (rc : nat) :
  (count_requests (fst (_make_request self srv rc)) <= S (max_retries self - rc))%nat.
Proof.
  remember (max_retries self - rc)%nat as n eqn:Hn. revert srv rc Hn.
  induction n as [| n IH]; intros srv rc Hn;
    (destruct (retryable (srv 0%nat)) eqn:Hr;
     [ rewrite tw_make_request_retry by assumption;
       destruct (lt_dec rc (max_retries self));
       [ cbn [fst]; rewrite count_requests_cons2;
         try (specialize (IH (later srv) (S rc))); lia
       | unfold count_requests; simpl; lia ]
     | rewrite _make_request_equation_1;
       destruct (srv 0%nat) as [c body | |]; simpl in Hr; try discriminate;
       simp _make_request;
       [ destruct (is_http_error c); simp _make_request;
         [ rewrite Hr; simp _make_request;
           destruct (c =? 404); simp _make_request;
           [ | destruct ((c =? 401) || (c =? 403)); simp _make_request ]
         | ]
       | ];
       unfold count_requests; simpl; lia ]).
Qed.

End Twitter.

Module Grok.
Import GrokClient.

(** [_make_request] on a reply that it retries. *)
Lemma gk_make_request_retry (self : client) (srv : server string) (rc : nat) :
  retryable (srv 0%nat) = true ->
  _make_request self srv rc =
  if lt_dec rc (max_retries self)
  then (Request :: Sleep (if rate_limited (srv 0%nat) then 2 ^ Z.of_nat rc else 2)
          :: fst (_make_request self (later srv) (S rc)),
        snd (_make_request self (later srv) (S rc)))
  else ([Request], Raise (gk_exhausted (srv 0%nat))).
Proof.
  intro H. rewrite _make_request_equation_1.
  destruct (srv 0%nat) as [c body | |]; simpl in H; [ | | discriminate].
  - simp _make_request. rewrite (is_http_error_429 c H). simp _make_request.
    rewrite H. simp _make_request. simpl rate_limited. rewrite H.
    destruct (lt_dec rc (max_retries self)); simp _make_request; reflexivity.
  - simp _make_request.
    destruct (lt_dec rc (max_retries self)); simp _make_request; reflexivity.
Qed.

(** Replies that are retried until the retries are used up: exactly
    [max_retries - retry_count] further requests follow the first one. *)
Lemma gk_make_request_exhausted (self : client) (n : nat) :
  forall (srv : server string) (rc : nat),
  (max_retries self - rc = n)%nat -> (rc <= max_retries self)%nat ->
  (forall k, (k <= n)%nat -> retryable (srv k) = true) ->
  count_requests (fst (_make_request self srv rc)) = S n
  /\ snd (_make_request self srv rc) = Raise (gk_exhausted (srv n)).
Proof.
  induction n as [| n IH]; intros srv rc Hn Hrc Hsrv.
  - rewrite gk_make_request_retry by (apply Hsrv; lia).
    destruct (lt_dec rc (max_retries self)); [lia |]. split; reflexivity.
  - rewrite gk_make_request_retry by (apply Hsrv; lia).
    destruct (lt_dec rc (max_retries self)); [| lia].
    cbn [fst snd]. rewrite count_requests_cons2.
    destruct (IH (later srv) (S rc)) as [Hc Hr]; try lia.
    { intros k Hk. apply Hsrv. lia. }
    split; [now rewrite Hc | exact Hr].
Qed.

(** Under rate limiting the pauses double: 1, 2, 4, ... seconds. *)
Lemma gk_make_request_rate_limited_sleeps (self : client) (n : nat) :
  forall (srv : server string) (rc : nat),
  (max_retries self - rc = n)%nat -> (rc <= max_retries self)%nat ->
  (forall k, (k <= n)%nat -> rate_limited (srv k) = true) ->
  sleeps (fst (_make_request self srv rc))
  = map (fun k => 2 ^ Z.of_nat k) (seq rc n).
Proof.
  induction n as [| n IH]; intros srv rc Hn Hrc Hsrv.
  - rewrite gk_make_request_retry by (apply rate_limited_retryable, Hsrv; lia).
    destruct (lt_dec rc (max_retries self)); [lia |]. reflexivity.
  - rewrite gk_make_request_retry by (apply rate_limited_retryable, Hsrv; lia).
    destruct (lt_dec rc (max_retries self)); [| lia].
    rewrite (Hsrv 0%nat) by lia. cbn [fst]. rewrite sleeps_cons2.
    cbn [seq map]. f_equal.
    apply IH; try lia. intros k Hk. apply Hsrv. lia.
Qed.

(** Whatever the server replies, the number of requests is bounded. *)
Lemma gk_make_request_bounded (self : client) (srv : server string) (rc : nat) :
  (count_requests (fst (_make_request self srv rc)) <= S (max_retries self - rc))%nat.
Proof.
  remember (max_retries self - rc)%nat as n eqn:Hn. revert srv rc Hn.
  induction n as [| n IH]; intros srv rc Hn;
    (destruct (retryable (srv 0%nat)) eqn:Hr;
     [ rewrite gk_make_request_retry by assumption;
       destruct (lt_dec rc (max_retries self));
       [ cbn [fst]; rewrite count_requests_cons2;
         try (specialize (IH (later srv) (S rc))); lia
       | unfold count_requests; simpl; lia ]
     | rewrite _make_request_equation_1;
       destruct (srv 0%nat) as [c body | |]; simpl in Hr; try discriminate;
       simp _make_request;
       [ destruct (is_http_error c); simp _make_request;
         [ rewrite Hr; simp _make_request;
           destruct ((c =? 401) || (c =? 403)); simp _make_request
         | ]
       | ];
       unfold count_requests; simpl; lia ]).
Qed.

End Grok.

(** C6.  Against a server that answers more than [max_retries]
    consecutive requests with HTTP 429, [_make_request] of either client
    issues the first request and exactly [max_retries] retries, then
    raises its rate-limit error; it never issues more than
    [max_retries + 1] requests whatever the server answers; consecutive
    timeouts are cut off after the same number of retries; and both
    clients are built with [max_retries = 3]. *)
Theorem retry_bound
  (tw : TwitterAPIClient.client) (gk : GrokClient.client)
  (tw_srv : server Json.json) (gk_srv : server string) (N : nat) :
  (N > TwitterAPIClient.max_retries tw)%nat ->
  (N > GrokClient.max_retries gk)%nat ->
  (forall k, (k < N)%nat -> rate_limited (tw_srv k) = true) ->
  (forall k, (k < N)%nat -> rate_limited (gk_srv k) = true) ->
  let tw_run := TwitterAPIClient._make_request tw tw_srv 0 in
  let gk_run := GrokClient._make_request gk gk_srv 0 in
  (snd tw_run = Raise (TwitterAPIError TwRateLimitExceeded)
   /\ count_requests (fst tw_run) = S (TwitterAPIClient.max_retries tw)
   /\ sleeps (fst tw_run) = repeat 10 (TwitterAPIClient.max_retries tw))
  /\ (snd gk_run = Raise (GrokAPIError GkRateLimitExceeded)
      /\ count_requests (fst gk_run) = S (GrokClient.max_retries gk)
      /\ sleeps (fst gk_run)
         = map (fun k => 2 ^ Z.of_nat k) (seq 0 (GrokClient.max_retries gk)))
  /\ (forall (srv : server Json.json) (rc : nat),
        (count_requests (fst (TwitterAPIClient._make_request tw srv rc))
         <= S (TwitterAPIClient.max_retries tw - rc))%nat)
  /\ (forall (srv : server string) (rc : nat),
        (count_requests (fst (GrokClient._make_request gk srv rc))
         <= S (GrokClient.max_retries gk - rc))%nat)
  /\ (forall srv : server Json.json,
        (forall k, (k <= TwitterAPIClient.max_retries tw)%nat -> srv k = Timeout) ->
        snd (TwitterAPIClient._make_request tw srv 0)
          = Raise (TwitterAPIError TwRequestTimeout)
        /\ count_requests (fst (TwitterAPIClient._make_request tw srv 0))
           = S (TwitterAPIClient.max_retries tw))
  /\ (forall srv : server string,
        (forall k, (k <= GrokClient.max_retries gk)%nat -> srv k = Timeout) ->
        snd (GrokClient._make_request gk srv 0)
          = Raise (GrokAPIError GkRequestTimeout)
        /\ count_requests (fst (GrokClient._make_request gk srv 0))
           = S (GrokClient.max_retries gk))
  /\ TwitterAPIClient.max_retries TwitterAPIClient.init = 3%nat
  /\ GrokClient.max_retries GrokClient.init = 3%nat.
Proof.
  intros HNtw HNgk Htw Hgk tw_run gk_run. subst tw_run gk_run.
  assert (Rtw : forall k, (k <= TwitterAPIClient.max_retries tw)%nat ->
                          rate_limited (tw_srv k) = true)
    by (intros k Hk; apply Htw; lia).
  assert (Rgk : forall k, (k <= GrokClient.max_retries gk)%nat ->
                          rate_limited (gk_srv k) = true)
    by (intros k Hk; apply Hgk; lia).
  repeat split.
  - destruct (Twitter.tw_make_request_exhausted tw (TwitterAPIClient.max_retries tw)
                tw_srv 0%nat) as [_ Hr]; try lia.
    { intros k Hk. apply rate_limited_retryable, Rtw, Hk. }
    rewrite Hr. specialize (Rtw _ (Nat.le_refl _)).
    destruct (tw_srv (TwitterAPIClient.max_retries tw)); simpl in *;
      try discriminate; reflexivity.
  - apply Twitter.tw_make_request_exhausted; try lia.
    intros k Hk. apply rate_limited_retryable, Rtw, Hk.
  - apply Twitter.tw_make_request_rate_limited_sleeps; try lia. exact Rtw.
  - destruct (Grok.gk_make_request_exhausted gk (GrokClient.max_retries gk)
                gk_srv 0%nat) as [_ Hr]; try lia.
    { intros k Hk. apply rate_limited_retryable, Rgk, Hk. }
    rewrite Hr. specialize (Rgk _ (Nat.le_refl _)).
    destruct (gk_srv (GrokClient.max_retries gk)); simpl in *;
      try discriminate; reflexivity.
  - apply Grok.gk_make_request_exhausted; try lia.
    intros k Hk. apply rate_limited_retryable, Rgk, Hk.
  - apply Grok.gk_make_request_rate_limited_sleeps; try lia. exact Rgk.
  - apply Twitter.tw_make_request_bounded.
  - apply Grok.gk_make_request_bounded.
  - destruct (Twitter.tw_make_request_exhausted tw (TwitterAPIClient.max_retries tw)
                srv 0%nat) as [_ Hr]; try lia.
    { intros k Hk. rewrite H by exact Hk. reflexivity. }
    rewrite Hr, H by lia. reflexivity.
  - apply Twitter.tw_make_request_exhausted; try lia.
    intros k Hk. rewrite H by exact Hk. reflexivity.
  - destruct (Grok.gk_make_request_exhausted gk (GrokClient.max_retries gk)
                srv 0%nat) as [_ Hr]; try lia.
    { intros k Hk. rewrite H by exact Hk. reflexivity. }
    rewrite Hr, H by lia. reflexivity.
  - apply Grok.gk_make_request_exhausted; try lia.
    intros k Hk. rewrite H by exact Hk. reflexivity.
Qed.

(** Five consecutive 429 replies against the clients as built: four
    requests each, pauses of 10, 10, 10 and of 1, 2, 4 seconds. *)
Lemma retry_bound_five_429 :
  let tw_srv : server Json.json := fun _ => Response 429 Json.JNull in
  let gk_srv : server string := fun _ => Response 429 "" in
  (5 > TwitterAPIClient.max_retries TwitterAPIClient.init)%nat
  /\ (5 > GrokClient.max_retries GrokClient.init)%nat
  /\ (forall k, (k < 5)%nat -> rate_limited (tw_srv k) = true)
  /\ (forall k, (k < 5)%nat -> rate_limited (gk_srv k) = true)
  /\ snd (TwitterAPIClient._make_request TwitterAPIClient.init tw_srv 0)
     = Raise (TwitterAPIError TwRateLimitExceeded)
  /\ count_requests (fst (TwitterAPIClient._make_request TwitterAPIClient.init tw_srv 0))
     = 4%nat
  /\ snd (GrokClient._make_request GrokClient.init gk_srv 0)
     = Raise (GrokAPIError GkRateLimitExceeded)
  /\ count_requests (fst (GrokClient._make_request GrokClient.init gk_srv 0)) = 4%nat.
Proof.
  cbv zeta.
  assert (H1 : (5 > TwitterAPIClient.max_retries TwitterAPIClient.init)%nat) by (simpl; lia).
  assert (H2 : (5 > GrokClient.max_retries GrokClient.init)%nat) by (simpl; lia).
  assert (H3 : forall k, (k < 5)%nat ->
                 rate_limited ((fun _ => Response 429 Json.JNull) k : reply Json.json) = true)
    by (intros; reflexivity).
  assert (H4 : forall k, (k < 5)%nat ->
                 rate_limited ((fun _ => Response 429 "") k : reply string) = true)
    by (intros; reflexivity).
  pose proof (retry_bound TwitterAPIClient.init GrokClient.init
                (fun _ => Response 429 Json.JNull) (fun _ => Response 429 "") 5
                H1 H2 H3 H4) as R.
  cbv zeta in R. destruct R as ((T1 & T2 & _) & (G1 & G2 & _) & _).
  repeat split; assumption.
Defined.

End RetryFacts.

(** ** Pool-key derivation ([PeerPoolManager.generate_pool_key]) *)
Module PoolKeyFacts.
  Import Py PyFacts PeerPoolManager.

Import PoolKeyNotions.

Lemma range_agrees_small : forallb range_agrees (map Z.of_nat (seq 0 (Z.to_nat 10000))) = true.
Proof. vm_compute. reflexivity. Qed.

Lemma follower_range_exact (f : Z) :
  0 <= f < 2 ^ 53 -> follower_range f = Some (tier_range f).
Proof.
  intros [H0 H53]. destruct (Z_lt_le_dec f 10000) as [Hs | Hl].
  - pose proof range_agrees_small as Hall. rewrite forallb_forall in Hall.
    assert (Hin : In f (map Z.of_nat (seq 0 (Z.to_nat 10000)))).
    { apply in_map_iff. exists (Z.to_nat f). split; [lia |]. apply in_seq. lia. }
    specialize (Hall f Hin). unfold range_agrees in Hall.
    destruct (follower_range f) as [[a b] |]; [| discriminate].
    apply andb_true_iff in Hall. destruct Hall as [Ha Hb].
    apply Z.eqb_eq in Ha, Hb. subst. now destruct (tier_range f).
  - unfold follower_range, tier_range.
    assert (E500 : (f <? 500) = false) by (apply Z.ltb_ge; lia).
    assert (E1000 : (f <? 1000) = false) by (apply Z.ltb_ge; lia).
    assert (E5000 : (f <? 5000) = false) by (apply Z.ltb_ge; lia).
    assert (E10000 : (f <? 10000) = false) by (apply Z.ltb_ge; lia).
    rewrite E500, E1000, E5000, E10000.
    rewrite int_mul_half, int_mul_two by lia. reflexivity.
Qed.

Lemma pool_bounds_exact (f : Z) :
  0 <= f < 2 ^ 53 ->
  pool_bounds f = Some (fst (tier_range f) / 100 * 100, snd (tier_range f) / 100 * 100).
Proof.
  intro H. unfold pool_bounds. rewrite follower_range_exact by assumption.
  now destruct (tier_range f).
Qed.

#[local] Ltac Zify.zify_post_hook ::= Z.to_euclidean_division_equations.

Lemma follower_range_sound (f a b : Z) :
  0 <= f -> follower_range f = Some (a, b) -> in_range f a b.
Proof.
  intros Hf H. unfold in_range. destruct (Z.ltb_spec f 10000) as [Hs | Hl].
  - rewrite follower_range_exact in H by lia. now injection H as <-.
  - destruct (Z_lt_le_dec f (2 ^ 53)) as [H53 | H53].
    + rewrite follower_range_exact in H by lia. unfold tier_range in H.
      assert (E1000 : (f <? 1000) = false) by (apply Z.ltb_ge; lia).
      assert (E5000 : (f <? 5000) = false) by (apply Z.ltb_ge; lia).
      assert (E10000 : (f <? 10000) = false) by (apply Z.ltb_ge; lia).
      rewrite E1000, E5000, E10000 in H.
      assert (Hab : a = f / 2 /\ b = 2 * f) by (split; congruence).
      destruct Hab as [-> ->]. lia.
    + unfold follower_range in H.
      assert (E500 : (f <? 500) = false) by (apply Z.ltb_ge; lia).
      assert (E1000 : (f <? 1000) = false) by (apply Z.ltb_ge; lia).
      assert (E5000 : (f <? 5000) = false) by (apply Z.ltb_ge; lia).
      assert (E10000 : (f <? 10000) = false) by (apply Z.ltb_ge; lia).
      rewrite E500, E1000, E5000, E10000 in H.
      destruct (int_mul_large f H53) as [(a0 & Ha & Hb & Hbig) | [Hnone _]].
      * rewrite Ha, Hb in H.
        assert (Hab : a = a0 /\ b = 4 * a0) by (split; congruence).
        destruct Hab as [-> ->].
        assert (2 ^ 52 = 4503599627370496) by reflexivity. lia.
      * rewrite Hnone in H. destruct (int_mul f 0.5%float); discriminate.
Qed.

(** The derivation returns for every count below [2^1022]. *)
Lemma follower_range_total (f : Z) :
  0 <= f < 2 ^ 1022 -> follower_range f <> None.
Proof.
  intros [H0 Hlt]. destruct (Z_lt_le_dec f (2 ^ 53)) as [H53 | H53].
  - rewrite follower_range_exact by lia. discriminate.
  - unfold follower_range.
    assert (E500 : (f <? 500) = false)
      by (apply Z.ltb_ge; assert (2 ^ 53 = 9007199254740992) by reflexivity; lia).
    assert (E1000 : (f <? 1000) = false)
      by (apply Z.ltb_ge; assert (2 ^ 53 = 9007199254740992) by reflexivity; lia).
    assert (E5000 : (f <? 5000) = false)
      by (apply Z.ltb_ge; assert (2 ^ 53 = 9007199254740992) by reflexivity; lia).
    assert (E10000 : (f <? 10000) = false)
      by (apply Z.ltb_ge; assert (2 ^ 53 = 9007199254740992) by reflexivity; lia).
    rewrite E500, E1000, E5000, E10000.
    destruct (int_mul_large f H53) as [(a0 & Ha & Hb & _) | [_ Hbig]]; [| lia].
    rewrite Ha, Hb. discriminate.
Qed.

Ltac tier_cases f a b H :=
  unfold in_range in H;
  destruct (Z.ltb_spec f 10000);
  [ pose proof (f_equal fst H) as Ha; pose proof (f_equal snd H) as Hb;
    cbn [fst snd] in Ha, Hb; clear H; subst a b;
    unfold tier_range, tier in *;
    destruct (Z.ltb_spec f 1000); [| destruct (Z.ltb_spec f 5000);
      [| destruct (Z.ltb_spec f 10000)]];
    cbn [fst snd] in *; try lia
  | unfold tier in *;
    destruct (Z.ltb_spec f 1000); [lia |];
    destruct (Z.ltb_spec f 5000); [lia |];
    destruct (Z.ltb_spec f 10000); [lia |] ].

Lemma in_range_band (f a b : Z) :
  0 <= f -> in_range f a b ->
  let lo := a / 100 * 100 in
  let hi := b / 100 * 100 in
  0 <= lo <= hi /\ lo mod 100 = 0 /\ hi mod 100 = 0 /\ (20 <= f -> lo < hi).
Proof.
  intros Hf H lo hi. subst lo hi. tier_cases f a b H; lia.
Qed.

(** Across a tier boundary the ratio high/low strictly decreases
    (cross-multiplied, the lower band having a positive low bound). *)
Lemma in_range_ratio (f g a b a' b' : Z) :
  0 <= f -> 0 <= g -> in_range f a b -> in_range g a' b' ->
  tier g = tier f + 1 ->
  let lo := a / 100 * 100 in
  let hi := b / 100 * 100 in
  let lo' := a' / 100 * 100 in
  let hi' := b' / 100 * 100 in
  0 < lo -> hi' * lo < hi * lo'.
Proof.
  intros Hf Hg Hr Hr' Ht lo hi lo' hi' Hlo. subst lo hi lo' hi'.
  tier_cases f a b Hr; tier_cases g a' b' Hr'; try lia.
  - (* below 1000 against 1000..4999 *)
    remember (3 * f / 10 / 100) as x. remember (5 * f / 100) as X.
    remember (2 * g / 5 / 100) as c. remember (3 * g / 100) as C.
    assert (1 <= x <= 2) by lia. assert (16 * x <= X) by lia.
    assert (4 <= c) by lia. assert (C < 16 * c) by lia.
    nia.
  - (* 1000..4999 against 5000..9999 *)
    remember (2 * f / 5 / 100) as x. remember (3 * f / 100) as X.
    remember (g / 2 / 100) as c. remember (5 * g / 2 / 100) as C.
    assert (4 <= x <= 19) by lia. assert (7 * x <= X) by lia.
    assert (25 <= c) by lia. assert (C <= 5 * c + 4) by lia.
    nia.
  - (* 5000..9999 against 10000 and above *)
    remember (f / 2 / 100) as x. remember (5 * f / 2 / 100) as X.
    remember (a' / 100) as c. remember (b' / 100) as C.
    assert (25 <= x <= 49) by lia. assert (5 * x <= X) by lia.
    assert (50 <= c) by lia. assert (C <= 4 * c + 3) by lia.
    nia.
Qed.

(** C2 (as stated, refuted).  At 5000 followers the derivation does not
    return the key "finance_2000-15000". *)
Lemma pool_key_5000_not_2000_15000 :
  generate_pool_key "finance" 5000 <> Some "finance_2000-15000".
Proof. vm_compute. discriminate. Qed.

(** C2 (amended).  5000 is not below the threshold 5000, so the branch
    [followers < 10000] applies with the multipliers 0.5 and 2.5:
    [int(5000 * 0.5) = 2500], [int(5000 * 2.5) = 12500], and the key is
    "finance_2500-12500"; the multipliers 0.4 and 3.0 are those of the
    tier that ends at 4999. *)
Theorem pool_key_5000_finance :
  generate_pool_key "finance" 5000 = Some "finance_2500-12500"
  /\ follower_range 5000
     = match int_mul 5000 0.5%float, int_mul 5000 2.5%float with
       | Some lo, Some hi => Some (lo, hi)
       | _, _ => None
       end
  /\ follower_range 5000 = Some (2500, 12500)
  /\ follower_range 4999
     = match int_mul 4999 0.4%float, int_mul 4999 3.0%float with
       | Some lo, Some hi => Some (lo, hi)
       | _, _ => None
       end
  /\ generate_pool_key "finance" 4999 = Some "finance_1900-14900".
Proof. repeat split; vm_compute; reflexivity. Qed.

(** C5 (as stated, refuted).  [lowBound < highBound] does not hold for
    every non-negative follower count: at 0 followers both bounds are 0. *)
Lemma pool_bounds_not_always_strict :
  ~ (forall f lo hi, 0 <= f -> pool_bounds f = Some (lo, hi) -> lo < hi).
Proof.
  intro H. specialize (H 0 0 0). 
  assert (E : pool_bounds 0 = Some (0, 0)) by (vm_compute; reflexivity).
  specialize (H ltac:(lia) E). lia.
Qed.

(** C5 (amended).  For non-negative follower counts [f] and [g]: below
    [2^1022] the derivation returns bounds (beyond, the binary64 product
    may overflow and [int] raise); whenever it returns, both bounds are
    non-negative multiples of 100 with [lowBound <= highBound], strictly
    so from 20 followers on; and when [g] lies in the tier just above that
    of [f] (the boundaries being 1000, 5000, 10000) the ratio
    highBound/lowBound of [g] is strictly smaller than that of [f]
    (cross-multiplied; the low bound of [f] being positive).  Containment
    of [f] in its band is not part of the statement. *)
Theorem pool_bounds_band (f g : Z) :
  0 <= f -> 0 <= g ->
  (f < 2 ^ 1022 -> pool_bounds f <> None)
  /\ (forall lo hi lo' hi',
        pool_bounds f = Some (lo, hi) ->
        pool_bounds g = Some (lo', hi') ->
        0 <= lo <= hi /\ lo mod 100 = 0 /\ hi mod 100 = 0 /\
        (20 <= f -> lo < hi) /\
        (tier g = tier f + 1 -> 0 < lo -> hi' * lo < hi * lo')).
Proof.
  intros Hf Hg. split.
  - intro Hlt. unfold pool_bounds.
    pose proof (follower_range_total f (conj Hf Hlt)) as Ht.
    destruct (follower_range f) as [[a b] |]; [discriminate | congruence].
  - intros lo hi lo' hi' Hlo Hhi. unfold pool_bounds in Hlo, Hhi.
    destruct (follower_range f) as [[a b] |] eqn:Ef; [| discriminate].
    destruct (follower_range g) as [[a' b'] |] eqn:Eg; [| discriminate].
    injection Hlo as <- <-. injection Hhi as <- <-.
    pose proof (follower_range_sound f a b Hf Ef) as Rf.
    pose proof (follower_range_sound g a' b' Hg Eg) as Rg.
    pose proof (in_range_band f a b Hf Rf) as (B1 & B2 & B3 & B4).
    repeat (split; [assumption |]).
    intros Ht Hpos. now apply (in_range_ratio f g a b a' b').
Qed.

(** The amended statement at the boundary 999 / 1000: the bands are
    200-4900 and 400-3000. *)
Lemma pool_bounds_band_999_1000 :
  0 <= 999 /\ 0 <= 1000
  /\ pool_bounds 999 = Some (200, 4900)
  /\ pool_bounds 1000 = Some (400, 3000)
  /\ 0 <= 200 <= 4900 /\ 200 mod 100 = 0 /\ 4900 mod 100 = 0
  /\ (20 <= 999 -> 200 < 4900)
  /\ (tier 1000 = tier 999 + 1 -> 0 < 200 -> 3000 * 200 < 4900 * 400).
Proof.
  assert (H0 : 0 <= 999) by lia. assert (H1 : 0 <= 1000) by lia.
  assert (E0 : pool_bounds 999 = Some (200, 4900)) by (vm_compute; reflexivity).
  assert (E1 : pool_bounds 1000 = Some (400, 3000)) by (vm_compute; reflexivity).
  split; [exact H0 |]. split; [exact H1 |]. split; [exact E0 |]. split; [exact E1 |].
  exact (proj2 (pool_bounds_band 999 1000 H0 H1) 200 4900 400 3000 E0 E1).
Defined.

Example pool_key_661 : generate_pool_key "finance" 661 = Some "finance_100-3300".
Proof. vm_compute. reflexivity. Qed.

(** The three boundaries, evaluated: 24.5 > 7.5, 7.84.. > 5, 5.08.. > 4. *)
Example pool_bounds_at_boundaries :
  pool_bounds 999 = Some (200, 4900) /\ pool_bounds 1000 = Some (400, 3000) /\
  pool_bounds 4999 = Some (1900, 14900) /\ pool_bounds 5000 = Some (2500, 12500) /\
  pool_bounds 9999 = Some (4900, 24900) /\ pool_bounds 10000 = Some (5000, 20000).
Proof. repeat split; vm_compute; reflexivity. Qed.

(** A band need not contain the count it was derived from. *)
Example pool_bounds_no_containment : pool_bounds 10 = Some (0, 0).
Proof. vm_compute. reflexivity. Qed.

End PoolKeyFacts.

(** ** Shared peer pool ([PeerPoolManager]) *)
Module PeerPoolFacts.
Import Exn Db PeerPoolManager.

Import PeerPoolNotions.

Lemma same_entry_key (key name : string) (row : PeerPool) :
  same_entry key name row = true <-> entry_key row = (key, name).
Proof.
  unfold same_entry, entry_key. rewrite andb_true_iff, !String.eqb_eq.
  split; [intros [-> ->]; reflexivity | intro H; injection H; auto].
Qed.

Lemma existsb_same_entry (key name : string) (rows : list PeerPool) :
  existsb (same_entry key name) rows = true <-> In (key, name) (map entry_key rows).
Proof.
  rewrite existsb_exists, in_map_iff. split.
  - intros (row & Hin & H). exists row. split; [now apply same_entry_key | exact Hin].
  - intros (row & H & Hin). exists row. split; [exact Hin | now apply same_entry_key].
Qed.

Lemma refresh_first_keys (key name : string) (followers growth now : Z)
    (rows : list PeerPool) :
  map entry_key (refresh_first key name followers growth now rows) = map entry_key rows.
Proof.
  induction rows as [| row rest IH]; [reflexivity |]. simpl.
  destruct (same_entry key name row); simpl; [reflexivity | now rewrite IH].
Qed.

Lemma bump_first_keys (key name : string) (rows : list PeerPool) :
  map entry_key (bump_first key name rows) = map entry_key rows.
Proof.
  induction rows as [| row rest IH]; [reflexivity |]. simpl.
  destruct (same_entry key name row); simpl; [reflexivity | now rewrite IH].
Qed.

Lemma invalidate_first_keys (key name : string) (rows : list PeerPool) :
  map entry_key (invalidate_first key name rows) = map entry_key rows.
Proof.
  induction rows as [| row rest IH]; [reflexivity |]. simpl.
  destruct (same_entry key name row); simpl; [reflexivity | now rewrite IH].
Qed.

Lemma unique_entries_filter (keep : PeerPool -> bool) (table : list PeerPool) :
  unique_entries table -> unique_entries (filter keep table).
Proof.
  unfold unique_entries. induction table as [| row rest IH]; intro H; [constructor |].
  simpl in *. inversion H as [| ? ? Hnotin Hrest]; subst.
  destruct (keep row); [| now apply IH]. simpl. constructor; [| now apply IH].
  intro Hin. apply Hnotin. apply in_map_iff in Hin. destruct Hin as (r & Hr & Hin).
  apply in_map_iff. exists r. split; [exact Hr |]. apply filter_In in Hin. apply Hin.
Qed.


Lemma NoDup_snoc {A : Type} (l : list A) (x : A) :
  NoDup l -> ~ In x l -> NoDup (l ++ [x]).
Proof.
  induction l as [| a l IH]; intros Hnd Hx; simpl.
  - constructor; [intros [] | constructor].
  - inversion Hnd as [| ? ? Ha Hl]; subst. constructor.
    + rewrite in_app_iff. intros [Hin | [<- | []]]; [now apply Ha |].
      apply Hx. now left.
    + apply IH; [exact Hl |]. intro Hin. apply Hx. now right.
Qed.


(** A batch whose handles are pairwise distinct keeps the entries
    unique. *)
Lemma upsert_loop_unique (st : storage) (key niche_ : string) (now : Z)
    (peers : list peer) :
  forall (i : nat) (rows pending : list PeerPool) (added : nat)
         (rows' pending' : list PeerPool) (added' : nat),
  NoDup (map peer_handle peers) ->
  unique_entries (rows ++ pending) ->
  (forall row, In row pending ->
     pool_key row = key /\ ~ In (handle row) (map peer_handle peers)) ->
  upsert_loop st i key niche_ now peers rows pending added
    = Some (rows', pending', added') ->
  unique_entries (rows' ++ pending').
Proof.
  induction peers as [| p rest IH];
    intros i rows pending added rows' pending' added' Hnd Hu Hp H.
  - simpl in H. injection H as <- <- <-. exact Hu.
  - simpl in H. destruct (st i); [| discriminate].
    simpl in Hnd. inversion Hnd as [| ? ? Hfresh Hnd']; subst.
    destruct (existsb (same_entry key (peer_handle p)) rows) eqn:E.
    + eapply IH; [exact Hnd' | | | exact H].
      * unfold unique_entries in *. rewrite map_app, refresh_first_keys, <- map_app.
        exact Hu.
      * intros row Hin. destruct (Hp row Hin) as [Hk Hn]. split; [exact Hk |].
        intro Hc. apply Hn. now right.
    + eapply IH; [exact Hnd' | | | exact H].
      * unfold unique_entries in *. rewrite app_assoc, map_app. simpl.
        apply NoDup_snoc; [exact Hu |].
        change (entry_key _) with (key, peer_handle p).
        rewrite map_app, in_app_iff. intros [Hin | Hin].
        -- apply (proj2 (existsb_same_entry _ _ _)) in Hin. congruence.
        -- apply in_map_iff in Hin. destruct Hin as (row & Hr & Hin).
           destruct (Hp row Hin) as [_ Hn]. apply Hn. left.
           unfold entry_key in Hr. now injection Hr.
      * intros row Hin. apply in_app_iff in Hin. destruct Hin as [Hin | [<- | []]].
        -- destruct (Hp row Hin) as [Hk Hn]. split; [exact Hk |].
           intro Hc. apply Hn. now right.
        -- simpl. split; [reflexivity | exact Hfresh].
Qed.

Lemma usage_loop_keys (st : storage) (key : string) (handles : list string) :
  forall (i : nat) (rows rows' : list PeerPool),
  usage_loop st i key handles rows = Some rows' ->
  map entry_key rows' = map entry_key rows.
Proof.
  induction handles as [| name rest IH]; intros i rows rows' H; simpl in H.
  - now injection H as <-.
  - destruct (st i); [| discriminate].
    rewrite (IH _ _ _ H). apply bump_first_keys.
Qed.

(** X21.  Every operation of the pool keeps the entries unique, whatever the
    storage does, provided a batch given to [add_peers_to_pool] names each
    handle once. *)
Lemma pool_operations_keep_unique (self : manager) (st : storage)
    (table : list PeerPool) (now : Z) :
  unique_entries table ->
  (forall peers niche_ key n table',
      NoDup (map peer_handle peers) ->
      add_peers_to_pool self st table now peers niche_ key = Ok (n, table') ->
      unique_entries table')
  /\ (forall handles key, unique_entries (increment_usage self st table handles key))
  /\ (forall name key, unique_entries (mark_invalid self st table name key))
  /\ (forall days_old, unique_entries (snd (cleanup_stale_peers self st table now days_old)))
  /\ unique_entries (snd (cleanup_invalid_peers self st table)).
Proof.
  intro Hu. repeat split.
  - intros peers niche_ key n table' Hnd H. unfold add_peers_to_pool in H.
    destruct peers as [| p rest]; [injection H as <- <-; exact Hu |].
    destruct (pool_key_for (p :: rest) niche_ key) as [k |]; [| discriminate].
    destruct (upsert_loop st 0 k niche_ now (p :: rest) table [] 0)
      as [[[rows pending] added] |] eqn:E.
    + destruct (st (List.length (p :: rest)));
        injection H as <- <-; [| exact Hu].
      eapply upsert_loop_unique; [exact Hnd | | | exact E].
      * now rewrite app_nil_r.
      * intros row [].
    + injection H as <- <-. exact Hu.
  - intros handles key. unfold increment_usage.
    destruct handles as [| name rest]; [exact Hu |].
    destruct (usage_loop st 0 key (name :: rest) table) as [rows |] eqn:E; [| exact Hu].
    destruct (st (List.length (name :: rest))); [| exact Hu].
    unfold unique_entries. now rewrite (usage_loop_keys _ _ _ _ _ _ E).
  - intros name key. unfold mark_invalid.
    destruct (st 0%nat); [| exact Hu].
    destruct (existsb (same_entry key name) table); [| exact Hu].
    destruct (st 1%nat); [| exact Hu].
    unfold unique_entries. now rewrite invalidate_first_keys.
  - intro days_old. unfold cleanup_stale_peers.
    destruct (st 0%nat && st 1%nat); [| exact Hu]. now apply unique_entries_filter.
  - unfold cleanup_invalid_peers.
    destruct (st 0%nat && st 1%nat); [| exact Hu]. now apply unique_entries_filter.
Qed.

Lemma refresh_first_refreshed (key name : string) (followers growth now : Z)
    (rows : list PeerPool) :
  existsb (same_entry key name) rows = true ->
  exists row,
    In row (refresh_first key name followers growth now rows)
    /\ entry_key row = (key, name) /\ follower_count row = followers
    /\ growth_rate row = growth /\ last_validated row = now /\ is_valid row = true.
Proof.
  induction rows as [| r rest IH]; intro H; [discriminate |]. simpl in *.
  destruct (same_entry key name r) eqn:E.
  - eexists. split; [left; reflexivity |]. apply same_entry_key in E.
    unfold entry_key in *. simpl. auto.
  - destruct (IH H) as (row & Hin & Hrow). exists row. split; [now right | exact Hrow].
Qed.

(** X22.  The upsert of [add_peers_to_pool] across two calls: a handle added
    to a pool key and added again is stored once; the second call inserts
    nothing and leaves the row with the metrics of the second peer,
    [last_validated] at the time of the second call and [is_valid] set.
    A row inserted by the first call starts with [times_used = 0]. *)
Lemma add_same_handle_twice (self : manager) (table : list PeerPool)
    (now1 now2 : Z) (p1 p2 : peer) (niche_ : string) (c : ascii) (k : string) :
  unique_entries table ->
  peer_handle p2 = peer_handle p1 ->
  exists n1 t1 t2,
    add_peers_to_pool self healthy table now1 [p1] niche_ (Some (String c k)) = Ok (n1, t1)
    /\ add_peers_to_pool self healthy t1 now2 [p2] niche_ (Some (String c k)) = Ok (0%nat, t2)
    /\ unique_entries t2
    /\ List.length t2 = List.length t1
    /\ (exists row,
          In row t2 /\ entry_key row = (String c k, peer_handle p1)
          /\ follower_count row = followers_count p2
          /\ growth_rate row = estimated_30d_growth p2
          /\ last_validated row = now2 /\ is_valid row = true)
    /\ (~ In (String c k, peer_handle p1) (map entry_key table) ->
        n1 = 1%nat
        /\ exists row, In row t1 /\ entry_key row = (String c k, peer_handle p1)
                       /\ times_used row = 0).
Proof.
  intros Hu Hh. set (key := String c k).
  assert (Hfirst : exists n1 t1,
            add_peers_to_pool self healthy table now1 [p1] niche_ (Some key) = Ok (n1, t1)
            /\ unique_entries t1
            /\ existsb (same_entry key (peer_handle p1)) t1 = true
            /\ (~ In (key, peer_handle p1) (map entry_key table) ->
                n1 = 1%nat
                /\ exists row, In row t1 /\ entry_key row = (key, peer_handle p1)
                               /\ times_used row = 0)).
  { unfold add_peers_to_pool, pool_key_for, healthy. cbn [upsert_loop key].
    destruct (existsb (same_entry (String c k) (peer_handle p1)) table) eqn:E.
    - eexists _, _. split; [reflexivity |]. rewrite app_nil_r. split; [| split].
      + unfold unique_entries. now rewrite refresh_first_keys.
      + apply existsb_same_entry. rewrite refresh_first_keys.
        now apply existsb_same_entry.
      + intro Hn. exfalso. apply Hn. now apply existsb_same_entry.
    - eexists _, _. split; [reflexivity |]. cbn [app]. split; [| split].
      + unfold unique_entries. rewrite map_app. cbn [map].
        change (entry_key _) with (String c k, peer_handle p1).
        apply NoDup_snoc; [exact Hu |].
        intro Hin. apply (proj2 (existsb_same_entry _ _ _)) in Hin. congruence.
      + apply existsb_same_entry. rewrite map_app, in_app_iff. right. now left.
      + intros _. split; [reflexivity |]. eexists. split.
        * apply in_app_iff. right. left. reflexivity.
        * split; reflexivity. }
  destruct Hfirst as (n1 & t1 & H1 & Hu1 & Hex & Hnew).
  unfold key in *. clear key.
  exists n1, t1. eexists. split; [exact H1 |].
  unfold add_peers_to_pool at 1. unfold pool_key_for, healthy. cbn [upsert_loop].
  rewrite Hh, Hex. rewrite app_nil_r.
  split; [reflexivity |]. split; [| split; [| split]].
  - unfold unique_entries. now rewrite refresh_first_keys.
  - rewrite <- (length_map entry_key), refresh_first_keys. apply length_map.
  - now apply refresh_first_refreshed.
  - exact Hnew.
Qed.

(** C8 (the code at the failing input).  A batch that names the handle
    "alice" twice, added to the empty pool: both peers are inserted, the
    call reports 2, and the table holds two rows for the same
    (pool key, handle). *)
Theorem add_peers_duplicate_in_batch :
  let alice := {| peer_handle := "alice"; followers_count := 2000;
                  estimated_30d_growth := 100 |} in
  let row := {| handle := "alice"; pool_key := "finance_100-3300"; niche := "finance";
                follower_count := 2000; growth_rate := 100; is_valid := true;
                last_validated := 1000; times_used := 0 |} in
  unique_entries []
  /\ add_peers_to_pool init healthy [] 1000 [alice; alice] "finance"
       (Some "finance_100-3300")
     = Ok (2%nat, [row; row])
  /\ ~ unique_entries [row; row].
Proof.
  cbv zeta. split; [constructor |]. split; [vm_compute; reflexivity |].
  unfold unique_entries. simpl. intro H. inversion H as [| ? ? Hn _]; subst.
  apply Hn. now left.
Qed.

End PeerPoolFacts.

(** ** Tweet cache ([CacheManager]) *)
Module TweetCacheFacts.
Import Db CacheManager.

Import TweetCacheNotions.








End TweetCacheFacts.

(** ** Storage failures inside cache and pool operations *)
Module StorageFaultFacts.
Import Exn Db.



End StorageFaultFacts.

(** ** Orchestration ([AnalysisService]) *)
Module AnalysisFacts.
Import Exn Db AnalysisService.

Import AnalysisNotions.

(** What [_get_or_create_peers] does on a miss of the per-user cache. *)
Lemma get_or_create_peers_miss (svc : services) (user : User) (p : profile)
    (force_refresh : bool) (now : Z) (st : state) :
  peer_cache_hit (db st) user force_refresh now = false ->
  _get_or_create_peers svc user p force_refresh now st
  = match PeerMatcher.find_peers (_get_fully_profiled_peers svc) p 5 with
    | Ok peers =>
        (Ok (map FreshPeer peers),
         {| db := {| users := users (db st);
                     user_profiles := user_profiles (db st);
                     peer_matches :=
                       filter (fun row => negb (pm_user_id row =? id user)%nat)
                              (peer_matches (db st))
                       ++ map (peer_match_row user now) peers;
                     analyses := analyses (db st);
                     peer_pools := peer_pools (db st);
                     next_id := next_id (db st) |};
            calls := calls st ++ [CallFindPeers (handle p) 5] |})
    | Raise e =>
        (Raise e, {| db := db st; calls := calls st ++ [CallFindPeers (handle p) 5] |})
    end.
Proof.
  intro Hmiss. unfold _get_or_create_peers, bind, read, external, commit, ret.
  rewrite Hmiss. cbn [db calls].
  destruct (PeerMatcher.find_peers (_get_fully_profiled_peers svc) p 5); reflexivity.
Qed.

(** What it does on a hit: the stored profiles, no call, no write. *)
Lemma get_or_create_peers_hit (svc : services) (user : User) (p : profile)
    (force_refresh : bool) (now : Z) (st : state) :
  peer_cache_hit (db st) user force_refresh now = true ->
  _get_or_create_peers svc user p force_refresh now st
  = (Ok (map (fun row => CachedPeer (peer_profile row)) (cached_peers (db st) user now)), st).
Proof.
  intro Hhit. unfold _get_or_create_peers, bind, read, ret. now rewrite Hhit.
Qed.

Lemma peer_cache_miss_iff (d : database) (user : User) (force_refresh : bool) (now : Z) :
  peer_cache_hit d user force_refresh now = false
  <-> force_refresh = true \/ (List.length (cached_peers d user now) < 5)%nat.
Proof.
  unfold peer_cache_hit. rewrite andb_false_iff, negb_false_iff, Nat.leb_gt. tauto.
Qed.

(** C1 (as stated, refuted).  It is not so that on a miss of the per-user
    cache the language model is asked for peers only when the shared pool
    has none for the user's key: in the scenario the pool answers with
    five peers and [find_peers] is called all the same. *)
Lemma peer_resolution_ignores_pool_hit :
  ~ (forall svc user p force_refresh now st handles,
        peer_cache_hit (db st) user force_refresh now = false ->
        PeerPoolManager.get_peers_from_pool PeerPoolManager.init healthy
          (peer_pools (db st)) now (niche p) (followers_count p) 5 true = Ok handles ->
        handles <> [] ->
        ~ In (CallFindPeers (handle p) 5)
             (calls (snd (_get_or_create_peers svc user p force_refresh now st)))).
Proof.
  intro H.
  apply (H scenario_services alice alice_profile false 2000 scenario_state
           ["p1"; "p2"; "p3"; "p4"; "p5"]).
  - reflexivity.
  - vm_compute. reflexivity.
  - discriminate.
  - vm_compute. left. reflexivity.
Qed.

(** C1 (amended).  On a miss of the per-user cache (a forced refresh, or
    fewer than five cached assignments that have not expired)
    [_get_or_create_peers] asks the language model for five peers at
    once, by one call of [find_peers]; the shared pool is neither read (the
    outcome is the same whatever the pool holds) nor written; the
    discovered peers are returned and replace the user's cached
    assignments, with a 24 hour expiry, and an exception of [find_peers]
    is the outcome of the step with the database untouched. *)
Theorem peer_resolution_on_cache_miss
    (svc : services) (user : User) (p : profile) (force_refresh : bool)
    (now : Z) (st : state) :
  force_refresh = true \/ (List.length (cached_peers (db st) user now) < 5)%nat ->
  let out := _get_or_create_peers svc user p force_refresh now st in
  calls (snd out) = calls st ++ [CallFindPeers (handle p) 5]
  /\ peer_pools (db (snd out)) = peer_pools (db st)
  /\ (forall pool,
        _get_or_create_peers svc user p force_refresh now (with_pool st pool)
        = (fst out, with_pool (snd out) pool))
  /\ match PeerMatcher.find_peers (_get_fully_profiled_peers svc) p 5 with
     | Ok peers =>
         fst out = Ok (map FreshPeer peers)
         /\ peer_matches (db (snd out))
            = filter (fun row => negb (pm_user_id row =? id user)%nat)
                     (peer_matches (db st))
              ++ map (peer_match_row user now) peers
         /\ (forall row, In row (map (peer_match_row user now) peers) ->
                         pm_expires_at row = now + hours 24)
     | Raise e => fst out = Raise e /\ db (snd out) = db st
     end.
Proof.
  intros Hmiss out. apply peer_cache_miss_iff in Hmiss. subst out.
  rewrite (get_or_create_peers_miss svc user p force_refresh now st Hmiss).
  assert (Hmiss' : forall pool,
            peer_cache_hit (db (with_pool st pool)) user force_refresh now = false)
    by (intro pool; exact Hmiss).
  split; [| split; [| split]].
  - destruct (PeerMatcher.find_peers _ p 5); reflexivity.
  - destruct (PeerMatcher.find_peers _ p 5); reflexivity.
  - intro pool. rewrite (get_or_create_peers_miss _ _ _ _ _ _ (Hmiss' pool)).
    destruct (PeerMatcher.find_peers _ p 5); reflexivity.
  - destruct (PeerMatcher.find_peers _ p 5) as [peers | e]; cbn [fst snd db].
    + split; [reflexivity |]. split; [reflexivity |].
      intros row Hin. apply in_map_iff in Hin. destruct Hin as (q & <- & _). reflexivity.
    + split; reflexivity.
Qed.

(** The theorem in the scenario: the pool has a hit, the model is asked,
    "bob" is returned and cached, the pool is as before. *)
Lemma peer_resolution_on_cache_miss_scenario :
  let out := _get_or_create_peers scenario_services alice alice_profile false 2000
                                  scenario_state in
  (false = true \/ (List.length (cached_peers (db scenario_state) alice 2000) < 5)%nat)
  /\ PeerPoolManager.get_peers_from_pool PeerPoolManager.init healthy
       (peer_pools (db scenario_state)) 2000 "finance" 5000 5 true
     = Ok ["p1"; "p2"; "p3"; "p4"; "p5"]
  /\ calls (snd out) = [CallFindPeers "alice" 5]
  /\ peer_pools (db (snd out)) = peer_pools (db scenario_state)
  /\ fst out = Ok [FreshPeer bob].
Proof.
  cbv zeta.
  assert (Hmiss : false = true
                  \/ (List.length (cached_peers (db scenario_state) alice 2000) < 5)%nat)
    by (right; simpl; lia).
  destruct (peer_resolution_on_cache_miss scenario_services alice alice_profile false
              2000 scenario_state Hmiss) as (Hcalls & Hpool & _ & Hres).
  split; [exact Hmiss |]. split; [vm_compute; reflexivity |].
  split; [exact Hcalls |]. split; [exact Hpool |].
  exact (proj1 Hres).
Defined.



(** The run, step by step. *)
Lemma run_full_analysis_steps (svc : services) (user_id : nat)
    (frp frs : bool) (now : Z) (st : state) :
  run_full_analysis svc user_id frp frs now st
  = match find (fun u => (id u =? user_id)%nat) (users (db st)) with
    | None => (Raise (ValueError "User not found"), st)
    | Some user =>
        match _get_or_create_user_profile svc user frp now st with
        | (Raise e, st1) => (Raise e, st1)
        | (Ok p, st1) =>
            match _get_or_create_peers svc user p frs now st1 with
            | (Raise e, st2) => (Raise e, st2)
            | (Ok peers, st2) =>
                let st3 := {| db := db st2;
                              calls := calls st2 ++ [CallGenerateInsights (handle p)] |} in
                match generate_insights svc p peers 3 with
                | Raise e => (Raise e, st3)
                | Ok analysis_data =>
                    (Ok {| r_user_profile := p; r_peers := peers;
                           r_analysis := analysis_data;
                           r_analysis_id := next_id (db st2); r_created_at := now |},
                     {| db := {| users := users (db st2);
                                 user_profiles := user_profiles (db st2);
                                 peer_matches := peer_matches (db st2);
                                 analyses := analyses (db st2)
                                   ++ [analysis_row user_id p analysis_data
                                                    (next_id (db st2)) now];
                                 peer_pools := peer_pools (db st2);
                                 next_id := S (next_id (db st2)) |};
                        calls := calls st3 |})
                end
            end
        end
    end.
Proof.
  unfold run_full_analysis, bind at 1, read at 1.
  destruct (find (fun u => (id u =? user_id)%nat) (users (db st))) as [user |];
    [| reflexivity].
  unfold bind at 1.
  destruct (_get_or_create_user_profile svc user frp now st) as [[p | e] st1];
    [| reflexivity].
  unfold bind at 1.
  destruct (_get_or_create_peers svc user p frs now st1) as [[peers | e] st2];
    [| reflexivity].
  unfold bind, external, read, commit, ret. cbn [db calls].
  destruct (generate_insights svc p peers 3); reflexivity.
Qed.




End AnalysisFacts.

Module AnalysisCacheFacts.
Import Exn Db AnalysisService.
Import AnalysisCacheNotions.


Lemma latest_profile_in (rows : list UserProfile) :
  rows <> [] -> exists row, latest_profile rows = Some row /\ In row rows.
Proof.
  induction rows as [| a rows IH]; intro Hne; [congruence |].
  cbn [latest_profile]. destruct rows as [| b rows'].
  - exists a. split; [reflexivity | now left].
  - destruct IH as (row & Hrow & Hin); [discriminate |]. rewrite Hrow.
    destruct (analyzed_at a <? analyzed_at row).
    + exists row. split; [reflexivity | now right].
    + exists a. split; [reflexivity | now left].
Qed.

(** What the profile step does when the cache answers: no call, no write. *)
Lemma profile_step_hit (svc : services) (user : User) (frp : bool) (now : Z)
    (st : state) (cached : UserProfile) :
  cached_profile (db st) user frp now = Some cached ->
  exists p,
    _get_or_create_user_profile svc user frp now st = (Ok p, st)
    /\ handle p = x_handle user /\ db_id p = Some (up_id cached)
    /\ followers_count p = up_followers_count cached.
Proof.
  intro Hc. unfold _get_or_create_user_profile, bind, read, ret. rewrite Hc.
  eexists. split; [reflexivity |]. repeat split.
Qed.

(** What a successful profile step leaves when the cache does not answer. *)
Lemma profile_step_fresh (svc : services) (user : User) (frp : bool) (now : Z)
    (st st1 : state) (p : profile) :
  cached_profile (db st) user frp now = None ->
  _get_or_create_user_profile svc user frp now st = (Ok p, st1) ->
  exists q row extra,
    p = {| handle := handle q; followers_count := followers_count q;
           following_count := following_count q; tweet_count := tweet_count q;
           grok_profile := grok_profile q; niche := niche q;
           content_style := content_style q; engagement_rate := engagement_rate q;
           estimated_30d_growth := estimated_30d_growth q;
           db_id := Some (next_id (db st)) |}
    /\ row = {| up_id := next_id (db st); up_user_id := id user;
                up_followers_count := followers_count q;
                up_following_count := following_count q;
                up_tweet_count := tweet_count q;
                up_grok_profile := grok_profile q;
                up_niche := niche q;
                up_content_style := content_style q;
                up_avg_engagement_rate := engagement_rate q;
                up_growth_30d := estimated_30d_growth q;
                analyzed_at := now;
                up_expires_at := now + hours 6 |}
    /\ db st1 = {| users := users (db st);
                   user_profiles := user_profiles (db st) ++ [row];
                   peer_matches := peer_matches (db st);
                   analyses := analyses (db st);
                   peer_pools := peer_pools (db st);
                   next_id := S (next_id (db st)) |}
    /\ calls st1 = calls st ++ extra
    /\ extra <> [].
Proof.
  intros Hc Hrun. unfold _get_or_create_user_profile, bind, read, ret, external, commit,
    raise in Hrun. rewrite Hc in Hrun. cbn [db calls] in Hrun.
  destruct (get_user_by_handle svc (x_handle user)) as [[data |] | e]; try discriminate.
  destruct (_should_fetch_tweets (ud_followers_count data)).
  - cbn [db calls] in Hrun.
    destruct (get_user_tweets svc (x_handle user) 40) as [tw | e]; try discriminate.
    cbn [db calls] in Hrun.
    destruct (analyze_user svc data (Some tw)) as [q | e]; try discriminate.
    cbn [db calls] in Hrun. injection Hrun as <- <-.
    eexists q, _, _. split; [reflexivity |]. split; [reflexivity |].
    split; [reflexivity |]. cbn [calls]. split.
    + rewrite <- !app_assoc. reflexivity.
    + discriminate.
  - cbn [db calls] in Hrun.
    destruct (analyze_user svc data None) as [q | e]; try discriminate.
    cbn [db calls] in Hrun. injection Hrun as <- <-.
    eexists q, _, _. split; [reflexivity |]. split; [reflexivity |].
    split; [reflexivity |]. cbn [calls]. split.
    + rewrite <- !app_assoc. reflexivity.
    + discriminate.
Qed.


Lemma insert_by_created_same (now : Z) (row : PeerMatch) (rows : list PeerMatch) :
  (forall r, In r rows -> pm_created_at r = now) -> pm_created_at row = now ->
  insert_by_created row rows = row :: rows.
Proof.
  intros Hall Hrow. destruct rows as [| x rest]; [reflexivity |].
  cbn [insert_by_created]. rewrite Hrow, (Hall x) by now left.
  now rewrite Z.leb_refl.
Qed.

Lemma sort_created_same (now : Z) (rows : list PeerMatch) :
  (forall r, In r rows -> pm_created_at r = now) ->
  fold_right insert_by_created [] rows = rows.
Proof.
  induction rows as [| a rows IH]; intro Hall; [reflexivity |].
  cbn [fold_right]. rewrite IH by (intros r Hr; apply Hall; now right).
  apply (insert_by_created_same now).
  - intros r Hr. apply Hall. now right.
  - apply Hall. now left.
Qed.

(** The cached assignments of a user once [_get_or_create_peers] has
    replaced them by the rows of [peers] at [now1]. *)
Lemma cached_peers_replaced (d : database) (user : User) (now1 now2 : Z)
    (old : list PeerMatch) (peers : list PeerMatcher.peer) :
  peer_matches d
  = filter (fun row => negb (pm_user_id row =? id user)%nat) old
    ++ map (peer_match_row user now1) peers ->
  cached_peers d user now2
  = if now2 <? now1 + hours 24
    then firstn 5 (map (peer_match_row user now1) peers) else [].
Proof.
  intro Hpm. unfold cached_peers. rewrite Hpm, filter_app. clear Hpm.
  assert (Hold : filter (fun row => (pm_user_id row =? id user)%nat
                                    && (now2 <? pm_expires_at row))
                   (filter (fun row => negb (pm_user_id row =? id user)%nat) old) = []).
  { induction old as [| a old IH]; [reflexivity |]. cbn [filter].
    destruct (pm_user_id a =? id user)%nat eqn:E; cbn [negb]; [exact IH |].
    cbn [filter]. rewrite E. exact IH. }
  rewrite Hold. cbn [app].
  destruct (now2 <? now1 + hours 24) eqn:Hfresh.
  - assert (Hnew : filter (fun row => (pm_user_id row =? id user)%nat
                                      && (now2 <? pm_expires_at row))
                     (map (peer_match_row user now1) peers)
                   = map (peer_match_row user now1) peers).
    { induction peers as [| q peers IH]; [reflexivity |]. cbn [map filter].
      cbn [peer_match_row pm_user_id pm_expires_at]. rewrite Nat.eqb_refl, Hfresh.
      cbn [andb]. now rewrite IH. }
    rewrite Hnew. f_equal. apply (sort_created_same now1).
    intros r Hr. apply in_map_iff in Hr. destruct Hr as (q & <- & _). reflexivity.
  - assert (Hnew : filter (fun row => (pm_user_id row =? id user)%nat
                                      && (now2 <? pm_expires_at row))
                     (map (peer_match_row user now1) peers) = []).
    { induction peers as [| q peers IH]; [reflexivity |]. cbn [map filter].
      cbn [peer_match_row pm_user_id pm_expires_at]. rewrite Hfresh, andb_false_r.
      exact IH. }
    rewrite Hnew. reflexivity.
Qed.









(** What the profile step leaves, whatever its outcome. *)
Lemma profile_step_frame (svc : services) (user : User) (frp : bool) (now : Z)
    (st : state) :
  let out := snd (_get_or_create_user_profile svc user frp now st) in
  users (db out) = users (db st)
  /\ peer_pools (db out) = peer_pools (db st)
  /\ peer_matches (db out) = peer_matches (db st)
  /\ (exists added, user_profiles (db out) = user_profiles (db st) ++ added
                    /\ (List.length added <= 1)%nat
                    /\ forall row, In row added -> up_user_id row = id user)
  /\ exists extra, calls out = calls st ++ extra /\ (List.length extra <= 3)%nat.
Proof.
  cbv zeta. unfold _get_or_create_user_profile, bind, read, ret, external, commit, raise.
  assert (Hnone : forall s : state,
            users (db s) = users (db s) /\ peer_pools (db s) = peer_pools (db s)
            /\ peer_matches (db s) = peer_matches (db s)
            /\ (exists added, user_profiles (db s) = user_profiles (db s) ++ added
                              /\ (List.length added <= 1)%nat
                              /\ forall row, In row added -> up_user_id row = id user))
    by (intro s; repeat split; exists []; rewrite app_nil_r; repeat split;
        [cbn; lia | intros row []]).
  destruct (cached_profile (db st) user frp now) as [cached |].
  - cbn [snd]. destruct (Hnone st) as (A & B & C & D). repeat split; try assumption.
    exists []. rewrite app_nil_r. split; [reflexivity | cbn; lia].
  - cbn [db calls].
    destruct (get_user_by_handle svc (x_handle user)) as [[data |] | e]; cbn [snd db calls].
    + destruct (_should_fetch_tweets (ud_followers_count data)); cbn [db calls].
      * destruct (get_user_tweets svc (x_handle user) 40) as [tw | e]; cbn [snd db calls].
        -- destruct (analyze_user svc data (Some tw)) as [q | e]; cbn [snd db calls].
           ++ cbn [users peer_pools peer_matches user_profiles].
              split; [reflexivity |]. split; [reflexivity |]. split; [reflexivity |].
              split.
              ** eexists [_]. split; [reflexivity |]. split; [cbn; lia |].
                 intros row [<- | []]. reflexivity.
              ** eexists. rewrite <- !app_assoc. split; [reflexivity | cbn; lia].
           ++ destruct (Hnone st) as (A & B & C & D). repeat split; try assumption.
              eexists. rewrite <- !app_assoc. split; [reflexivity | cbn; lia].
        -- destruct (Hnone st) as (A & B & C & D). repeat split; try assumption.
           eexists. rewrite <- !app_assoc. split; [reflexivity | cbn; lia].
      * destruct (analyze_user svc data None) as [q | e]; cbn [snd db calls].
        -- cbn [users peer_pools peer_matches user_profiles].
           split; [reflexivity |]. split; [reflexivity |]. split; [reflexivity |].
           split.
           ++ eexists [_]. split; [reflexivity |]. split; [cbn; lia |].
              intros row [<- | []]. reflexivity.
           ++ eexists. rewrite <- !app_assoc. split; [reflexivity | cbn; lia].
        -- destruct (Hnone st) as (A & B & C & D). repeat split; try assumption.
           eexists. rewrite <- !app_assoc. split; [reflexivity | cbn; lia].
    + destruct (Hnone st) as (A & B & C & D). repeat split; try assumption.
      eexists. split; [reflexivity | cbn; lia].
    + destruct (Hnone st) as (A & B & C & D). repeat split; try assumption.
      eexists. split; [reflexivity | cbn; lia].
Qed.

Lemma filter_other_user (user_id other : nat) (rows : list PeerMatch) :
  other <> user_id ->
  filter (fun row => (pm_user_id row =? other)%nat)
         (filter (fun row => negb (pm_user_id row =? user_id)%nat) rows)
  = filter (fun row => (pm_user_id row =? other)%nat) rows.
Proof.
  intro Hne. induction rows as [| a rows IH]; [reflexivity |]. cbn [filter].
  destruct (pm_user_id a =? user_id)%nat eqn:E; cbn [negb].
  - apply Nat.eqb_eq in E. destruct (pm_user_id a =? other)%nat eqn:F; [| exact IH].
    apply Nat.eqb_eq in F. congruence.
  - cbn [filter]. destruct (pm_user_id a =? other)%nat; now rewrite IH.
Qed.

(** What the peer step leaves, whatever its outcome. *)
Lemma peers_step_frame (svc : services) (user : User) (p : profile) (frs : bool)
    (now : Z) (st : state) :
  let out := snd (_get_or_create_peers svc user p frs now st) in
  users (db out) = users (db st)
  /\ peer_pools (db out) = peer_pools (db st)
  /\ user_profiles (db out) = user_profiles (db st)
  /\ (forall other, other <> id user ->
        peer_matches_of other (db out) = peer_matches_of other (db st))
  /\ exists extra, calls out = calls st ++ extra /\ (List.length extra <= 1)%nat.
Proof.
  cbv zeta. destruct (peer_cache_hit (db st) user frs now) eqn:Hhit.
  - rewrite (AnalysisFacts.get_or_create_peers_hit _ _ _ _ _ _ Hhit). cbn [snd].
    repeat split. exists []. rewrite app_nil_r. split; [reflexivity | cbn; lia].
  - rewrite (AnalysisFacts.get_or_create_peers_miss _ _ _ _ _ _ Hhit).
    destruct (PeerMatcher.find_peers (_get_fully_profiled_peers svc) p 5) as [peers | e];
      cbn [snd db calls users peer_pools user_profiles].
    + split; [reflexivity |]. split; [reflexivity |]. split; [reflexivity |]. split.
      * intros other Hne. unfold peer_matches_of. cbn [peer_matches].
        rewrite filter_app, filter_other_user by exact Hne.
        assert (Hnew : filter (fun row => (pm_user_id row =? other)%nat)
                         (map (peer_match_row user now) peers) = []).
        { induction peers as [| q peers IH]; [reflexivity |]. cbn [map filter].
          cbn [peer_match_row pm_user_id].
          destruct (id user =? other)%nat eqn:E; [| exact IH].
          apply Nat.eqb_eq in E. congruence. }
        rewrite Hnew. apply app_nil_r.
      * eexists. split; [reflexivity | cbn; lia].
    + repeat split. eexists. split; [reflexivity | cbn; lia].
Qed.

(** X29.  What a run of the full analysis can touch, whatever its outcome.
    The table of users and the shared peer pool are as before; at most
    one profile row is added, for the user of the run, and none is removed
    (profiles are never deleted); the peer assignments of every other user
    are as before; and the run makes at most five external calls. *)
Theorem run_full_analysis_frame
    (svc : services) (user_id : nat) (frp frs : bool) (now : Z) (st : state) :
  let out := snd (run_full_analysis svc user_id frp frs now st) in
  users (db out) = users (db st)
  /\ peer_pools (db out) = peer_pools (db st)
  /\ (exists added, user_profiles (db out) = user_profiles (db st) ++ added
                    /\ (List.length added <= 1)%nat
                    /\ forall row, In row added -> up_user_id row = user_id)
  /\ (forall other, other <> user_id ->
        peer_matches_of other (db out) = peer_matches_of other (db st))
  /\ exists extra, calls out = calls st ++ extra /\ (List.length extra <= 5)%nat.
Proof.
  cbv zeta. rewrite AnalysisFacts.run_full_analysis_steps.
  destruct (find (fun u => (id u =? user_id)%nat) (users (db st))) as [user |] eqn:Hfind.
  2:{ cbn [snd]. repeat split.
      - exists []. rewrite app_nil_r. repeat split; [cbn; lia | intros row []].
      - exists []. rewrite app_nil_r. split; [reflexivity | cbn; lia]. }
  apply find_some in Hfind. destruct Hfind as (_ & Hid). apply Nat.eqb_eq in Hid.
  pose proof (profile_step_frame svc user frp now st) as Hp. cbv zeta in Hp.
  destruct (_get_or_create_user_profile svc user frp now st) as [[p | e] st1].
  2:{ cbn [snd] in *. destruct Hp as (A & B & C & (added & D1 & D2 & D3) & (extra & E1 & E2)).
      split; [exact A |]. split; [exact B |]. split.
      - exists added. repeat split; try assumption. intros row Hr. rewrite <- Hid. now apply D3.
      - split.
        + intros other _. unfold peer_matches_of. now rewrite C.
        + exists extra. split; [exact E1 | lia]. }
  cbn [snd] in Hp. destruct Hp as (A & B & C & (added & D1 & D2 & D3) & (extra & E1 & E2)).
  pose proof (peers_step_frame svc user p frs now st1) as Hq. cbv zeta in Hq.
  destruct (_get_or_create_peers svc user p frs now st1) as [[peers | e] st2].
  2:{ cbn [snd] in *. destruct Hq as (A' & B' & C' & D' & (extra' & E1' & E2')).
      split; [congruence |]. split; [congruence |]. split.
      - exists added. repeat split; try assumption; [congruence |].
        intros row Hr. rewrite <- Hid. now apply D3.
      - split.
        + intros other Hne. rewrite D' by congruence. unfold peer_matches_of. now rewrite C.
        + exists (extra ++ extra'). rewrite E1', E1, app_assoc, length_app.
          split; [reflexivity | lia]. }
  cbn [snd] in Hq. destruct Hq as (A' & B' & C' & D' & (extra' & E1' & E2')).
  assert (Hcalls : exists extra'',
             calls st2 ++ [CallGenerateInsights (handle p)] = calls st ++ extra''
             /\ (List.length extra'' <= 5)%nat).
  { exists (extra ++ extra' ++ [CallGenerateInsights (handle p)]).
    rewrite E1', E1, <- !app_assoc, !length_app. split; [reflexivity | cbn; lia]. }
  assert (Hprof : exists added0, user_profiles (db st2) = user_profiles (db st) ++ added0
                    /\ (List.length added0 <= 1)%nat
                    /\ forall row, In row added0 -> up_user_id row = user_id).
  { exists added. repeat split; try assumption; [congruence |].
    intros row Hr. rewrite <- Hid. now apply D3. }
  assert (Hother : forall other, other <> user_id ->
            peer_matches_of other (db st2) = peer_matches_of other (db st)).
  { intros other Hne. rewrite D' by congruence. unfold peer_matches_of. now rewrite C. }
  cbv zeta. destruct (generate_insights svc p peers 3) as [analysis_data | e];
    cbn [snd db calls users peer_pools user_profiles].
  - split; [congruence |]. split; [congruence |]. split; [exact Hprof |].
    split; [| exact Hcalls]. intros other Hne. rewrite <- (Hother other Hne). reflexivity.
  - split; [congruence |]. split; [congruence |]. split; [exact Hprof |].
    split; [exact Hother | exact Hcalls].
Qed.

(** X30.  A second run inside the cache windows.  After a run with both
    refreshes forced that succeeded at [now1] with five peers, a run
    without forced refresh at any [now2] before [now1 + 6h] makes exactly
    one external call, the generation of the insights (which is never
    cached): the account is not fetched, not profiled, and no peers are
    searched. *)
Theorem second_run_only_generates_insights
    (svc : services) (user_id : nat) (now1 now2 : Z) (st st1 : state) (r : report) :
  run_full_analysis svc user_id true true now1 st = (Ok r, st1) ->
  List.length (r_peers r) = 5%nat ->
  now2 < now1 + hours 6 ->
  exists user,
    find (fun u => (id u =? user_id)%nat) (users (db st)) = Some user
    /\ calls (snd (run_full_analysis svc user_id false false now2 st1))
       = calls st1 ++ [CallGenerateInsights (x_handle user)].
Proof.
  intros Hrun Hfive Hfresh.
  rewrite AnalysisFacts.run_full_analysis_steps in Hrun.
  destruct (find (fun u => (id u =? user_id)%nat) (users (db st))) as [user |] eqn:Hfind;
    [| discriminate].
  exists user. split; [reflexivity |].
  destruct (_get_or_create_user_profile svc user true now1 st) as [[p | e] sa] eqn:Hp;
    [| discriminate].
  destruct (profile_step_fresh svc user true now1 st sa p eq_refl Hp)
    as (q & row & extra & _ & Hrow & Hdba & _ & _).
  assert (Hmiss : peer_cache_hit (db sa) user true now1 = false) by reflexivity.
  rewrite (AnalysisFacts.get_or_create_peers_miss svc user p true now1 sa Hmiss) in Hrun.
  destruct (PeerMatcher.find_peers (_get_fully_profiled_peers svc) p 5)
    as [peers | e]; [| discriminate].
  cbv zeta in Hrun.
  destruct (generate_insights svc p (map FreshPeer peers) 3) as [analysis_data | e];
    [| discriminate].
  injection Hrun as Hr Hst1. subst r. cbn [r_peers] in Hfive. rewrite length_map in Hfive.
  rewrite AnalysisFacts.run_full_analysis_steps.
  assert (Husers : users (db st1) = users (db st)).
  { subst st1. cbn [db users]. now rewrite Hdba. }
  rewrite Husers, Hfind.
  assert (Hprofiles : user_profiles (db st1) = user_profiles (db st) ++ [row]).
  { subst st1. cbn [db user_profiles]. now rewrite Hdba. }
  assert (Hc : exists cached, cached_profile (db st1) user false now2 = Some cached).
  { unfold cached_profile. rewrite Hprofiles, filter_app. subst row.
    cbn [filter up_user_id up_expires_at]. rewrite Nat.eqb_refl.
    apply Z.ltb_lt in Hfresh. rewrite Hfresh. cbn [andb].
    match goal with
    | |- exists cached, latest_profile ?l = Some cached =>
        destruct (latest_profile_in l) as (c & Hc & _)
    end.
    - intro Hnil. apply app_eq_nil in Hnil. destruct Hnil as (_ & Hnil). discriminate.
    - exists c. exact Hc. }
  destruct Hc as (cached & Hc).
  destruct (profile_step_hit svc user false now2 st1 cached Hc) as (p2 & Hp2 & Hh & _).
  rewrite Hp2.
  assert (Hcached : cached_peers (db st1) user now2
                    = firstn 5 (map (peer_match_row user now1) peers)).
  { rewrite (cached_peers_replaced (db st1) user now1 now2 (peer_matches (db sa)) peers).
    - assert (Hlt : (now2 <? now1 + hours 24) = true)
        by (apply Z.ltb_lt; unfold hours in *; lia).
      now rewrite Hlt.
    - subst st1. reflexivity. }
  assert (Hhit : peer_cache_hit (db st1) user false now2 = true).
  { unfold peer_cache_hit. rewrite Hcached, length_firstn, length_map, Hfive. reflexivity. }
  rewrite (AnalysisFacts.get_or_create_peers_hit svc user p2 false now2 st1 Hhit).
  cbv zeta. rewrite Hh.
  destruct (generate_insights svc p2 _ 3); reflexivity.
Qed.

(** The theorem in the scenario of "carol": a forced run at time 1000,
    a second run five hours later. *)
Lemma second_run_only_generates_insights_carol :
  let first := run_full_analysis (answering five_peers) 3 true true 1000 carol_state in
  (exists r, first = (Ok r, snd first) /\ List.length (r_peers r) = 5%nat)
  /\ 1000 + hours 5 < 1000 + hours 6
  /\ calls (snd first)
     = [CallUserInfo "carol"; CallUserTweets "carol" 40; CallAnalyzeUser "carol";
        CallFindPeers "carol" 5; CallGenerateInsights "carol"]
  /\ calls (snd (run_full_analysis (answering five_peers) 3 false false
                   (1000 + hours 5) (snd first)))
     = calls (snd first) ++ [CallGenerateInsights "carol"].
Proof.
  intro first.
  assert (H3 : 1000 + hours 5 < 1000 + hours 6) by (unfold hours; lia).
  assert (Hrun : exists r, first = (Ok r, snd first) /\ List.length (r_peers r) = 5%nat).
  { eexists. split; reflexivity. }
  split; [exact Hrun |]. split; [exact H3 |]. split; [reflexivity |].
  destruct Hrun as (r & Hrun & Hfive).
  destruct (second_run_only_generates_insights (answering five_peers) 3 1000
              (1000 + hours 5) carol_state (snd first) r Hrun Hfive H3)
    as (user & Hfind & Hcalls).
  assert (Huser : user = carol) by (cbn in Hfind; congruence).
  subst user. exact Hcalls.
Defined.

End AnalysisCacheFacts.

Module CacheOpsFacts.
Import Db CacheManager.









Lemma fresh_rows_filter (keep : TweetsCache -> bool) (table : list TweetsCache)
    (handle : string) (threshold : Z) :
  (forall row, In row table ->
     String.eqb (x_handle row) handle && (threshold <? fetched_at row) = true ->
     keep row = true) ->
  fresh_rows (filter keep table) handle threshold = fresh_rows table handle threshold.
Proof.
  intro Hkeep. unfold fresh_rows.
  induction table as [| a table IH]; [reflexivity |]. cbn [filter].
  assert (IH' := IH (fun row Hr => Hkeep row (or_intror Hr))).
  destruct (keep a) eqn:Ka; cbn [filter].
  - now rewrite IH'.
  - destruct (String.eqb (x_handle a) handle && (threshold <? fetched_at a)) eqn:Fa.
    + rewrite (Hkeep a (or_introl eq_refl) Fa) in Ka. discriminate.
    + exact IH'.
Qed.

(** The value of a read when the storage answers. *)
Lemma get_cached_tweets_value (self : manager) (table : list TweetsCache) (now : Z)
    (handle : string) :
  fst (get_cached_tweets self healthy table now handle)
  = match newest (fresh_rows table (normalize handle) (now - hours (ttl_hours self))) with
    | Some cache_entry => decoded (tweet_data cache_entry)
    | None => None
    end.
Proof.
  unfold get_cached_tweets, healthy.
  destruct (newest (fresh_rows table (normalize handle) (now - hours (ttl_hours self))));
    reflexivity.
Qed.

(** X12.  Invalidation followed by a read.  After [invalidate_cache] for a
    handle has succeeded, a read under any spelling of that handle is a
    MISS, at whatever time; for every other handle the read gives what it
    gave before. *)
Theorem invalidate_cache_then_miss
    (self : manager) (table : list TweetsCache) (now : Z) (h h' : string) :
  let out := invalidate_cache self healthy table h in
  fst out = true
  /\ (normalize h' = normalize h ->
      fst (get_cached_tweets self healthy (snd out) now h') = None)
  /\ (normalize h' <> normalize h ->
      fst (get_cached_tweets self healthy (snd out) now h')
      = fst (get_cached_tweets self healthy table now h')).
Proof.
  cbv zeta. unfold invalidate_cache, healthy. cbn [andb fst snd].
  split; [reflexivity |]. split.
  - intro Hn. rewrite get_cached_tweets_value. rewrite Hn.
    assert (Hnil : fresh_rows
                     (filter (fun row => negb (String.eqb (x_handle row) (normalize h)))
                             table)
                     (normalize h) (now - hours (ttl_hours self)) = []).
    { unfold fresh_rows. induction table as [| a table IH]; [reflexivity |].
      cbn [filter]. destruct (String.eqb (x_handle a) (normalize h)) eqn:E; cbn [negb].
      - exact IH.
      - cbn [filter]. rewrite E. cbn [andb]. exact IH. }
    rewrite Hnil. reflexivity.
  - intro Hn. rewrite !get_cached_tweets_value. rewrite fresh_rows_filter; [reflexivity |].
    intros row _ Hf. apply andb_prop in Hf. destruct Hf as (Hf & _).
    apply String.eqb_eq in Hf. apply negb_true_iff. apply String.eqb_neq. congruence.
Qed.

(** X13.  Cleaning up does not cost a cache hit.  When the age limit of
    [cleanup_old_cache] is at least the TTL of the reader (as with the
    defaults, 7 days against 6 hours), the rows it deletes at [now] are
    rows that no read at [now] or later would return: every read gives
    the same answer on the cleaned table as on the table before. *)
Theorem cleanup_old_cache_keeps_hits
    (self cleaner : manager) (table : list TweetsCache) (now now' : Z)
    (days_old : Z) (handle : string) :
  hours (ttl_hours self) <= days days_old ->
  now <= now' ->
  fst (get_cached_tweets self healthy
         (snd (cleanup_old_cache cleaner healthy table now days_old)) now' handle)
  = fst (get_cached_tweets self healthy table now' handle).
Proof.
  intros Hage Hlater. unfold cleanup_old_cache, healthy. cbn [andb snd].
  rewrite !get_cached_tweets_value. rewrite fresh_rows_filter; [reflexivity |].
  intros row _ Hf. apply andb_prop in Hf. destruct Hf as (_ & Hf).
  apply Z.ltb_lt in Hf. apply negb_true_iff. apply Z.ltb_ge. lia.
Qed.

(** The theorem with the defaults: a clean-up of entries older than 7 days,
    a reader with a 6 hour TTL. *)
Lemma cleanup_old_cache_keeps_hits_defaults :
  let old := {| x_handle := "alice"; tweet_data := "[1]"; fetched_at := 0 |} in
  let recent := {| x_handle := "alice"; tweet_data := "[2]"; fetched_at := days 8 |} in
  hours (ttl_hours init) <= days 7
  /\ days 8 + hours 1 <= days 8 + hours 2
  /\ cleanup_old_cache init healthy [old; recent] (days 8 + hours 1) 7
     = (1%nat, [recent])
  /\ fst (get_cached_tweets init healthy [recent] (days 8 + hours 2) "alice")
     = fst (get_cached_tweets init healthy [old; recent] (days 8 + hours 2) "alice").
Proof.
  intros old recent.
  assert (H1 : hours (ttl_hours init) <= days 7) by (vm_compute; discriminate).
  assert (H2 : days 8 + hours 1 <= days 8 + hours 2) by (vm_compute; discriminate).
  split; [exact H1 |]. split; [exact H2 |]. split; [reflexivity |].
  exact (cleanup_old_cache_keeps_hits init init [old; recent] (days 8 + hours 1)
           (days 8 + hours 2) 7 "alice" H1 H2).
Defined.

Lemma fresh_rows_all (table : list TweetsCache) (handle : string) (threshold : Z) :
  (List.length (fresh_rows table handle threshold)
   <= List.length (filter (fun row => (threshold <? fetched_at row)%Z) table))%nat.
Proof.
  unfold fresh_rows. induction table as [| a table IH]; [cbn; lia |]. cbn [filter].
  destruct (threshold <? fetched_at a); [| rewrite andb_false_r; exact IH].
  destruct (String.eqb (x_handle a) handle); cbn [andb List.length]; lia.
Qed.

Lemma filter_split_length {A : Type} (f : A -> bool) (l : list A) :
  (List.length (filter f l) + List.length (filter (fun x => negb (f x)) l)
   = List.length l)%nat.
Proof.
  induction l as [| a l IH]; [reflexivity |]. cbn [filter].
  destruct (f a); cbn [negb List.length]; lia.
Qed.

(** X14.  The statistics of the tweet cache.  When the storage answers,
    [get_cache_stats] counts every row, counts as fresh exactly the rows
    strictly younger than the TTL and as stale all the others, so that
    [fresh + stale = total] with neither negative; and when it reports no
    fresh entry, every read at that time is a MISS.  When a counting query
    fails the result is the empty dict. *)
Theorem get_cache_stats_consistent
    (self : manager) (table : list TweetsCache) (now : Z) :
  (exists s,
     get_cache_stats self healthy table now = Some s
     /\ total_entries s = Z.of_nat (List.length table)
     /\ fresh_entries s + stale_entries s = total_entries s
     /\ 0 <= fresh_entries s /\ 0 <= stale_entries s
     /\ stale_entries s
        = Z.of_nat (List.length
                      (filter (fun row => hours (ttl_hours self) <=? now - fetched_at row)
                              table))
     /\ (fresh_entries s = 0 ->
         forall handle, fst (get_cached_tweets self healthy table now handle) = None))
  /\ (forall st, st 0%nat = false \/ st 1%nat = false ->
                 get_cache_stats self st table now = None).
Proof.
  split.
  - eexists. split; [reflexivity |]. cbn [total_entries fresh_entries stale_entries].
    pose proof (filter_split_length
                  (fun row => now - hours (ttl_hours self) <? fetched_at row) table) as Hs.
    assert (Hstale : filter (fun row => negb (now - hours (ttl_hours self) <? fetched_at row))
                            table
                     = filter (fun row => hours (ttl_hours self) <=? now - fetched_at row)
                              table).
    { apply filter_ext. intro row.
      destruct (now - hours (ttl_hours self) <? fetched_at row) eqn:E; cbn [negb]; symmetry.
      - apply Z.ltb_lt in E. apply Z.leb_gt. lia.
      - apply Z.ltb_ge in E. apply Z.leb_le. lia. }
    cbv beta in Hs. rewrite Hstale in Hs.
    split; [reflexivity |]. split; [lia |]. split; [lia |]. split; [lia |].
    split; [lia |].
    intros Hzero handle. rewrite get_cached_tweets_value.
    pose proof (fresh_rows_all table (normalize handle) (now - hours (ttl_hours self))) as Hle.
    destruct (fresh_rows table (normalize handle) (now - hours (ttl_hours self)));
      [reflexivity |]. cbn [List.length] in Hle. lia.
  - intros st [H | H]; unfold get_cache_stats; rewrite H; [reflexivity |].
    destruct (st 0%nat); reflexivity.
Qed.

End CacheOpsFacts.

Module PoolOpsFacts.
Import Exn Db PeerPoolManager.
Import PeerPoolNotions PoolOpsNotions.

Lemma insert_ranked_in (row x : PeerPool) (l : list PeerPool) :
  In x (insert_ranked row l) <-> x = row \/ In x l.
Proof.
  induction l as [| a l IH]; cbn [insert_ranked In].
  - intuition congruence.
  - destruct (ranks_before a row); cbn [In]; [rewrite IH |]; intuition congruence.
Qed.

Lemma ranked_in (x : PeerPool) (l : list PeerPool) : In x (ranked l) <-> In x l.
Proof.
  unfold ranked. induction l as [| a l IH]; cbn [fold_right In]; [tauto |].
  rewrite insert_ranked_in, IH. intuition congruence.
Qed.

Lemma insert_ranked_length (row : PeerPool) (l : list PeerPool) :
  List.length (insert_ranked row l) = S (List.length l).
Proof.
  induction l as [| a l IH]; [reflexivity |]. cbn [insert_ranked].
  destruct (ranks_before a row); cbn [List.length]; [now rewrite IH | reflexivity].
Qed.

Lemma ranked_length (l : list PeerPool) : List.length (ranked l) = List.length l.
Proof.
  unfold ranked. induction l as [| a l IH]; [reflexivity |]. cbn [fold_right].
  now rewrite insert_ranked_length, IH.
Qed.

Lemma insert_ranked_sorted (row : PeerPool) (l : list PeerPool) :
  most_used_first l -> most_used_first (insert_ranked row l).
Proof.
  induction l as [| a l IH]; intro Hs.
  - cbn. split; [intros b [] | exact I].
  - cbn [insert_ranked]. destruct Hs as (Ha & Hl).
    destruct (ranks_before a row) eqn:E.
    + cbn [most_used_first]. split; [| now apply IH].
      intros b Hb. apply insert_ranked_in in Hb. destruct Hb as [-> | Hb]; [| now apply Ha].
      unfold ranks_before in E. apply orb_prop in E. destruct E as [E | E].
      * apply Z.ltb_lt in E. lia.
      * apply andb_prop in E. destruct E as (E & _). apply Z.eqb_eq in E. lia.
    + assert (Hle : times_used a <= times_used row).
      { unfold ranks_before in E. apply orb_false_elim in E. destruct E as (E & _).
        apply Z.ltb_ge in E. exact E. }
      cbn [most_used_first]. split; [| split; assumption].
      intros b [<- | Hb]; [exact Hle |]. specialize (Ha b Hb). lia.
Qed.

Lemma ranked_sorted (l : list PeerPool) : most_used_first (ranked l).
Proof.
  unfold ranked. induction l as [| a l IH]; [exact I |]. cbn [fold_right].
  now apply insert_ranked_sorted.
Qed.

Lemma in_skipn {A : Type} (x : A) (n : nat) (l : list A) : In x (skipn n l) -> In x l.
Proof.
  intro H. rewrite <- (firstn_skipn n l). apply in_or_app. now right.
Qed.

Lemma in_firstn {A : Type} (x : A) (n : nat) (l : list A) : In x (firstn n l) -> In x l.
Proof.
  intro H. rewrite <- (firstn_skipn n l). apply in_or_app. now left.
Qed.

Lemma most_used_first_split (l : list PeerPool) (n : nat) :
  most_used_first l ->
  forall a b, In a (firstn n l) -> In b (skipn n l) -> times_used b <= times_used a.
Proof.
  revert n. induction l as [| x l IH]; intros n Hs a b Ha Hb.
  - rewrite firstn_nil in Ha. destruct Ha.
  - destruct n as [| n]; [destruct Ha |]. cbn [firstn skipn In] in Ha, Hb.
    destruct Hs as (Hx & Hl). destruct Ha as [<- | Ha].
    + apply Hx. eapply in_skipn. exact Hb.
    + now apply (IH n).
Qed.

(** The rows selected by the query of [get_peers_from_pool]. *)
Lemma get_peers_from_pool_rows (self : manager) (table : list PeerPool) (now : Z)
    (niche : string) (followers : Z) (count : nat) (require_valid : bool) (key : string) :
  generate_pool_key niche followers = Some key ->
  exists selected,
    get_peers_from_pool self healthy table now niche followers count require_valid
    = Ok (map handle (firstn count (ranked selected)))
    /\ (forall row, In row selected <-> In row table /\ eligible self now key require_valid row)
    /\ selected
       = filter (fun row => String.eqb (pool_key row) key
                            && (negb require_valid
                                || is_valid row
                                   && (now - days (validation_days self) <? last_validated row)))
                table.
Proof.
  intro Hkey. unfold get_peers_from_pool, healthy. rewrite Hkey.
  eexists. split; [| split; [| reflexivity]].
  - rewrite firstn_firstn. replace (Nat.min count (count * 2)) with count by lia.
    do 4 f_equal.
    destruct require_valid; cbn [negb orb].
    + induction table as [| a t IH]; [reflexivity |]. cbn [filter].
      destruct (String.eqb (pool_key a) key); cbn [andb filter]; [| exact IH].
      destruct (is_valid a && (now - days (validation_days self) <? last_validated a));
        now rewrite IH.
    + apply filter_ext. intro row. now rewrite andb_true_r.
  - intro row. rewrite filter_In. unfold eligible.
    rewrite andb_true_iff, String.eqb_eq, orb_true_iff, negb_true_iff, andb_true_iff,
      Z.ltb_lt.
    destruct require_valid; intuition congruence.
Qed.

(** X15.  What a read of the shared pool returns.  With the storage
    answering, [get_peers_from_pool] returns the handles of at most [count]
    rows; they are rows of the pool of the key derived from the niche and
    the follower count, valid and validated less than [validation_days]
    ago when only validated peers are wanted; all [count] are returned when
    that many are available; and no row left out has been used more often
    than a returned one. *)
Theorem get_peers_from_pool_selects
    (self : manager) (table : list PeerPool) (now : Z) (niche : string)
    (followers : Z) (count : nat) (require_valid : bool) (key : string) :
  generate_pool_key niche followers = Some key ->
  exists chosen rest,
    get_peers_from_pool self healthy table now niche followers count require_valid
    = Ok (map handle chosen)
    /\ (List.length chosen <= count)%nat
    /\ (rest <> [] -> List.length chosen = count)
    /\ (forall row, In row chosen \/ In row rest
                    <-> In row table /\ eligible self now key require_valid row)
    /\ (forall a b, In a chosen -> In b rest -> times_used b <= times_used a).
Proof.
  intro Hkey.
  destruct (get_peers_from_pool_rows self table now niche followers count require_valid
              key Hkey) as (selected & Hget & Hsel & _).
  exists (firstn count (ranked selected)), (skipn count (ranked selected)).
  split; [exact Hget |]. split; [apply firstn_le_length |]. split; [| split].
  - intro Hrest. rewrite length_firstn. apply Nat.min_l.
    destruct (Nat.le_gt_cases count (List.length (ranked selected))) as [H | H]; [exact H |].
    rewrite skipn_all2 in Hrest by lia. congruence.
  - intro row. rewrite <- Hsel, <- (ranked_in row selected).
    rewrite <- (firstn_skipn count (ranked selected)) at 3. rewrite in_app_iff. tauto.
  - apply most_used_first_split. apply ranked_sorted.
Qed.

(** The theorem on a pool of three finance accounts of which the two
    most used are asked for. *)
Lemma get_peers_from_pool_selects_two_of_three :
  let row name used :=
    {| handle := name; pool_key := "finance_2500-12500"; niche := "finance";
       follower_count := 6000; growth_rate := 10; is_valid := true;
       last_validated := 1000; times_used := used |} in
  generate_pool_key "finance" 5000 = Some "finance_2500-12500"
  /\ get_peers_from_pool init healthy [row "a" 1; row "b" 7; row "c" 3] 2000
       "finance" 5000 2 true
     = Ok ["b"; "c"]
  /\ exists chosen rest,
       map handle chosen = ["b"; "c"] /\ rest <> []
       /\ forall a b, In a chosen -> In b rest -> times_used b <= times_used a.
Proof.
  intro row.
  assert (Hkey : generate_pool_key "finance" 5000 = Some "finance_2500-12500")
    by (vm_compute; reflexivity).
  assert (Hget : get_peers_from_pool init healthy [row "a" 1; row "b" 7; row "c" 3] 2000
                   "finance" 5000 2 true = Ok ["b"; "c"]) by (vm_compute; reflexivity).
  split; [exact Hkey |]. split; [exact Hget |].
  destruct (get_peers_from_pool_selects init [row "a" 1; row "b" 7; row "c" 3] 2000
              "finance" 5000 2 true _ Hkey)
    as (chosen & rest & Hres & Hlen & _ & Hrows & Hord).
  exists chosen, rest. rewrite Hget in Hres.
  split; [congruence |]. split; [| exact Hord].
  intro Hnil. subst rest.
  assert (Hthree : In (row "a" 1) chosen \/ In (row "a" 1) []).
  { apply Hrows. split; [now left |]. split; [reflexivity |]. intros _.
    split; [reflexivity |]. vm_compute. reflexivity. }
  destruct Hthree as [Hin | []].
  apply (in_map handle) in Hin. assert (Hmap : map handle chosen = ["b"; "c"]) by congruence.
  rewrite Hmap in Hin. cbn in Hin. intuition discriminate.
Defined.


Lemma generate_pool_key_nonempty (niche : string) (followers : Z) (key : string) :
  generate_pool_key niche followers = Some key -> exists c k, key = String c k.
Proof.
  unfold generate_pool_key. destruct (pool_bounds followers) as [[lo hi] |]; [| discriminate].
  intro H. injection H as <-. destruct niche as [| c n]; cbn [String.append]; eauto.
Qed.

(** A row of the pool for [(key, name)] that is valid and validated at [now]. *)
Lemma refresh_first_keeps (key name name' : string) (followers growth now : Z)
    (rows : list PeerPool) :
  (exists row, In row rows /\ entry_key row = (key, name')
               /\ is_valid row = true /\ last_validated row = now) ->
  exists row, In row (refresh_first key name followers growth now rows)
              /\ entry_key row = (key, name')
              /\ is_valid row = true /\ last_validated row = now.
Proof.
  induction rows as [| a rows IH]; intros (row & Hin & Hk & Hv & Hl); [destruct Hin |].
  cbn [refresh_first]. destruct (same_entry key name a) eqn:E.
  - destruct Hin as [<- | Hin].
    + eexists. split; [now left |]. repeat split.
      unfold entry_key in *. cbn [pool_key handle]. exact Hk.
    + exists row. split; [now right |]. auto.
  - destruct Hin as [<- | Hin].
    + exists a. split; [now left |]. auto.
    + destruct IH as (row' & Hin' & H'); [eauto |]. exists row'. split; [now right | exact H'].
Qed.

Lemma upsert_loop_present (st : storage) (key niche_ : string) (now : Z)
    (peers : list peer) :
  forall (i : nat) (rows pending : list PeerPool) (added : nat)
         (rows' pending' : list PeerPool) (added' : nat),
  upsert_loop st i key niche_ now peers rows pending added = Some (rows', pending', added') ->
  forall name,
    (In name (map peer_handle peers)
     \/ exists row, In row (rows ++ pending) /\ entry_key row = (key, name)
                    /\ is_valid row = true /\ last_validated row = now) ->
    exists row, In row (rows' ++ pending') /\ entry_key row = (key, name)
                /\ is_valid row = true /\ last_validated row = now.
Proof.
  induction peers as [| p peers IH]; intros i rows pending added rows' pending' added' Hrun
    name Hname.
  - cbn [upsert_loop] in Hrun. injection Hrun as <- <- <-.
    destruct Hname as [[] | H]. exact H.
  - cbn [upsert_loop] in Hrun. destruct (st i); [| discriminate].
    destruct (existsb (same_entry key (peer_handle p)) rows) eqn:Hex.
    + apply (IH _ _ _ _ _ _ _ Hrun name).
      destruct Hname as [[<- | Hin] | (row & Hin & Hrow)].
      * right.
        destruct (PeerPoolFacts.refresh_first_refreshed key (peer_handle p)
                    (followers_count p) (estimated_30d_growth p) now rows Hex)
          as (row & Hin & Hk & _ & _ & Hl & Hv).
        exists row. split; [apply in_or_app; now left |]. auto.
      * now left.
      * right. apply in_app_or in Hin. destruct Hin as [Hin | Hin].
        -- destruct (refresh_first_keeps key (peer_handle p) name (followers_count p)
                       (estimated_30d_growth p) now rows) as (row' & Hin' & H').
           ++ exists row. auto.
           ++ exists row'. split; [apply in_or_app; now left | exact H'].
        -- exists row. split; [apply in_or_app; now right | exact Hrow].
    + apply (IH _ _ _ _ _ _ _ Hrun name).
      destruct Hname as [[<- | Hin] | (row & Hin & Hrow)].
      * right. eexists. split; [apply in_or_app; right; apply in_or_app; right; now left |].
        repeat split.
      * now left.
      * right. exists row. split; [| exact Hrow].
        apply in_app_or in Hin. apply in_or_app. destruct Hin as [Hin | Hin]; [now left |].
        right. apply in_or_app. now left.
Qed.

Lemma upsert_loop_healthy (key niche_ : string) (now : Z) (peers : list peer) :
  forall (i : nat) (rows pending : list PeerPool) (added : nat),
  upsert_loop healthy i key niche_ now peers rows pending added <> None.
Proof.
  induction peers as [| p peers IH]; intros i rows pending added; [discriminate |].
  cbn [upsert_loop]. unfold healthy at 1.
  destruct (existsb (same_entry key (peer_handle p)) rows); apply IH.
Qed.

(** X16.  Round trip of the shared pool.  Peers added to the pool under the
    key of a niche and a follower count are handed out again by a read for
    that niche and follower count: each handle of the batch is in the
    answer of [get_peers_from_pool] as long as the read comes less than
    [validation_days] after the write and asks for at least as many peers
    as the table holds. *)
Theorem add_then_get_round_trip
    (self : manager) (table table' : list PeerPool) (now now' : Z)
    (peers : list peer) (niche_ niche : string) (followers : Z) (key : string)
    (count n : nat) :
  generate_pool_key niche followers = Some key ->
  add_peers_to_pool self healthy table now peers niche_ (Some key) = Ok (n, table') ->
  now' - days (validation_days self) < now ->
  (List.length table' <= count)%nat ->
  exists handles,
    get_peers_from_pool self healthy table' now' niche followers count true = Ok handles
    /\ forall p, In p peers -> In (peer_handle p) handles.
Proof.
  intros Hkey Hadd Hwin Hcount.
  destruct (get_peers_from_pool_rows self table' now' niche followers count true key Hkey)
    as (selected & Hget & Hsel & Hdef).
  eexists. split; [exact Hget |]. intros p Hp.
  assert (Hlen : (List.length (ranked selected) <= count)%nat).
  { rewrite ranked_length, Hdef. eapply Nat.le_trans; [apply filter_length_le | exact Hcount]. }
  rewrite firstn_all2 by exact Hlen.
  destruct (generate_pool_key_nonempty _ _ _ Hkey) as (c & k & ->).
  unfold add_peers_to_pool in Hadd. destruct peers as [| p0 peers0]; [destruct Hp |].
  cbn [pool_key_for] in Hadd.
  destruct (upsert_loop healthy 0 (String c k) niche_ now (p0 :: peers0) table [] 0)
    as [[[rows pending] added] |] eqn:Hloop;
    [| now apply upsert_loop_healthy in Hloop].
  unfold healthy in Hadd at 1. injection Hadd as _ <-.
  destruct (upsert_loop_present _ _ _ _ _ _ _ _ _ _ _ _ Hloop (peer_handle p))
    as (row & Hin & Hk & Hv & Hl).
  { left. now apply in_map. }
  apply in_map_iff. exists row. split; [unfold entry_key in Hk; congruence |].
  apply ranked_in. apply Hsel. split; [exact Hin |]. split.
  - unfold entry_key in Hk. congruence.
  - intros _. split; [exact Hv | lia].
Qed.

(** The theorem on an empty pool: two finance accounts are added at time
    1000 and read back a day later. *)
Lemma add_then_get_round_trip_finance :
  let p name := {| peer_handle := name; followers_count := 6000;
                   estimated_30d_growth := 100 |} in
  let written := add_peers_to_pool init healthy [] 1000 [p "a"; p "b"] "finance"
                                   (Some "finance_2500-12500") in
  generate_pool_key "finance" 5000 = Some "finance_2500-12500"
  /\ (exists table', written = Ok (2%nat, table')
        /\ (List.length table' <= 10)%nat
        /\ exists handles,
             get_peers_from_pool init healthy table' (1000 + days 1) "finance" 5000 10 true
             = Ok handles
             /\ In "a" handles /\ In "b" handles)
  /\ (1000 + days 1) - days (validation_days init) < 1000.
Proof.
  intros p written.
  assert (Hkey : generate_pool_key "finance" 5000 = Some "finance_2500-12500")
    by (vm_compute; reflexivity).
  assert (Hwin : (1000 + days 1) - days (validation_days init) < 1000)
    by (vm_compute; reflexivity).
  split; [exact Hkey |]. split; [| exact Hwin].
  assert (Hw : exists table', written = Ok (2%nat, table') /\ (List.length table' <= 10)%nat).
  { eexists. split; [reflexivity |]. cbn. lia. }
  destruct Hw as (table' & Hw & Hlen). exists table'.
  split; [exact Hw |]. split; [exact Hlen |].
  destruct (add_then_get_round_trip init [] table' 1000 (1000 + days 1) [p "a"; p "b"]
              "finance" "finance" 5000 _ 10 2 Hkey Hw Hwin Hlen) as (handles & Hget & Hall).
  exists handles. split; [exact Hget |]. split.
  - apply (Hall (p "a")). now left.
  - apply (Hall (p "b")). right. now left.
Defined.

Lemma invalidate_first_invalid (key name : string) (rows : list PeerPool) :
  unique_entries rows ->
  forall row, In row (invalidate_first key name rows) -> entry_key row = (key, name) ->
              is_valid row = false.
Proof.
  unfold unique_entries. induction rows as [| a rows IH]; intros Hu row Hin Hk;
    [destruct Hin |].
  cbn [map] in Hu. apply NoDup_cons_iff in Hu. destruct Hu as (Hnotin & Hu).
  cbn [invalidate_first] in Hin. destruct (same_entry key name a) eqn:E.
  - destruct Hin as [<- | Hin]; [reflexivity |].
    apply PeerPoolFacts.same_entry_key in E. exfalso. apply Hnotin. rewrite E, <- Hk.
    now apply in_map.
  - destruct Hin as [<- | Hin]; [| now apply IH].
    apply PeerPoolFacts.same_entry_key in Hk. congruence.
Qed.

(** X17.  An invalidated peer is not handed out.  In a pool in which no
    two rows share their (pool key, handle), once [mark_invalid] has gone
    through for a handle, a read that wants validated peers does not
    return this handle. *)
Theorem mark_invalid_then_excluded
    (self : manager) (table : list PeerPool) (now : Z) (niche : string)
    (followers : Z) (key name : string) (count : nat) (handles : list string) :
  unique_entries table ->
  generate_pool_key niche followers = Some key ->
  get_peers_from_pool self healthy (mark_invalid self healthy table name key) now
                      niche followers count true = Ok handles ->
  ~ In name handles.
Proof.
  intros Hu Hkey Hget Hin.
  destruct (get_peers_from_pool_rows self (mark_invalid self healthy table name key) now
              niche followers count true key Hkey) as (selected & Hget' & Hsel & _).
  rewrite Hget' in Hget. injection Hget as <-.
  apply in_map_iff in Hin. destruct Hin as (row & Hh & Hin).
  apply in_firstn in Hin. apply (proj1 (ranked_in _ _)) in Hin.
  apply (proj1 (Hsel _)) in Hin.
  destruct Hin as (Hin & Hk & Hv). destruct (Hv eq_refl) as (Hvalid & _).
  unfold mark_invalid, healthy in Hin.
  destruct (existsb (same_entry key name) table) eqn:Hex.
  - rewrite (invalidate_first_invalid key name table Hu row Hin) in Hvalid; [discriminate |].
    unfold entry_key. congruence.
  - assert (Hex' : existsb (same_entry key name) table = true).
    { apply existsb_exists. exists row. split; [exact Hin |].
      apply PeerPoolFacts.same_entry_key. unfold entry_key. congruence. }
    congruence.
Qed.

(** The theorem on a pool of two finance accounts, one of them marked
    invalid. *)
Lemma mark_invalid_then_excluded_finance :
  let row name :=
    {| handle := name; pool_key := "finance_2500-12500"; niche := "finance";
       follower_count := 6000; growth_rate := 10; is_valid := true;
       last_validated := 1000; times_used := 3 |} in
  unique_entries [row "a"; row "b"]
  /\ generate_pool_key "finance" 5000 = Some "finance_2500-12500"
  /\ get_peers_from_pool init healthy
       (mark_invalid init healthy [row "a"; row "b"] "a" "finance_2500-12500") 2000
       "finance" 5000 5 true = Ok ["b"]
  /\ ~ In "a" ["b"].
Proof.
  intro row.
  assert (Hu : unique_entries [row "a"; row "b"]).
  { unfold unique_entries. cbn. repeat constructor; cbn; intuition discriminate. }
  assert (Hkey : generate_pool_key "finance" 5000 = Some "finance_2500-12500")
    by (vm_compute; reflexivity).
  assert (Hget : get_peers_from_pool init healthy
                   (mark_invalid init healthy [row "a"; row "b"] "a" "finance_2500-12500")
                   2000 "finance" 5000 5 true = Ok ["b"]) by (vm_compute; reflexivity).
  split; [exact Hu |]. split; [exact Hkey |]. split; [exact Hget |].
  exact (mark_invalid_then_excluded init [row "a"; row "b"] 2000 "finance" 5000 _ "a" 5
           ["b"] Hu Hkey Hget).
Defined.

Lemma filter_absorb {A : Type} (f keep : A -> bool) (l : list A) :
  (forall x, In x l -> f x = true -> keep x = true) ->
  filter f (filter keep l) = filter f l.
Proof.
  intro H. induction l as [| a l IH]; [reflexivity |]. cbn [filter].
  assert (IH' := IH (fun x Hx => H x (or_intror Hx))).
  destruct (keep a) eqn:Ka; cbn [filter].
  - now rewrite IH'.
  - destruct (f a) eqn:Fa; [| exact IH'].
    rewrite (H a (or_introl eq_refl) Fa) in Ka. discriminate.
Qed.

(** X18.  Cleaning the pool does not cost a pool hit.  The rows that
    [cleanup_invalid_peers] deletes, and those that [cleanup_stale_peers]
    deletes at [now] when its age limit is at least [validation_days] (as
    with the defaults, 30 days against 7), are rows that no read for
    validated peers at [now] or later would return: such a read gives the
    same answer on the cleaned table as on the table before. *)
Theorem cleanup_keeps_valid_peers
    (self cleaner : manager) (table : list PeerPool) (now now' : Z) (days_old : Z)
    (niche : string) (followers : Z) (count : nat) :
  validation_days self <= days_old ->
  now <= now' ->
  get_peers_from_pool self healthy
    (snd (cleanup_stale_peers cleaner healthy table now days_old)) now'
    niche followers count true
  = get_peers_from_pool self healthy table now' niche followers count true
  /\ get_peers_from_pool self healthy
       (snd (cleanup_invalid_peers cleaner healthy table)) now'
       niche followers count true
     = get_peers_from_pool self healthy table now' niche followers count true.
Proof.
  intros Hage Hlater. unfold cleanup_stale_peers, cleanup_invalid_peers, healthy.
  cbn [andb snd]. unfold get_peers_from_pool.
  destruct (generate_pool_key niche followers) as [key |]; [| split; reflexivity].
  cbn [healthy].
  assert (Hcomm : forall keep : PeerPool -> bool,
            (forall row, is_valid row
                         && (now' - days (validation_days self) <? last_validated row) = true ->
                         keep row = true) ->
            filter (fun row => is_valid row
                               && (now' - days (validation_days self) <? last_validated row))
                   (filter (fun row => String.eqb (pool_key row) key) (filter keep table))
            = filter (fun row => is_valid row
                                 && (now' - days (validation_days self) <? last_validated row))
                     (filter (fun row => String.eqb (pool_key row) key) table)).
  { intros keep Hkeep. induction table as [| a t IH]; [reflexivity |]. cbn [filter].
    destruct (keep a) eqn:Ka; cbn [filter].
    - destruct (String.eqb (pool_key a) key); cbn [filter]; [| exact IH].
      destruct (is_valid a && (now' - days (validation_days self) <? last_validated a));
        now rewrite IH.
    - destruct (String.eqb (pool_key a) key); cbn [filter]; [| exact IH].
      destruct (is_valid a && (now' - days (validation_days self) <? last_validated a))
        eqn:Va; [| exact IH].
      rewrite (Hkeep a Va) in Ka. discriminate. }
  split.
  - rewrite Hcomm; [reflexivity |]. intros row Hv. apply andb_prop in Hv.
    destruct Hv as (_ & Hv). apply Z.ltb_lt in Hv. apply negb_true_iff, Z.ltb_ge.
    unfold days in *. lia.
  - rewrite Hcomm; [reflexivity |]. intros row Hv. apply andb_prop in Hv. tauto.
Qed.

(** The theorem with the defaults: peers validated within 7 days are
    wanted, peers not validated for 30 days are deleted. *)
Lemma cleanup_keeps_valid_peers_defaults :
  let row name validated :=
    {| handle := name; pool_key := "finance_2500-12500"; niche := "finance";
       follower_count := 6000; growth_rate := 10; is_valid := true;
       last_validated := validated; times_used := 3 |} in
  let table := [row "old" 0; row "new" (days 39)] in
  validation_days init <= 30
  /\ days 40 <= days 41
  /\ cleanup_stale_peers init healthy table (days 40) 30 = (1%nat, [row "new" (days 39)])
  /\ get_peers_from_pool init healthy [row "new" (days 39)] (days 41) "finance" 5000 5 true
     = get_peers_from_pool init healthy table (days 41) "finance" 5000 5 true.
Proof.
  intros row table.
  assert (H1 : validation_days init <= 30) by (vm_compute; discriminate).
  assert (H2 : days 40 <= days 41) by (vm_compute; discriminate).
  split; [exact H1 |]. split; [exact H2 |]. split; [reflexivity |].
  exact (proj1 (cleanup_keeps_valid_peers init init table (days 40) (days 41) 30
                  "finance" 5000 5 H1 H2)).
Defined.


Lemma used_more_zero (row : PeerPool) : used_more row 0 = row.
Proof. destruct row. unfold used_more. cbn. f_equal. lia. Qed.

Lemma used_more_more (row : PeerPool) (n m : Z) :
  used_more (used_more row n) m = used_more row (n + m).
Proof. unfold used_more. cbn. f_equal. lia. Qed.

Lemma bump_first_map (key name : string) (rows : list PeerPool) :
  unique_entries rows ->
  bump_first key name rows
  = map (fun row => if same_entry key name row then used_more row 1 else row) rows.
Proof.
  unfold unique_entries. induction rows as [| a rows IH]; intro Hu; [reflexivity |].
  cbn [map] in Hu. apply NoDup_cons_iff in Hu. destruct Hu as (Hnotin & Hu).
  cbn [bump_first map]. destruct (same_entry key name a) eqn:E.
  - f_equal. symmetry. rewrite <- (map_id rows) at 2. apply map_ext_in. intros r Hr.
    destruct (same_entry key name r) eqn:Er; [| reflexivity].
    apply PeerPoolFacts.same_entry_key in E, Er. exfalso. apply Hnotin. rewrite E, <- Er.
    now apply in_map.
  - now rewrite IH.
Qed.

Lemma usage_loop_counts (key : string) (handles : list string) :
  forall (i : nat) (rows : list PeerPool),
  unique_entries rows ->
  usage_loop healthy i key handles rows
  = Some (map (fun row =>
                 if String.eqb (pool_key row) key
                 then used_more row (Z.of_nat (count_occ string_dec handles (handle row)))
                 else row) rows).
Proof.
  induction handles as [| h handles IH]; intros i rows Hu.
  - cbn [usage_loop count_occ]. f_equal. rewrite <- (map_id rows) at 1.
    apply map_ext. intro row. cbn [Z.of_nat]. rewrite used_more_zero.
    now destruct (String.eqb (pool_key row) key).
  - cbn [usage_loop]. unfold healthy at 1. rewrite IH.
    2:{ unfold unique_entries. now rewrite PeerPoolFacts.bump_first_keys. }
    rewrite bump_first_map by exact Hu. rewrite map_map. f_equal. apply map_ext.
    intro row. unfold same_entry. cbn [count_occ].
    destruct (String.eqb (pool_key row) key) eqn:Ek; cbn [andb].
    + destruct (String.eqb (handle row) h) eqn:Eh.
      * apply String.eqb_eq in Eh. cbn [used_more pool_key handle]. rewrite Ek.
        destruct (string_dec h (handle row)) as [_ | Hne]; [| congruence].
        rewrite used_more_more. f_equal. lia.
      * apply String.eqb_neq in Eh. rewrite Ek.
        destruct (string_dec h (handle row)) as [He | _]; [congruence | reflexivity].
    + destruct (String.eqb (handle row) h); rewrite Ek; reflexivity.
Qed.

(** X19.  What [increment_usage] counts.  In a pool in which no two rows
    share their (pool key, handle), with the storage answering, the call
    adds to the usage counter of each row of the given pool the number of
    times its handle occurs in the list, and changes nothing else: a
    handle that the pool does not hold is passed over, and rows of other
    pools are as before. *)
Theorem increment_usage_counts
    (self : manager) (table : list PeerPool) (handles : list string) (key : string) :
  unique_entries table ->
  increment_usage self healthy table handles key
  = map (fun row =>
           if String.eqb (pool_key row) key
           then used_more row (Z.of_nat (count_occ string_dec handles (handle row)))
           else row) table.
Proof.
  intro Hu. unfold increment_usage. rewrite usage_loop_counts by exact Hu.
  unfold healthy at 1. destruct handles as [| h handles]; [| reflexivity].
  cbn [count_occ Z.of_nat]. rewrite <- (map_id table) at 1. apply map_ext. intro row.
  rewrite used_more_zero. now destruct (String.eqb (pool_key row) key).
Qed.

(** The theorem on a pool of two rows: ["a"] is named twice, ["zed"] is
    not in the pool. *)
Lemma increment_usage_counts_twice :
  let row name used :=
    {| handle := name; pool_key := "finance_2500-12500"; niche := "finance";
       follower_count := 6000; growth_rate := 10; is_valid := true;
       last_validated := 1000; times_used := used |} in
  unique_entries [row "a" 3; row "b" 0]
  /\ increment_usage init healthy [row "a" 3; row "b" 0] ["a"; "zed"; "a"]
       "finance_2500-12500"
     = [row "a" 5; row "b" 0].
Proof.
  intro row.
  assert (Hu : unique_entries [row "a" 3; row "b" 0]).
  { unfold unique_entries. cbn. repeat constructor; cbn; intuition discriminate. }
  split; [exact Hu |].
  rewrite (increment_usage_counts init [row "a" 3; row "b" 0] ["a"; "zed"; "a"]
             "finance_2500-12500" Hu).
  reflexivity.
Defined.

Lemma insert_by_usage_in (row x : PeerPool) (l : list PeerPool) :
  In x (insert_by_usage row l) <-> x = row \/ In x l.
Proof.
  induction l as [| a l IH]; cbn [insert_by_usage In].
  - intuition congruence.
  - destruct (times_used a <? times_used row); cbn [In]; [| rewrite IH]; intuition congruence.
Qed.

Lemma by_usage_in (x : PeerPool) (l : list PeerPool) : In x (by_usage l) <-> In x l.
Proof.
  unfold by_usage. induction l as [| a l IH]; cbn [fold_right In]; [tauto |].
  rewrite insert_by_usage_in, IH. intuition congruence.
Qed.

Lemma insert_by_usage_sorted (row : PeerPool) (l : list PeerPool) :
  most_used_first l -> most_used_first (insert_by_usage row l).
Proof.
  induction l as [| a l IH]; intro Hs.
  - cbn. split; [intros b [] | exact I].
  - cbn [insert_by_usage]. destruct Hs as (Ha & Hl).
    destruct (times_used a <? times_used row) eqn:E.
    + apply Z.ltb_lt in E. cbn [most_used_first]. split; [| split; assumption].
      intros b [<- | Hb]; [lia |]. specialize (Ha b Hb). lia.
    + apply Z.ltb_ge in E. cbn [most_used_first]. split; [| now apply IH].
      intros b Hb. apply insert_by_usage_in in Hb. destruct Hb as [-> | Hb]; [exact E |].
      now apply Ha.
Qed.

Lemma by_usage_sorted (l : list PeerPool) : most_used_first (by_usage l).
Proof.
  unfold by_usage. induction l as [| a l IH]; [exact I |]. cbn [fold_right].
  now apply insert_by_usage_sorted.
Qed.

Lemma most_used_first_firstn (n : nat) (l : list PeerPool) :
  most_used_first l -> most_used_first (firstn n l).
Proof.
  revert n. induction l as [| a l IH]; intros [| n] Hs; try exact I.
  cbn [firstn most_used_first]. destruct Hs as (Ha & Hl). split; [| now apply IH].
  intros b Hb. apply Ha. eapply in_firstn. exact Hb.
Qed.

Lemma most_used_first_descending (l : list PeerPool) :
  most_used_first l -> descending (map times_used l).
Proof.
  induction l as [| a l IH]; intro Hs; [exact I |]. destruct Hs as (Ha & Hl).
  cbn [map descending]. split; [| now apply IH].
  intros b Hb. apply in_map_iff in Hb. destruct Hb as (r & <- & Hr). now apply Ha.
Qed.

Lemma count_niche_cons (n : string) (a : PeerPool) (t : list PeerPool) :
  Z.of_nat (List.length (filter (fun row => String.eqb (niche row) n) (a :: t)))
  = Z.of_nat (List.length (filter (fun row => String.eqb (niche row) n) t))
    + (if String.eqb (niche a) n then 1 else 0).
Proof.
  cbn [filter]. destruct (String.eqb (niche a) n); cbn [List.length]; lia.
Qed.

Lemma indicator_sum (x : string) (ns : list string) :
  NoDup ns ->
  fold_right Z.add 0 (map (fun n => if String.eqb x n then 1 else 0) ns)
  = if in_dec string_dec x ns then 1 else 0.
Proof.
  induction ns as [| n ns IH]; intro Hnd; [reflexivity |].
  apply NoDup_cons_iff in Hnd. destruct Hnd as (Hn & Hnd). cbn [map fold_right].
  rewrite IH by exact Hnd.
  destruct (String.eqb x n) eqn:E.
  - apply String.eqb_eq in E. subst n.
    destruct (in_dec string_dec x ns) as [Hin | _]; [contradiction |].
    destruct (in_dec string_dec x (x :: ns)) as [_ | Hout]; [reflexivity |].
    exfalso. apply Hout. now left.
  - apply String.eqb_neq in E.
    destruct (in_dec string_dec x ns) as [Hin | Hout];
      destruct (in_dec string_dec x (n :: ns)) as [Hin' | Hout']; try reflexivity.
    + exfalso. apply Hout'. now right.
    + destruct Hin' as [-> | Hin']; [congruence | contradiction].
Qed.

Lemma niche_counts_sum (ns : list string) (table : list PeerPool) :
  NoDup ns -> (forall row, In row table -> In (niche row) ns) ->
  fold_right Z.add 0
    (map (fun n => Z.of_nat (List.length
                               (filter (fun row => String.eqb (niche row) n) table))) ns)
  = Z.of_nat (List.length table).
Proof.
  intros Hnd. induction table as [| a t IH]; intro Hall.
  - clear. induction ns as [| n ns IH]; [reflexivity |].
    cbn [map fold_right filter List.length Z.of_nat] in *. now rewrite IH.
  - assert (Hsplit : forall l : list string,
              fold_right Z.add 0
                (map (fun n => Z.of_nat (List.length
                         (filter (fun row => String.eqb (niche row) n) (a :: t)))) l)
              = fold_right Z.add 0
                  (map (fun n => Z.of_nat (List.length
                           (filter (fun row => String.eqb (niche row) n) t))) l)
                + fold_right Z.add 0
                    (map (fun n => if String.eqb (niche a) n then 1 else 0) l)).
    { induction l as [| n l IHl]; [reflexivity |]. cbn [map fold_right].
      rewrite IHl, count_niche_cons. lia. }
    rewrite Hsplit, IH by (intros row Hr; apply Hall; now right).
    rewrite indicator_sum by exact Hnd.
    destruct (in_dec string_dec (niche a) ns) as [_ | Hout].
    + cbn [List.length]. lia.
    + exfalso. apply Hout. apply Hall. now left.
Qed.

(** X20.  The statistics of the shared pool.  With the storage answering,
    [get_pool_stats] returns counts that fit together: the valid peers and
    the invalid ones, and the valid peers and the stale ones, are disjoint
    parts of the total; the list of the most used peers has at most five
    entries, in the order of their usage; when the statistics of a pool
    show no valid peer, a read of that pool for validated peers is a miss;
    and over all pools the counts of the niche breakdown add up to the
    total (the breakdown is left out when the table is empty). *)
Theorem get_pool_stats_consistent
    (self : manager) (table : list PeerPool) (now : Z) (key : option string) :
  exists s,
    get_pool_stats self healthy table now key = Some s
    /\ 0 <= valid_peers s /\ 0 <= stale_peers s /\ 0 <= invalid_peers s
    /\ valid_peers s + invalid_peers s <= total_peers s
    /\ valid_peers s + stale_peers s <= total_peers s
    /\ (List.length (top_peers s) <= 5)%nat
    /\ descending (map tp_times_used (top_peers s))
    /\ (forall c k niche followers count,
          key = Some (String c k) -> valid_peers s = 0 ->
          generate_pool_key niche followers = Some (String c k) ->
          get_peers_from_pool self healthy table now niche followers count true = Ok [])
    /\ (key = None ->
        match niche_breakdown s with
        | Some breakdown => breakdown_total breakdown = total_peers s
        | None => table = []
        end).
Proof.
  unfold get_pool_stats, healthy. cbn [andb]. rewrite orb_true_r. cbv zeta beta.
  eexists. split; [reflexivity |].
  cbn [valid_peers stale_peers invalid_peers total_peers top_peers niche_breakdown].
  set (query := match key with
                | Some (String c k) =>
                    filter (fun row => String.eqb (pool_key row) (String c k)) table
                | _ => table
                end).
  set (thr := now - days (validation_days self)).
  assert (Hvi : (List.length
                   (filter (fun row => (is_valid row && (thr <? last_validated row))%Z) query)
                 + List.length (filter (fun row => negb (is_valid row)) query)
                 <= List.length query)%nat).
  { clear. induction query as [| a q IH]; [cbn; lia |]. cbn [filter].
    destruct (is_valid a); cbn [andb negb].
    - destruct (thr <? last_validated a); cbn [List.length]; lia.
    - cbn [List.length]. lia. }
  assert (Hvs : (List.length
                   (filter (fun row => (is_valid row && (thr <? last_validated row))%Z) query)
                 + List.length (filter (fun row => (last_validated row <? thr)%Z) query)
                 <= List.length query)%nat).
  { clear. induction query as [| a q IH]; [cbn; lia |]. cbn [filter].
    destruct (thr <? last_validated a) eqn:E1; destruct (last_validated a <? thr) eqn:E2;
      rewrite ?andb_true_r, ?andb_false_r.
    - apply Z.ltb_lt in E1, E2. lia.
    - destruct (is_valid a); cbn [List.length]; lia.
    - cbn [List.length]. lia.
    - cbn [List.length]. lia. }
  split; [lia |]. split; [lia |]. split; [lia |]. split; [lia |]. split; [lia |].
  split; [rewrite length_map; apply firstn_le_length |]. split; [| split].
  - rewrite map_map. cbn [tp_times_used].
    apply most_used_first_descending, most_used_first_firstn, by_usage_sorted.
  - intros c k niche followers count -> Hzero Hkey.
    change (fun _ : nat => true) with healthy.
    destruct (get_peers_from_pool_rows self table now niche followers count true _ Hkey)
      as (selected & Hget & _ & Hdef).
    rewrite Hget. subst query. cbv beta iota in Hzero.
    assert (Hnil : selected = []).
    { rewrite Hdef. cbn [negb orb].
      destruct (filter (fun row => is_valid row && (thr <? last_validated row))
                       (filter (fun row => String.eqb (pool_key row) (String c k)) table))
        as [| x l] eqn:Hf; [| cbn [List.length] in Hzero; lia].
      clear - Hf. induction table as [| a t IH]; [reflexivity |]. cbn [filter] in *.
      destruct (String.eqb (pool_key a) (String c k)); cbn [andb filter] in *; [| now apply IH].
      fold thr. destruct (is_valid a && (thr <? last_validated a)); [discriminate |].
      now apply IH. }
    rewrite Hnil. cbn. now rewrite firstn_nil.
  - intros ->. subst query. cbv beta iota.
    assert (Hsum : breakdown_total (count_by_niche table) = Z.of_nat (List.length table)).
    { unfold breakdown_total, count_by_niche. rewrite map_map. cbn [snd].
      apply niche_counts_sum; [apply NoDup_nodup |].
      intros row Hr. apply nodup_In. now apply in_map. }
    destruct (count_by_niche table) as [| b l] eqn:Hc; [| exact Hsum].
    destruct table as [| a t]; [reflexivity |].
    assert (Hin : In (niche a) (nodup string_dec (map niche (a :: t))))
      by (apply nodup_In; now left).
    unfold count_by_niche in Hc. apply map_eq_nil in Hc. rewrite Hc in Hin. destruct Hin.
Qed.


(** [pool_operations_keep_unique] on a pool of one row. *)
Lemma pool_operations_keep_unique_one_row :
  let row := {| handle := "a"; pool_key := "finance_2500-12500"; niche := "finance";
                follower_count := 6000; growth_rate := 10; is_valid := true;
                last_validated := 1000; times_used := 3 |} in
  let b := {| peer_handle := "b"; followers_count := 7000; estimated_30d_growth := 5 |} in
  unique_entries [row]
  /\ (forall n table',
        add_peers_to_pool init healthy [row] 2000 [b] "finance" (Some "finance_2500-12500")
        = Ok (n, table') -> unique_entries table')
  /\ (forall handles key, unique_entries (increment_usage init healthy [row] handles key))
  /\ (forall name key, unique_entries (mark_invalid init healthy [row] name key))
  /\ unique_entries (snd (cleanup_invalid_peers init healthy [row])).
Proof.
  intros row b.
  assert (Hu : unique_entries [row]).
  { unfold unique_entries. cbn. repeat constructor. intros []. }
  destruct (PeerPoolFacts.pool_operations_keep_unique init healthy [row] 2000 Hu)
    as (Hadd & Husage & Hmark & _ & Hclean).
  split; [exact Hu |]. split; [| split; [| split]].
  - intros n table' H. apply (Hadd [b] "finance" (Some "finance_2500-12500") n table'); [| exact H].
    cbn. repeat constructor. intros [].
  - exact Husage.
  - exact Hmark.
  - exact Hclean.
Defined.

(** [add_same_handle_twice] on an empty pool: "alice" is added with 2000
    followers, then again with 2500. *)
Lemma add_same_handle_twice_alice :
  let p1 := {| peer_handle := "alice"; followers_count := 2000;
               estimated_30d_growth := 100 |} in
  let p2 := {| peer_handle := "alice"; followers_count := 2500;
               estimated_30d_growth := 120 |} in
  unique_entries []
  /\ peer_handle p2 = peer_handle p1
  /\ exists n1 t1 t2,
       add_peers_to_pool init healthy [] 1000 [p1] "finance" (Some "finance_100-3300")
       = Ok (n1, t1)
       /\ add_peers_to_pool init healthy t1 2000 [p2] "finance" (Some "finance_100-3300")
          = Ok (0%nat, t2)
       /\ unique_entries t2
       /\ List.length t2 = List.length t1
       /\ n1 = 1%nat.
Proof.
  intros p1 p2.
  assert (Hu : unique_entries []) by constructor.
  assert (Hh : peer_handle p2 = peer_handle p1) by reflexivity.
  split; [exact Hu |]. split; [exact Hh |].
  destruct (PeerPoolFacts.add_same_handle_twice init [] 1000 2000 p1 p2 "finance"
              "f" "inance_100-3300" Hu Hh)
    as (n1 & t1 & t2 & H1 & H2 & H3 & H4 & _ & H6).
  exists n1, t1, t2. split; [exact H1 |]. split; [exact H2 |]. split; [exact H3 |].
  split; [exact H4 |]. apply H6. intros [].
Defined.

End PoolOpsFacts.

Module RetryTimingFacts.
Import Exn.
Import RetryNotions RetryTimingNotions.

Lemma time_slept_cons2 (s : Z) (trace : list event) :
  time_slept (Request :: Sleep s :: trace) = s + time_slept trace.
Proof. reflexivity. Qed.

Lemma flat_map_seq_shift {A : Type} (f : nat -> list A) (a n : nat) :
  flat_map f (seq (S a) n) = flat_map (fun j => f (S j)) (seq a n).
Proof. rewrite <- seq_shift, flat_map_concat_map, map_map, <- flat_map_concat_map. reflexivity. Qed.

(** [TwitterAPIClient._make_request] on a reply that it does not retry. *)
Lemma tw_make_request_final {B : Type} (self : TwitterAPIClient.client)
    (srv : server B) (rc : nat) :
  retryable (srv 0%nat) = false \/ (TwitterAPIClient.max_retries self <= rc)%nat ->
  TwitterAPIClient._make_request self srv rc = tw_final self (srv 0%nat).
Proof.
  intro H. rewrite TwitterAPIClient._make_request_equation_1. unfold tw_final.
  destruct (srv 0%nat) as [c body | |]; simp _make_request.
  - destruct (is_http_error c) eqn:He; simp _make_request; [| reflexivity].
    destruct (c =? 429) eqn:E; simp _make_request.
    + destruct H as [H | H]; [cbn in H; congruence |].
      destruct (lt_dec rc (TwitterAPIClient.max_retries self)); [lia |].
      simp _make_request. reflexivity.
    + destruct (c =? 404); simp _make_request; [reflexivity |].
      destruct ((c =? 401) || (c =? 403)); simp _make_request; reflexivity.
  - destruct H as [H | H]; [cbn in H; congruence |].
    destruct (lt_dec rc (TwitterAPIClient.max_retries self)); [lia |].
    simp _make_request. reflexivity.
  - reflexivity.
Qed.





(** [GrokClient._make_request] on a reply that it does not retry. *)
Lemma gk_make_request_final (self : GrokClient.client) (srv : server string) (rc : nat) :
  retryable (srv 0%nat) = false \/ (GrokClient.max_retries self <= rc)%nat ->
  GrokClient._make_request self srv rc = gk_final (srv 0%nat).
Proof.
  intro H. rewrite GrokClient._make_request_equation_1. unfold gk_final.
  destruct (srv 0%nat) as [c body | |]; simp _make_request.
  - destruct (is_http_error c) eqn:He; simp _make_request; [| reflexivity].
    destruct (c =? 429) eqn:E; simp _make_request.
    + destruct H as [H | H]; [cbn in H; congruence |].
      destruct (lt_dec rc (GrokClient.max_retries self)); [lia |].
      simp _make_request. reflexivity.
    + destruct ((c =? 401) || (c =? 403)); simp _make_request; reflexivity.
  - destruct H as [H | H]; [cbn in H; congruence |].
    destruct (lt_dec rc (GrokClient.max_retries self)); [lia |].
    simp _make_request. reflexivity.
  - reflexivity.
Qed.

Lemma gk_make_request_trace (self : GrokClient.client) (k : nat) :
  forall (srv : server string) (rc : nat),
  (rc + k <= GrokClient.max_retries self)%nat ->
  (forall j, (j < k)%nat -> retryable (srv j) = true) ->
  retryable (srv k) = false \/ (rc + k = GrokClient.max_retries self)%nat ->
  GrokClient._make_request self srv rc
  = (flat_map (fun j => [Request;
                         Sleep (if rate_limited (srv j) then 2 ^ Z.of_nat (rc + j) else 2)])
              (seq 0 k)
     ++ fst (gk_final (srv k)),
     snd (gk_final (srv k))).
Proof.
  induction k as [| k IH]; intros srv rc Hk Hretry Hlast.
  - cbn [seq flat_map app]. rewrite gk_make_request_final.
    + now destruct (gk_final (srv 0%nat)).
    + destruct Hlast as [H | H]; [now left | right; lia].
  - rewrite RetryFacts.Grok.gk_make_request_retry by (apply Hretry; lia).
    destruct (lt_dec rc (GrokClient.max_retries self)); [| lia].
    rewrite (IH (later srv) (S rc)).
    + cbn [fst snd seq flat_map]. rewrite flat_map_seq_shift. rewrite Nat.add_0_r.
      cbn [app]. unfold later.
      rewrite (flat_map_ext
                 (fun j => [Request;
                            Sleep (if rate_limited (srv (S j))
                                   then 2 ^ Z.of_nat (S rc + j) else 2)])
                 (fun j => [Request;
                            Sleep (if rate_limited (srv (S j))
                                   then 2 ^ Z.of_nat (rc + S j) else 2)]));
        [reflexivity |].
      intro j. now rewrite Nat.add_succ_r.
    + lia.
    + intros j Hj. apply Hretry. lia.
    + destruct Hlast as [H | H]; [now left | right; lia].
Qed.

(** X2.  How a request of the Grok client ends.  If the first [k] replies
    are rate limits (HTTP 429) or timeouts and the next one is not, or is
    the last one that the three retries allow, then [_make_request] makes
    exactly [k + 1] requests and ends on that reply.  Before its
    [j]-th retry it pauses [2 ** j] seconds after a rate limit (1, 2, 4:
    the delay doubles) and 2 seconds after a timeout.  A completion is
    returned without a further pause. *)
Theorem gk_make_request_ends_on_first_final_reply
    (self : GrokClient.client) (srv : server string) (k : nat) :
  (k <= GrokClient.max_retries self)%nat ->
  (forall j, (j < k)%nat -> retryable (srv j) = true) ->
  retryable (srv k) = false \/ k = GrokClient.max_retries self ->
  GrokClient._make_request self srv 0
  = (flat_map (fun j => [Request;
                         Sleep (if rate_limited (srv j) then 2 ^ Z.of_nat j else 2)])
              (seq 0 k)
     ++ fst (gk_final (srv k)),
     snd (gk_final (srv k))).
Proof.
  intros Hk Hretry Hlast. apply (gk_make_request_trace self k srv 0); [lia | exact Hretry |].
  destruct Hlast as [H | H]; [now left | right; lia].
Qed.

(** The theorem on a server that limits the rate three times and then
    answers. *)
Lemma gk_make_request_ends_on_first_final_reply_fourth :
  let srv : server string := fun j =>
    match j with
    | 0%nat | 1%nat | 2%nat => Response 429 ""
    | _ => Response 200 "{}"
    end in
  (3 <= GrokClient.max_retries GrokClient.init)%nat
  /\ (forall j, (j < 3)%nat -> retryable (srv j) = true)
  /\ (retryable (srv 3%nat) = false \/ 3%nat = GrokClient.max_retries GrokClient.init)
  /\ GrokClient._make_request GrokClient.init srv 0
     = ([Request; Sleep 1; Request; Sleep 2; Request; Sleep 4; Request], Ok "{}").
Proof.
  intro srv.
  assert (H1 : (3 <= GrokClient.max_retries GrokClient.init)%nat) by (cbn; lia).
  assert (H2 : forall j, (j < 3)%nat -> retryable (srv j) = true).
  { intros [| [| [| j]]] Hj; [reflexivity | reflexivity | reflexivity | lia]. }
  assert (H3 : retryable (srv 3%nat) = false
               \/ 3%nat = GrokClient.max_retries GrokClient.init) by (left; reflexivity).
  split; [exact H1 |]. split; [exact H2 |]. split; [exact H3 |].
  rewrite (gk_make_request_ends_on_first_final_reply GrokClient.init srv 3 H1 H2 H3).
  reflexivity.
Defined.

Lemma tw_time_slept_bounded {B : Type} (self : TwitterAPIClient.client) (n : nat) :
  forall (srv : server B) (rc : nat),
  (TwitterAPIClient.max_retries self - rc = n)%nat ->
  0 <= TwitterAPIClient.rate_limit_delay self ->
  time_slept (fst (TwitterAPIClient._make_request self srv rc))
  <= 10 * Z.of_nat n + TwitterAPIClient.rate_limit_delay self.
Proof.
  induction n as [| n IH]; intros srv rc Hn Hdelay.
  - rewrite tw_make_request_final by (right; lia). unfold tw_final.
    destruct (srv 0%nat) as [c body | |]; [destruct (is_http_error c) | |];
      cbn [fst]; unfold time_slept; cbn; lia.
  - destruct (retryable (srv 0%nat)) eqn:Hr.
    + rewrite RetryFacts.Twitter.tw_make_request_retry by exact Hr.
      destruct (lt_dec rc (TwitterAPIClient.max_retries self)); [| lia].
      cbn [fst]. rewrite time_slept_cons2.
      specialize (IH (later srv) (S rc) ltac:(lia) Hdelay).
      destruct (rate_limited (srv 0%nat)); lia.
    + rewrite tw_make_request_final by (now left). unfold tw_final.
      destruct (srv 0%nat) as [c body | |]; [destruct (is_http_error c) | |];
        cbn [fst]; unfold time_slept; cbn [sleeps flat_map app fold_right]; lia.
Qed.

Lemma gk_time_slept_bounded (self : GrokClient.client) (n : nat) :
  forall (srv : server string) (rc : nat),
  (GrokClient.max_retries self - rc = n)%nat ->
  time_slept (fst (GrokClient._make_request self srv rc))
  <= fold_right Z.add 0 (map (fun j => Z.max 2 (2 ^ Z.of_nat j)) (seq rc n)).
Proof.
  induction n as [| n IH]; intros srv rc Hn.
  - rewrite gk_make_request_final by (right; lia). unfold gk_final.
    destruct (srv 0%nat) as [c body | |]; [destruct (is_http_error c) | |];
      cbn [fst]; unfold time_slept; cbn; lia.
  - cbn [seq map fold_right].
    assert (Hpos : 0 <= fold_right Z.add 0
                          (map (fun j => Z.max 2 (2 ^ Z.of_nat j)) (seq (S rc) n))).
    { clear. generalize (S rc). induction n as [| n IH]; intro a; [cbn; lia |].
      cbn [seq map fold_right]. specialize (IH (S a)). lia. }
    destruct (retryable (srv 0%nat)) eqn:Hr.
    + rewrite RetryFacts.Grok.gk_make_request_retry by exact Hr.
      destruct (lt_dec rc (GrokClient.max_retries self)); [| lia].
      cbn [fst]. rewrite time_slept_cons2.
      specialize (IH (later srv) (S rc) ltac:(lia)).
      destruct (rate_limited (srv 0%nat)); lia.
    + rewrite gk_make_request_final by (now left). unfold gk_final.
      destruct (srv 0%nat) as [c body | |]; [destruct (is_http_error c) | |];
        cbn [fst]; unfold time_slept; cbn [sleeps flat_map app fold_right]; lia.
Qed.

(** X3.  The time a request can spend waiting.  Whatever the server
    replies, one call of [_make_request] pauses for a bounded time: the
    Twitter client at most 10 seconds per retry plus the pause between
    calls, 35 seconds in all with its settings; the Grok client at most
    the larger of 2 and [2 ** j] seconds before its [j]-th retry, 8 seconds
    in all with its settings. *)
Theorem make_request_time_slept_bounded :
  (forall (B : Type) (self : TwitterAPIClient.client) (srv : server B),
      0 <= TwitterAPIClient.rate_limit_delay self ->
      time_slept (fst (TwitterAPIClient._make_request self srv 0))
      <= 10 * Z.of_nat (TwitterAPIClient.max_retries self)
         + TwitterAPIClient.rate_limit_delay self)
  /\ (forall (B : Type) (srv : server B),
        time_slept (fst (TwitterAPIClient._make_request TwitterAPIClient.init srv 0)) <= 35)
  /\ (forall (self : GrokClient.client) (srv : server string),
        time_slept (fst (GrokClient._make_request self srv 0))
        <= fold_right Z.add 0
             (map (fun j => Z.max 2 (2 ^ Z.of_nat j)) (seq 0 (GrokClient.max_retries self))))
  /\ (forall srv : server string,
        time_slept (fst (GrokClient._make_request GrokClient.init srv 0)) <= 8).
Proof.
  split; [| split; [| split]].
  - intros B self srv Hdelay.
    apply (tw_time_slept_bounded self (TwitterAPIClient.max_retries self) srv 0); [lia | exact Hdelay].
  - intros B srv.
    apply (tw_time_slept_bounded TwitterAPIClient.init 3 srv 0); [reflexivity | cbn; lia].
  - intros self srv.
    apply (gk_time_slept_bounded self (GrokClient.max_retries self) srv 0). lia.
  - intros srv. apply (gk_time_slept_bounded GrokClient.init 3 srv 0). reflexivity.
Qed.

End RetryTimingFacts.

Module CostTrackerFacts.
Import CostTracker CostTrackerNotions.

Lemma credits_checked_upto : forallb credits_checked (map Z.of_nat (seq 0 (Z.to_nat 10001))) = true.
Proof. vm_compute. reflexivity. Qed.

(** X9.  The charge for a tweets call.  For a timeline of up to 10000
    tweets [add_tweets_call] charges 15 credits per tweet or one credit
    less, and never less than 15; up to 1000 tweets (the API returns at
    most 100 per call) the charge is exactly 15 per tweet.  The lost
    credit comes from the float arithmetic of [int((n / 1000) * 15000)]. *)
Theorem tweet_credits_per_tweet (n : Z) :
  0 <= n <= 10000 ->
  exists credits,
    tweet_credits n = Some credits
    /\ 15 <= credits
    /\ 15 * n - 1 <= credits <= Z.max 15 (15 * n)
    /\ (n <= 1000 -> credits = Z.max 15 (15 * n)).
Proof.
  intro Hn.
  assert (Hin : In n (map Z.of_nat (seq 0 (Z.to_nat 10001)))).
  { apply in_map_iff. exists (Z.to_nat n). split; [lia |]. apply in_seq. lia. }
  pose proof (proj1 (forallb_forall _ _) credits_checked_upto n Hin) as Hc.
  unfold credits_checked in Hc. unfold tweet_credits in *.
  destruct (Py.int_of_float _) as [c |]; [| discriminate].
  eexists. split; [reflexivity |].
  apply andb_prop in Hc. destruct Hc as (Hc & Hexact).
  apply andb_prop in Hc. destruct Hc as (Hlo & Hhi).
  apply Z.leb_le in Hlo, Hhi.
  split; [destruct (c <? 15) eqn:E; [lia | apply Z.ltb_ge in E; lia] |].
  split; [lia |].
  intro Hsmall. apply orb_prop in Hexact. destruct Hexact as [H | H].
  - apply Z.ltb_lt in H. lia.
  - now apply Z.eqb_eq in H.
Qed.

(** The theorem on 100 tweets, and the first count at which a credit is
    lost. *)
Lemma tweet_credits_per_tweet_hundred :
  0 <= 100 <= 10000
  /\ tweet_credits 100 = Some 1500
  /\ tweet_credits 0 = Some 15
  /\ tweet_credits 1001 = Some 15014.
Proof.
  assert (H : 0 <= 100 <= 10000) by lia.
  split; [exact H |].
  destruct (tweet_credits_per_tweet 100 H) as (credits & Hc & _ & _ & Hexact).
  split; [rewrite Hc; f_equal; rewrite Hexact by lia; reflexivity |].
  split; vm_compute; reflexivity.
Defined.

Lemma tweet_credits_at_least (n credits : Z) :
  tweet_credits n = Some credits -> 15 <= credits.
Proof.
  unfold tweet_credits. destruct (Py.int_of_float _) as [c |]; [| discriminate].
  intro H. injection H as <-. destruct (c <? 15) eqn:E; [lia | now apply Z.ltb_ge in E].
Qed.

(** X10.  The books of the tracker.  After any sequence of its counting
    calls, each counter has grown by the number of calls of its kind; the
    Twitter credits have grown by 18 per user lookup, 20 per search and at
    least 15 per tweets call; a Grok call leaves the credits alone and adds
    its tokens. *)
Theorem tracker_accounts (ops : list operation) (self after : tracker) :
  run ops self = Some after ->
  let count (kind : operation -> bool) := Z.of_nat (List.length (filter kind ops)) in
  let user_info := count (fun op => match op with UserInfoCall => true | _ => false end) in
  let tweets := count (fun op => match op with TweetsCall _ => true | _ => false end) in
  let search := count (fun op => match op with SearchCall => true | _ => false end) in
  let grok := count (fun op => match op with GrokCall _ _ => true | _ => false end) in
  user_info_calls after = user_info_calls self + user_info
  /\ tweets_calls after = tweets_calls self + tweets
  /\ search_calls after = search_calls self + search
  /\ grok_calls after = grok_calls self + grok
  /\ twitter_credits self + 18 * user_info + 20 * search + 15 * tweets
     <= twitter_credits after
  /\ (tweets = 0 ->
      twitter_credits after = twitter_credits self + 18 * user_info + 20 * search)
  /\ grok_input_tokens after
     = grok_input_tokens self
       + fold_right Z.add 0
           (map (fun op => match op with GrokCall i _ => i | _ => 0 end) ops)
  /\ grok_output_tokens after
     = grok_output_tokens self
       + fold_right Z.add 0
           (map (fun op => match op with GrokCall _ o => o | _ => 0 end) ops).
Proof.
  cbv zeta. revert self. induction ops as [| op ops IH]; intros self Hrun.
  - cbn [run] in Hrun. injection Hrun as <-. cbn. repeat split; lia.
  - cbn [run] in Hrun. destruct (apply op self) as [self' |] eqn:Hop; [| discriminate].
    specialize (IH self' Hrun).
    destruct IH as (H1 & H2 & H3 & H4 & H5 & H6 & H7 & H8).
    destruct op as [| n | | i o]; cbn [apply] in Hop.
    + injection Hop as <-. cbn [filter map fold_right List.length] in *.
      cbn [add_user_info_call user_info_calls tweets_calls search_calls grok_calls
           twitter_credits grok_input_tokens grok_output_tokens] in *.
      unfold TWITTER_USER_INFO in *. repeat split; lia.
    + unfold add_tweets_call in Hop.
      destruct (tweet_credits n) as [c |] eqn:Hc; [| discriminate].
      apply tweet_credits_at_least in Hc. injection Hop as <-.
      cbn [filter map fold_right List.length] in *.
      cbn [user_info_calls tweets_calls search_calls grok_calls
           twitter_credits grok_input_tokens grok_output_tokens] in *.
      repeat split; lia.
    + injection Hop as <-. cbn [filter map fold_right List.length] in *.
      cbn [add_search_call user_info_calls tweets_calls search_calls grok_calls
           twitter_credits grok_input_tokens grok_output_tokens] in *.
      unfold TWITTER_SEARCH in *. repeat split; lia.
    + injection Hop as <-. cbn [filter map fold_right List.length] in *.
      cbn [add_grok_call user_info_calls tweets_calls search_calls grok_calls
           twitter_credits grok_input_tokens grok_output_tokens] in *.
      repeat split; lia.
Qed.

(** The theorem on the calls of one profiling: a user lookup, 40 tweets,
    a Grok call. *)
Lemma tracker_accounts_one_profile :
  let ops := [UserInfoCall; TweetsCall 40; GrokCall 900 350] in
  exists after,
    run ops init = Some after
    /\ twitter_credits after = 618
    /\ 0 + 18 * 1 + 20 * 0 + 15 * 1 <= twitter_credits after
    /\ grok_input_tokens after = 900.
Proof.
  intro ops.
  assert (Hrun : exists after, run ops init = Some after /\ twitter_credits after = 618).
  { eexists. split; vm_compute; reflexivity. }
  destruct Hrun as (after & Hrun & Hcredits). exists after.
  destruct (tracker_accounts ops init after Hrun) as (_ & _ & _ & _ & H5 & _ & H7 & _).
  split; [exact Hrun |]. split; [exact Hcredits |]. split; [exact H5 | exact H7].
Defined.

End CostTrackerFacts.

Module TwitterClientFacts.
Import Exn PyVal TwitterAPIClient.
Import RetryNotions RetryTimingNotions TwitterClientNotions.

Lemma get_dict (members : list (string * value)) (key : string) (default : value) :
  get (VDict members) key default = Value (field key default members).
Proof. unfold get, field. now destruct (lookup key members). Qed.

Lemma get_not_dict (v : value) (key : string) (default : value) :
  is_dict v = false -> get v key default = Error AttributeError.
Proof. destruct v; cbn; congruence. Qed.

(** [_make_request] raises nothing but [TwitterAPIError]. *)
Lemma make_request_raises {B : Type} (self : client) (n : nat) :
  forall (srv : server B) (rc : nat) (e : exn),
  (max_retries self - rc = n)%nat ->
  snd (_make_request self srv rc) = Raise e -> exists why, e = TwitterAPIError why.
Proof.
  assert (Hfinal : forall (r : reply B) e,
            snd (tw_final self r) = Raise e -> exists why, e = TwitterAPIError why).
  { intros r e. unfold tw_final. destruct r as [c body | |].
    - destruct (is_http_error c); cbn [snd]; intro H; [| discriminate].
      injection H as <-. eauto.
    - cbn [snd]. intro H. injection H as <-. eauto.
    - cbn [snd]. intro H. injection H as <-. eauto. }
  induction n as [| n IH]; intros srv rc e Hn.
  - rewrite RetryTimingFacts.tw_make_request_final by (right; lia). apply Hfinal.
  - destruct (retryable (srv 0%nat)) eqn:Hr.
    + rewrite RetryFacts.Twitter.tw_make_request_retry by exact Hr.
      destruct (lt_dec rc (max_retries self)); [| lia].
      cbn [snd]. apply IH. lia.
    + rewrite RetryTimingFacts.tw_make_request_final by (now left). apply Hfinal.
Qed.

Lemma read_user_info_spec (response : value) :
  match read_user_info response with
  | Value found => found = option_map user_dict (user_info_of response)
  | Error _ => user_info_of response = None
  end.
Proof.
  unfold read_user_info, user_info_of.
  destruct response as [| b | n | x | s | items | members]; try exact eq_refl.
  - cbn [contains_key and_then]. destruct (contains "data" s); reflexivity.
  - cbn [contains_key and_then]. destruct (existsb (is_str "data") items); reflexivity.
  - cbn [contains_key and_then getitem].
    destruct (lookup "data" members) as [data |]; [| reflexivity].
    cbn [and_then].
    destruct data as [| b | n | x | s | items | data]; cbn [truthy];
      try reflexivity;
      try (match goal with |- context [if ?c then _ else _] => destruct c end;
           reflexivity).
    destruct data as [| kv data']; [reflexivity |].
    set (data := kv :: data'). rewrite !get_dict. cbn [and_then].
    destruct (truthy (field "id" VNone data)); cbn [negb andb]; [| reflexivity].
    rewrite ?get_dict. cbn [and_then].
    destruct (truthy (field "userName" VNone data)); cbn [negb]; [| reflexivity].
    unfold user_of_info. rewrite !get_dict. reflexivity.
Qed.


(** [get_user_by_handle] on the result of its request: the exceptions that
    reading the reply can raise are caught and give [None]. *)
Lemma get_user_by_handle_reads
    (self : client) (srv : string -> server value)
    (cost_tracker : option CostTracker.tracker) (handle : string) :
  get_user_by_handle self srv cost_tracker handle
  = match _make_request self (srv (Str.lstrip_at handle)) 0 with
    | (trace, Raise e) => (trace, Raise e, cost_tracker)
    | (trace, Ok response) =>
        (trace, Ok (option_map user_dict (user_info_of response)),
         option_map CostTracker.add_user_info_call cost_tracker)
    end.
Proof.
  unfold get_user_by_handle. cbv zeta.
  destruct (_make_request self (srv (Str.lstrip_at handle)) 0) as [trace [response | e]];
    [| reflexivity].
  pose proof (read_user_info_spec response) as Hspec.
  destruct (read_user_info response) as [found | err].
  - now subst found.
  - now rewrite Hspec.
Qed.


(** X4.  What [get_user_by_handle] returns.  The method makes the
    requests of one [_make_request].  When that raises, the
    [TwitterAPIError] goes to the caller and the cost tracker is not
    charged.  When a reply arrives, the tracker (if there is one) is
    charged one user lookup, whatever the reply holds, and the method does
    not raise: it returns the user dict when the reply is a dict whose
    ['data'] is a dict with a true ['id'] and ['userName'], and [None] for
    every other reply, also for one of an unexpected type. *)
Theorem get_user_by_handle_outcome
    (self : client) (srv : string -> server value)
    (cost_tracker : option CostTracker.tracker) (handle : string) :
  let run := _make_request self (srv (Str.lstrip_at handle)) 0 in
  let out := get_user_by_handle self srv cost_tracker handle in
  fst (fst out) = fst run
  /\ (forall e, snd run = Raise e ->
        snd (fst out) = Raise e /\ snd out = cost_tracker
        /\ exists why, e = TwitterAPIError why)
  /\ (forall response, snd run = Ok response ->
        snd (fst out) = Ok (option_map user_dict (user_info_of response))
        /\ snd out = option_map CostTracker.add_user_info_call cost_tracker).
Proof.
  cbv zeta. rewrite get_user_by_handle_reads.
  pose proof (make_request_raises self (max_retries self)
                (srv (Str.lstrip_at handle)) 0) as Hraise.
  destruct (_make_request self (srv (Str.lstrip_at handle)) 0) as [trace [response | e]];
    cbn [fst snd] in *.
  - split; [reflexivity |]. split; [discriminate |].
    intros r Hr. injection Hr as <-. split; reflexivity.
  - split; [reflexivity |]. split; [| discriminate].
    intros e' He. injection He as <-. split; [reflexivity |]. split; [reflexivity |].
    apply (Hraise e); [lia | reflexivity].
Qed.

(** X5.  The two account checks.  [TwitterAPIClient.validate_account]
    answers [True] as soon as the request gets a reply, and [False] when it
    raises; it does not look at what [get_user_by_handle] returned.
    [PeerPoolManager.validate_peer] answers [True] only when a user was
    returned.  So for a reply without a usable user object the first says
    that the account is valid and the second that it is not. *)
Theorem account_checks_outcome
    (pool : PeerPoolManager.manager) (self : client) (srv : string -> server value)
    (cost_tracker : option CostTracker.tracker) (handle : string) :
  let run := _make_request self (srv (Str.lstrip_at handle)) 0 in
  let account := validate_account self srv cost_tracker handle in
  let peer := PeerPoolManager.validate_peer pool self srv cost_tracker handle in
  (forall e, snd run = Raise e ->
     snd (fst account) = Ok false /\ snd (fst peer) = false)
  /\ (forall response, snd run = Ok response ->
        snd (fst account) = Ok true
        /\ snd (fst peer) = match user_info_of response with
                            | Some _ => true
                            | None => false
                            end).
Proof.
  cbv zeta. unfold validate_account, PeerPoolManager.validate_peer.
  rewrite get_user_by_handle_reads.
  pose proof (make_request_raises self (max_retries self)
                (srv (Str.lstrip_at handle)) 0) as Hraise.
  destruct (_make_request self (srv (Str.lstrip_at handle)) 0) as [trace [response | e]];
    cbn [fst snd] in *.
  - split; [discriminate |]. intros r Hr. injection Hr as <-.
    destruct (user_info_of response); split; reflexivity.
  - split; [| discriminate]. intros e' He. injection He as <-.
    destruct (Hraise e) as [why ->]; [lia | reflexivity |]. split; reflexivity.
Qed.

Lemma original_tweets_spec (items : list value) :
  original_tweets items
  = if forallb is_dict items
    then Value (map tweet_dict (filter original items))
    else Error AttributeError.
Proof.
  induction items as [| tweet items IH]; [reflexivity |].
  cbn [original_tweets forallb]. unfold is_retweet, is_reply.
  destruct tweet as [| b | n | x | s | l | m]; try reflexivity.
  rewrite !get_dict. cbn [and_then is_dict andb filter].
  unfold original at 1. cbn [members_of].
  destruct (is_str "retweet" (field "type" VNone m)
            || truthy (field "retweeted_tweet" VNone m)); cbn [negb andb].
  - exact IH.
  - rewrite ?get_dict. cbn [and_then].
    destruct (truthy (field "isReply" VNone m)); cbn [negb].
    + exact IH.
    + rewrite ?get_dict. cbn [and_then]. rewrite IH.
      destruct (forallb is_dict items); reflexivity.
Qed.

Lemma tweet_credits_small (n : Z) :
  0 <= n <= 10000 -> CostTracker.tweet_credits n <> None.
Proof.
  intros Hn Hnone.
  assert (Hin : In n (map Z.of_nat (seq 0 (Z.to_nat 10001)))).
  { apply in_map_iff. exists (Z.to_nat n). split; [lia |]. apply in_seq. lia. }
  pose proof (proj1 (forallb_forall _ _) CostTrackerFacts.credits_checked_upto n Hin) as Hc.
  unfold CostTrackerNotions.credits_checked in Hc. rewrite Hnone in Hc. discriminate.
Qed.

(** X6.  What [get_user_tweets] returns and charges.  For a reply whose
    ['data']['tweets'] is a list (of at most 10000 tweets), the cost tracker
    is charged for every tweet of the reply, before any is filtered and
    even when the call then raises.  When every tweet of the reply is a
    dict, the method returns the tweets that are neither retweets nor
    replies, in the order of the reply, each in the repository's own
    format; a tweet that is not a dict makes the whole call raise
    [TwitterAPIError("Failed to fetch tweets")]. *)
Theorem get_user_tweets_outcome
    (self : client) (srv : string -> Z -> server value)
    (cost_tracker : option CostTracker.tracker) (handle : string) (max_results : Z)
    (members data : list (string * value)) (items : list value) :
  let run := _make_request self (srv (Str.lstrip_at handle) (Z.min max_results 100)) 0 in
  let out := get_user_tweets self srv cost_tracker handle max_results in
  snd run = Ok (VDict members) ->
  lookup "data" members = Some (VDict data) ->
  lookup "tweets" data = Some (VList items) ->
  Z.of_nat (List.length items) <= 10000 ->
  fst (fst out) = fst run
  /\ snd out = match cost_tracker with
               | Some tracker =>
                   CostTracker.add_tweets_call tracker (Z.of_nat (List.length items))
               | None => None
               end
  /\ (cost_tracker <> None -> snd out <> None)
  /\ snd (fst out)
     = (if forallb is_dict items
        then Ok (map tweet_dict (filter original items))
        else Raise (TwitterAPIError (TwFailed "Failed to fetch tweets")))
  /\ (List.length (filter original items) <= List.length items)%nat.
Proof.
  cbv zeta. intros Hrun Hdata Htweets Hlen. unfold get_user_tweets.
  destruct (_make_request self (srv (Str.lstrip_at handle) (Z.min max_results 100)) 0)
    as [trace res]. cbn [snd] in Hrun. subst res.
  unfold read_tweets, has_tweets. cbn [contains_key and_then getitem].
  rewrite Hdata. cbn [and_then contains_key getitem]. rewrite Htweets.
  cbn [and_then len iterate].
  assert (Hcredits : CostTracker.tweet_credits (Z.of_nat (List.length items)) <> None)
    by (apply tweet_credits_small; lia).
  rewrite original_tweets_spec.
  destruct cost_tracker as [tracker |].
  - unfold CostTracker.add_tweets_call.
    destruct (CostTracker.tweet_credits (Z.of_nat (List.length items))) as [credits |];
      [| congruence].
    cbn [fst snd and_then].
    destruct (forallb is_dict items); cbn [fst snd];
      (split; [reflexivity |]; split; [reflexivity |];
       split; [discriminate |]; split; [reflexivity | apply filter_length_le]).
  - cbn [fst snd and_then].
    destruct (forallb is_dict items); cbn [fst snd];
      (split; [reflexivity |]; split; [reflexivity |];
       split; [congruence |]; split; [reflexivity | apply filter_length_le]).
Qed.

(** The theorem on a reply of three tweets, of which one is a retweet and
    one a reply. *)
Lemma get_user_tweets_outcome_three :
  let tweet id extra := VDict (("id", VStr id) :: ("text", VStr "hello") :: extra) in
  let items := [tweet "1" [("type", VStr "retweet")];
                tweet "2" [];
                tweet "3" [("isReply", VBool true)]] in
  let response := VDict [("data", VDict [("tweets", VList items)])] in
  let srv : string -> Z -> server value := fun _ _ _ => Response 200 response in
  let out := get_user_tweets init srv (Some CostTracker.init) "@alice" 40 in
  snd (_make_request init (srv (Str.lstrip_at "@alice") (Z.min 40 100)) 0) = Ok response
  /\ Z.of_nat (List.length items) <= 10000
  /\ snd (fst out) = Ok [tweet_dict (tweet "2" [])]
  /\ option_map CostTracker.twitter_credits (snd out) = Some 45.
Proof.
  intros tweet items response srv out.
  assert (H1 : snd (_make_request init (srv (Str.lstrip_at "@alice") (Z.min 40 100)) 0)
               = Ok response) by reflexivity.
  assert (H4 : Z.of_nat (List.length items) <= 10000) by (cbn; lia).
  split; [exact H1 |]. split; [exact H4 |].
  destruct (get_user_tweets_outcome init srv (Some CostTracker.init) "@alice" 40
              _ _ items H1 eq_refl eq_refl H4) as (_ & Hcharge & _ & Hres & _).
  fold out in Hcharge, Hres. split.
  - rewrite Hres. reflexivity.
  - rewrite Hcharge. vm_compute. reflexivity.
Defined.

Lemma search_results_spec (items : list value) :
  search_results items
  = if forallb is_dict items
    then Value (map found_dict (filter listed items))
    else Error AttributeError.
Proof.
  induction items as [| user items IH]; [reflexivity |].
  cbn [search_results forallb].
  destruct user as [| b | n | x | s | l | m]; try reflexivity.
  rewrite !get_dict. cbn [and_then is_dict andb filter].
  unfold listed at 1. cbn [members_of].
  destruct (truthy (field "protected" VNone m)); cbn [negb andb orb].
  - exact IH.
  - destruct (truthy (field "id" VNone m)); cbn [negb].
    + rewrite ?get_dict. cbn [and_then]. rewrite IH.
      destruct (forallb is_dict items); reflexivity.
    + exact IH.
Qed.

Lemma list_slice_to_length {A : Type} (l : list A) (n : Z) :
  0 <= n -> (List.length (list_slice_to l n) <= Z.to_nat n)%nat.
Proof.
  intro Hn. unfold list_slice_to. destruct (n <? 0) eqn:E; [apply Z.ltb_lt in E; lia |].
  apply firstn_le_length.
Qed.

(** X7.  What [search_users] returns and charges.  For a reply whose
    ['users'] is a list, the cost tracker is charged one search, and only
    the first [max_results] users of the reply are looked at.  When these
    are dicts, the method returns those that are not protected and have an
    ['id'], in the order of the reply, so at most [max_results] of them; a
    user among the first [max_results] that is not a dict makes the whole
    call raise [TwitterAPIError("Failed to search users")]. *)
Theorem search_users_outcome
    (self : client) (srv : string -> server value)
    (cost_tracker : option CostTracker.tracker) (query : string) (max_results : Z)
    (members : list (string * value)) (items : list value) :
  let run := _make_request self (srv query) 0 in
  let out := search_users self srv cost_tracker query max_results in
  let looked_at := list_slice_to items max_results in
  snd run = Ok (VDict members) ->
  lookup "users" members = Some (VList items) ->
  0 <= max_results ->
  fst (fst out) = fst run
  /\ snd out = option_map CostTracker.add_search_call cost_tracker
  /\ snd (fst out)
     = (if forallb is_dict looked_at
        then Ok (map found_dict (filter listed looked_at))
        else Raise (TwitterAPIError (TwFailed "Failed to search users")))
  /\ (List.length (filter listed looked_at) <= Z.to_nat max_results)%nat
  /\ looked_at = firstn (Z.to_nat max_results) items.
Proof.
  cbv zeta. intros Hrun Husers Hmax. unfold search_users.
  destruct (_make_request self (srv query) 0) as [trace res]. cbn [snd] in Hrun. subst res.
  unfold read_search. cbn [contains_key and_then getitem]. rewrite Husers.
  cbn [and_then slice_to iterate]. rewrite search_results_spec.
  split; [now destruct (forallb is_dict (list_slice_to items max_results)) |].
  split; [now destruct (forallb is_dict (list_slice_to items max_results)) |].
  split; [now destruct (forallb is_dict (list_slice_to items max_results)) |].
  split.
  - eapply Nat.le_trans; [apply filter_length_le | now apply list_slice_to_length].
  - unfold list_slice_to. destruct (max_results <? 0) eqn:E; [| reflexivity].
    apply Z.ltb_lt in E. lia.
Qed.

(** The theorem on a reply of three users, of which the first is
    protected, when two results are asked for. *)
Lemma search_users_outcome_two_of_three :
  let user id extra := VDict (("id", VStr id) :: ("username", VStr id) :: extra) in
  let items := [user "a" [("protected", VBool true)]; user "b" []; user "c" []] in
  let response := VDict [("users", VList items)] in
  let srv : string -> server value := fun _ _ => Response 200 response in
  let out := search_users init srv (Some CostTracker.init) "finance" 2 in
  snd (_make_request init (srv "finance") 0) = Ok response
  /\ 0 <= 2
  /\ snd (fst out) = Ok [found_dict (user "b" [])]
  /\ option_map CostTracker.twitter_credits (snd out) = Some 20.
Proof.
  intros user items response srv out.
  assert (H1 : snd (_make_request init (srv "finance") 0) = Ok response) by reflexivity.
  assert (H3 : 0 <= 2) by lia.
  split; [exact H1 |]. split; [exact H3 |].
  destruct (search_users_outcome init srv (Some CostTracker.init) "finance" 2
              _ items H1 eq_refl H3) as (_ & Hcharge & Hres & _).
  fold out in Hcharge, Hres. split.
  - rewrite Hres. reflexivity.
  - rewrite Hcharge. reflexivity.
Defined.

(** X8.  The exceptions of the Twitter client.  Whatever the server
    replies and whatever the decoded body is (a dict, a list, a string, a
    number, [None]), [get_user_by_handle], [search_users] and
    [get_user_tweets] raise nothing but [TwitterAPIError], and
    [validate_account] does not raise at all; each makes the requests of
    one [_make_request], at most four. *)
Theorem twitter_client_raises_only_its_error
    (self : client) (info : string -> server value) (tweets : string -> Z -> server value)
    (cost_tracker : option CostTracker.tracker) (text : string) (max_results : Z) :
  (forall e, snd (fst (get_user_by_handle self info cost_tracker text)) = Raise e ->
             exists why, e = TwitterAPIError why)
  /\ (forall e, snd (fst (search_users self info cost_tracker text max_results)) = Raise e ->
                exists why, e = TwitterAPIError why)
  /\ (forall e, snd (fst (get_user_tweets self tweets cost_tracker text max_results))
                = Raise e ->
                exists why, e = TwitterAPIError why)
  /\ (exists answer, snd (fst (validate_account self info cost_tracker text)) = Ok answer)
  /\ (count_requests (fst (fst (get_user_by_handle self info cost_tracker text)))
      <= S (max_retries self))%nat
  /\ (count_requests (fst (fst (search_users self info cost_tracker text max_results)))
      <= S (max_retries self))%nat
  /\ (count_requests (fst (fst (get_user_tweets self tweets cost_tracker text max_results)))
      <= S (max_retries self))%nat.
Proof.
  assert (Hraise : forall (srv : server value) e,
            snd (_make_request self srv 0) = Raise e -> exists why, e = TwitterAPIError why).
  { intros srv e. apply (make_request_raises self (max_retries self)). lia. }
  assert (Hbound : forall srv : server value,
            (count_requests (fst (_make_request self srv 0)) <= S (max_retries self))%nat).
  { intro srv. pose proof (RetryFacts.Twitter.tw_make_request_bounded self srv 0). lia. }
  assert (Hinfo : forall e,
            snd (fst (get_user_by_handle self info cost_tracker text)) = Raise e ->
            exists why, e = TwitterAPIError why).
  { intros e. unfold get_user_by_handle.
    specialize (Hraise (info (Str.lstrip_at text))).
    destruct (_make_request self (info (Str.lstrip_at text)) 0) as [trace [response | e']].
    - destruct (read_user_info response); cbn [fst snd]; discriminate.
    - cbn [fst snd]. intro H. injection H as <-. now apply Hraise. }
  split; [exact Hinfo |]. split; [| split; [| split; [| split; [| split]]]].
  - intros e. unfold search_users. specialize (Hraise (info text)).
    destruct (_make_request self (info text) 0) as [trace [response | e']].
    + destruct (read_search response max_results); cbn [fst snd]; [discriminate |].
      intro H. injection H as <-. eauto.
    + cbn [fst snd]. intro H. injection H as <-. now apply Hraise.
  - intros e. unfold get_user_tweets.
    specialize (Hraise (tweets (Str.lstrip_at text) (Z.min max_results 100))).
    destruct (_make_request self (tweets (Str.lstrip_at text) (Z.min max_results 100)) 0)
      as [trace [response | e']].
    + destruct (read_tweets response cost_tracker) as [[found | err] tracker'];
        cbn [fst snd]; [discriminate |].
      intro H. injection H as <-. eauto.
    + cbn [fst snd]. intro H. injection H as <-. now apply Hraise.
  - unfold validate_account.
    destruct (get_user_by_handle self info cost_tracker text) as [[trace [found | e]] t]
      eqn:Hout.
    + eexists. reflexivity.
    + destruct (Hinfo e) as (why & ->); [reflexivity |]. eexists. reflexivity.
  - unfold get_user_by_handle. specialize (Hbound (info (Str.lstrip_at text))).
    destruct (_make_request self (info (Str.lstrip_at text)) 0) as [trace [response | e']];
      [destruct (read_user_info response) |]; exact Hbound.
  - unfold search_users. specialize (Hbound (info text)).
    destruct (_make_request self (info text) 0) as [trace [response | e']];
      [destruct (read_search response max_results) |]; exact Hbound.
  - unfold get_user_tweets.
    specialize (Hbound (tweets (Str.lstrip_at text) (Z.min max_results 100))).
    destruct (_make_request self (tweets (Str.lstrip_at text) (Z.min max_results 100)) 0)
      as [trace [response | e']];
      [destruct (read_tweets response cost_tracker) as [[found | err] tracker'] |];
      exact Hbound.
Qed.

End TwitterClientFacts.

Module ProfileFacts.
Import PyVal.
Import TwitterClientNotions ProfileNotions.











Lemma has_keys_dict (keys : list string) (members : list (string * value)) :
  InsightsGenerator.has_keys keys (VDict members)
  = Value (forallb (fun key => match lookup key members with
                               | Some _ => true
                               | None => false
                               end) keys).
Proof.
  induction keys as [| key keys IH]; [reflexivity |].
  cbn [InsightsGenerator.has_keys contains_key and_then forallb].
  destruct (lookup key members); cbn [andb]; [exact IH | reflexivity].
Qed.

(** X25.  What [_validate_response] accepts.  The answer of the language
    model is accepted exactly when it is a dict that has the six required
    keys and whose ['insights'] is a list that is not empty.  Nothing else
    is looked at: neither the number of insights asked for nor the range
    of the growth score.  An answer that is not a dict is never accepted:
    the check returns [False] or raises. *)
Theorem validate_response_accepts (response : value) :
  InsightsGenerator._validate_response response = Value true
  <-> exists members first others,
        response = VDict members
        /\ (forall key, In key InsightsGenerator.required_keys -> lookup key members <> None)
        /\ lookup "insights" members = Some (VList (first :: others)).
Proof.
  unfold InsightsGenerator._validate_response. split.
  - destruct response as [| b | n | x | s | items | members].
    + discriminate.
    + discriminate.
    + discriminate.
    + discriminate.
    + destruct (InsightsGenerator.has_keys InsightsGenerator.required_keys (VStr s))
        as [[|] | e]; discriminate.
    + destruct (InsightsGenerator.has_keys InsightsGenerator.required_keys (VList items))
        as [[|] | e]; discriminate.
    + rewrite has_keys_dict. cbn [and_then].
      destruct (forallb _ InsightsGenerator.required_keys) eqn:Hall; [| discriminate].
      rewrite TwitterClientFacts.get_dict. cbn [and_then]. unfold field.
      destruct (lookup "insights" members) as [[| | | | | [| first others] |] |] eqn:Hins;
        try discriminate.
      intros _. exists members, first, others. split; [reflexivity |].
      split; [| exact Hins].
      intros key Hkey. rewrite forallb_forall in Hall. specialize (Hall key Hkey).
      destruct (lookup key members); [discriminate | discriminate].
  - intros (members & first & others & -> & Hall & Hins).
    rewrite has_keys_dict.
    assert (Hb : forallb (fun key => match lookup key members with
                                     | Some _ => true
                                     | None => false
                                     end) InsightsGenerator.required_keys = true).
    { apply forallb_forall. intros key Hkey. specialize (Hall key Hkey).
      destruct (lookup key members); [reflexivity | congruence]. }
    rewrite Hb. cbn [and_then]. rewrite TwitterClientFacts.get_dict. unfold field.
    rewrite Hins. reflexivity.
Qed.

(** X26.  What the insight generator learns about a cached peer.  A
    peer that [_format_peers] has just formatted is summed up for the
    prompt with its figures: followers, niche, topics, style, posting and
    engagement numbers.  The peer cache stores only the ['grok_profile'] of
    a peer, and hands that back on a hit; summed up by the same code, such
    an element yields the handle alone: zero followers, an empty niche and
    the default for every other figure.  In both cases the hashtags are
    empty, since [_format_peers] does not keep them. *)
Theorem cached_peer_summary_is_bare
    (str : value -> string) (peer : list (string * value)) (profile : value) :
  PeerMatcher.format_peer str (VDict peer) = Value profile ->
  exists grok_profile,
    getitem profile "grok_profile" = Value grok_profile
    /\ InsightsGenerator.peer_summary profile = Value (full_summary peer)
    /\ InsightsGenerator.peer_summary grok_profile
       = Value (bare_summary (field "handle" (VStr "") peer)).
Proof.
  unfold PeerMatcher.format_peer. rewrite !TwitterClientFacts.get_dict.
  cbn [and_then]. unfold full_summary.
  destruct (field "handle" (VStr "") peer) as [| | | | h | |]; try discriminate.
  cbn [PeerMatcher.lstrip_at and_then]. rewrite ?TwitterClientFacts.get_dict.
  cbn [and_then].
  destruct (field "primary_niche" (VStr "") peer) as [| | | | n | |];
    try discriminate.
  cbn [PeerMatcher._extract_niche and_then]. rewrite ?TwitterClientFacts.get_dict.
  cbn [and_then]. intro H. injection H as <-.
  eexists. split; [reflexivity |]. split.
  - cbn [InsightsGenerator.peer_summary get and_then lookup String.eqb Ascii.eqb Bool.eqb].
    reflexivity.
  - reflexivity.
Qed.

(** The theorem on a peer named by the model. *)
Lemma cached_peer_summary_is_bare_example :
  let peer := [("handle", VStr "@growthguru"); ("followers", VInt 150000);
               ("primary_niche", VStr "SaaS growth"); ("match_score", VInt 85)] in
  exists profile grok_profile,
    PeerMatcher.format_peer (fun _ => "0") (VDict peer) = Value profile
    /\ getitem profile "grok_profile" = Value grok_profile
    /\ getitem (full_summary peer) "followers" = Value (VInt 150000)
    /\ InsightsGenerator.peer_summary profile = Value (full_summary peer)
    /\ InsightsGenerator.peer_summary grok_profile
       = Value (bare_summary (VStr "@growthguru")).
Proof.
  intro peer.
  assert (H : exists profile,
             PeerMatcher.format_peer (fun _ => "0") (VDict peer) = Value profile).
  { eexists. vm_compute. reflexivity. }
  destruct H as (profile & H). exists profile.
  destruct (cached_peer_summary_is_bare (fun _ => "0") peer profile H)
    as (grok_profile & Hg & Hfull & Hbare).
  exists grok_profile. split; [exact H |]. split; [exact Hg |].
  split; [reflexivity |]. split; [exact Hfull | exact Hbare].
Defined.

End ProfileFacts.
